(** * tgbot: the news ingestion pipeline (rss_parser.py, llm.py, database.py)

    A shallow embedding of the Python sources.  Python [str] values are lists
    of Unicode code points; the character tables of the interpreter
    ([str.lower], the regular-expression classes [\d], [\w], [\s]) and the
    third-party calls (urlparse, sha1, SequenceMatcher, the HTTP calls to the
    language model, the page extractor) are fields of records the definitions
    take as arguments.  The values of config.py are a record as well. *)

From Stdlib Require Import List Bool ZArith NArith QArith Lia String Ascii.
From Stdlib Require Import Permutation Sorted DecimalString.
Import ListNotations.
Open Scope Z_scope.

(** ** Strings *)

Definition char := N.
Definition str := list char.

(** An ASCII literal as a Python string. *)
Definition u (s : string) : str := map N_of_ascii (list_ascii_of_string s).

Definition SPACE : char := 32%N.

Fixpoint str_eqb (a b : str) : bool :=
  match a, b with
  | [], [] => true
  | x :: a', y :: b' => N.eqb x y && str_eqb a' b'
  | _, _ => false
  end.

(** [s.startswith(p)] *)
Fixpoint startswith (p s : str) : bool :=
  match p, s with
  | [], _ => true
  | x :: p', y :: s' => N.eqb x y && startswith p' s'
  | _ :: _, [] => false
  end.

(** [sub in s] *)
Fixpoint contains (sub s : str) : bool :=
  startswith sub s ||
  match s with
  | [] => false
  | _ :: s' => contains sub s'
  end.

(** [any(k in s for k in ks)] *)
Definition any_in (ks : list str) (s : str) : bool :=
  existsb (fun k => contains k s) ks.

(** [s.split(sep)[0]] for a one-character separator. *)
Fixpoint split_first (sep : char) (s : str) : str :=
  match s with
  | [] => []
  | c :: s' => if N.eqb c sep then [] else c :: split_first sep s'
  end.

(** ** The interpreter's character tables *)

Record Unicode : Type := {
  is_digit : char -> bool;        (* the class \d *)
  is_word : char -> bool;         (* the class \w *)
  is_space : char -> bool;        (* the class \s, and what str.strip removes *)
  str_lower : str -> str          (* str.lower *)
}.

(** What the proofs use of those tables: the blank is white space, no digit
    and its own lower case; every character [str.lower] produces is its own
    lower case, and a string of such characters is left as it is. *)
Record UnicodeLaws (U : Unicode) : Prop := {
  space_is_space : is_space U SPACE = true;
  space_not_digit : is_digit U SPACE = false;
  lower_space : str_lower U [SPACE] = [SPACE];
  lower_chars_stable :
    forall s c, In c (str_lower U s) -> str_lower U [c] = [c];
  lower_of_stable :
    forall s, (forall c, In c s -> str_lower U [c] = [c]) -> str_lower U s = s
}.

Section Text.

Variable U : Unicode.

(** [re.sub(cls+, repl, s)]: every maximal run of characters of the class is
    replaced by [repl]; [in_run] tells that the previous character was in it. *)
Fixpoint sub_runs (cls : char -> bool) (repl : str) (in_run : bool) (s : str) : str :=
  match s with
  | [] => []
  | c :: s' =>
      if cls c
      then (if in_run then [] else repl) ++ sub_runs cls repl true s'
      else c :: sub_runs cls repl false s'
  end.

Definition re_sub_plus (cls : char -> bool) (repl s : str) : str :=
  sub_runs cls repl false s.

(** [re.sub([cls], repl, s)]: every character of the class is replaced. *)
Definition re_sub_char (cls : char -> bool) (repl s : str) : str :=
  flat_map (fun c => if cls c then repl else [c]) s.

Fixpoint lstrip (s : str) : str :=
  match s with
  | [] => []
  | c :: s' => if is_space U c then lstrip s' else s
  end.

Definition rstrip (s : str) : str := rev (lstrip (rev s)).

(** [s.strip()] *)
Definition strip (s : str) : str := rstrip (lstrip s).

(** rss_parser.py, normalize_title *)
Definition normalize_title (title : str) : str :=
  match title with
  | [] => []
  | _ :: _ =>
      let title := str_lower U title in
      let title := re_sub_plus (is_digit U) [] title in
      let title := re_sub_char (fun c => negb (is_word U c || is_space U c)) [] title in
      strip (re_sub_plus (is_space U) [SPACE] title)
  end.

(** No two neighbours of [s] are both white space. *)
Definition no_space_run (s : str) : Prop :=
  forall l c d r, s = l ++ c :: d :: r -> is_space U c = true -> is_space U d = false.

(** The regular expression [\b]: a word boundary between [prev] and [next]
    (None at either end of the text). *)
Definition opt_word (c : option char) : bool :=
  match c with
  | Some x => is_word U x
  | None => false
  end.

Definition boundary (prev next : option char) : bool :=
  negb (Bool.eqb (opt_word prev) (opt_word next)).

Definition last_or (prev : option char) (w : str) : option char :=
  match rev w with
  | [] => prev
  | c :: _ => Some c
  end.

(** A match of [\b word \b] that starts at the head of [s], the character before
    it being [prev]. *)
Definition match_here (word : str) (prev : option char) (s : str) : bool :=
  startswith word s &&
  boundary prev (hd_error s) &&
  boundary (last_or prev word) (hd_error (skipn (List.length word) s)).

Fixpoint search_from (word : str) (prev : option char) (s : str) : bool :=
  match_here word prev s ||
  match s with
  | [] => false
  | c :: s' => search_from word (Some c) s'
  end.

(** detect_topic's inner [word_in_text]:
    [re.search(rf'\b{re.escape(word)}\b', target_text) is not None] *)
Definition word_in_text (word target_text : str) : bool :=
  search_from word None target_text.

End Text.

(** ** Exceptions *)

Inductive exn : Type :=
  | KeyError            (* d[k] on a missing key *)
  | IndexError
  | RequestException    (* requests.post, raise_for_status *)
  | ValueError          (* response.json() on a body that is no JSON of the expected shape *)
  | JSONDecodeError     (* json.loads *)
  | IntegrityError.     (* sqlite3: a UNIQUE constraint failed *)

Inductive result (A : Type) : Type :=
  | Ok (a : A)
  | Raise (e : exn).
Arguments Ok {A} a.
Arguments Raise {A} e.

Definition bind {A B : Type} (r : result A) (k : A -> result B) : result B :=
  match r with
  | Ok a => k a
  | Raise e => Raise e
  end.

Notation "x <- r ;; k" := (bind r (fun x => k))
  (at level 61, r at next level, right associativity).

(** [try: body except Exception: handler] *)
Definition try_except {A : Type} (body : result A) (handler : exn -> result A) : result A :=
  match body with
  | Ok a => Ok a
  | Raise e => handler e
  end.

(** ** Dictionaries: association lists in insertion order, keys unique *)

Definition dict (V : Type) := list (str * V).

Fixpoint dict_get {V : Type} (d : dict V) (k : str) : option V :=
  match d with
  | [] => None
  | (k', v) :: d' => if str_eqb k' k then Some v else dict_get d' k
  end.

(** [d[k]] *)
Definition dict_item {V : Type} (d : dict V) (k : str) : result V :=
  match dict_get d k with
  | Some v => Ok v
  | None => Raise KeyError
  end.

(** [d[k] += n] *)
Fixpoint dict_add (d : dict Z) (k : str) (n : Z) : result (dict Z) :=
  match d with
  | [] => Raise KeyError
  | (k', v) :: d' =>
      if str_eqb k' k then Ok ((k', v + n) :: d')
      else d'' <- dict_add d' k n ;; Ok ((k', v) :: d'')
  end.

(** ** config.py *)

Record topic_data : Type := {
  td_title : str;             (* ["title"] *)
  td_name : option str;       (* .get("name") *)
  td_keywords : list str;     (* ["keywords"] *)
  td_exclude : list str;      (* .get("exclude", []) *)
  td_queries : list str       (* .get("queries", []) *)
}.

Record Config : Type := {
  TOPICS : dict topic_data;
  ENTITY_TOPIC : dict str;
  POLITICS_NEGATIVE : list str;
  STRICT_BELARUS_ONLY : bool;
  BELARUS_KEYWORDS : list str;
  RUSSIA_REGIONS : list str;
  HIGH_CONFIDENCE_THRESHOLD : Z;
  SIMILARITY_THRESHOLD : Q;
  MAX_NEWS_PER_TOPIC : Z;
  MAX_NEWS_AGE_HOURS : Z;
  BLACKLIST_DOMAINS : list str;
  BLACKLIST_KEYWORDS : list str
}.

(** TOPICS is a dict, and every entity of ENTITY_TOPIC names one of its keys. *)
Definition config_ok (cfg : Config) : Prop :=
  NoDup (map fst (TOPICS cfg)) /\
  forall e t, In (e, t) (ENTITY_TOPIC cfg) -> In t (map fst (TOPICS cfg)).

(** ** The language model and the other third-party calls *)

(** What the prompt of a call is built from. *)
Inductive llm_call : Type :=
  | ValidateCall (title content topic_name : str)
  | AnalyzeCall (title content_preview : str)
  | ForceCall (title content : str).

(** The body of an HTTP reply, as [r.json()] and ["response"] read it. *)
Inductive reply_body : Type :=
  | BadBody                   (* no JSON object, or a "response" that is no string *)
  | NoResponse                (* a JSON object without the key "response" *)
  | Response (raw : str).

Inductive http_reply : Type :=
  | PostRaised                                  (* connection error, timeout *)
  | Replied (status_ok : bool) (body : reply_body).

(** A value of the JSON object the model answers with. *)
Inductive json : Type :=
  | JNull
  | JBool (b : bool)
  | JInt (n : Z)
  | JStr (s : str)
  | JOther (text : str).      (* a float, list or object, with its [str()] *)

Record Library : Type := {
  url_netloc : str -> str;                      (* urlparse(url).netloc *)
  url_path : str -> str;                        (* urlparse(url).path *)
  sha1_hexdigest : str -> str;                  (* hashlib.sha1(s.encode()).hexdigest() *)
  seq_ratio : str -> str -> Q;                  (* SequenceMatcher(None, a, b).ratio() *)
  post : llm_call -> http_reply;                (* requests.post(OLLAMA_URL, ...) *)
  json_loads : str -> option (dict json);       (* json.loads; None: JSONDecodeError *)
  extract_news_content : str -> str             (* the page text behind a link *)
}.

Section Classifier.

Variable U : Unicode.
Variable L : Library.
Variable cfg : Config.

(** rss_parser.py, is_wrong_region *)
Definition is_wrong_region (text : str) : bool :=
  let text := str_lower U text in
  if any_in (BELARUS_KEYWORDS cfg) text then false
  else if negb (any_in (RUSSIA_REGIONS cfg) text) then false
  else true.

(** llm.py, validate_topic *)
Definition validate_topic (title content topic_name : str) : result bool :=
  try_except
    (match post L (ValidateCall title (firstn 1500 content) topic_name) with
     | PostRaised => Raise RequestException
     | Replied _ BadBody => Raise ValueError
     | Replied _ NoResponse => Raise KeyError
     | Replied _ (Response raw) =>
         let ans := strip U (str_lower U raw) in
         Ok (contains (u "yes") ans)
     end)
    (fun _ => Ok true).

(** detect_topic, [scores = {tid: 0 for tid in TOPICS}] *)
Definition init_scores : dict Z := map (fun kv => (fst kv, 0)) (TOPICS cfg).

(** 1. entities *)
Definition entity_step (text : str) (scores : result (dict Z)) (et : str * str)
  : result (dict Z) :=
  sc <- scores ;;
  if contains (fst et) text then dict_add sc (snd et) 3 else Ok sc.

Definition score_entities (text : str) (scores : dict Z) : result (dict Z) :=
  fold_left (entity_step text) (ENTITY_TOPIC cfg) (Ok scores).

(** 2. keywords of one topic *)
Definition keyword_step (title_lower text tid : str) (scores : result (dict Z)) (kw : str)
  : result (dict Z) :=
  sc <- scores ;;
  let kw_lower := str_lower U kw in
  if word_in_text U kw_lower title_lower then dict_add sc tid 2
  else if word_in_text U kw_lower text then dict_add sc tid 1
  else Ok sc.

Definition topic_step (title_lower text : str) (scores : result (dict Z))
  (kv : str * topic_data) : result (dict Z) :=
  sc <- scores ;;
  if any_in (td_exclude (snd kv)) text then Ok sc
  else fold_left (keyword_step title_lower text (fst kv)) (td_keywords (snd kv)) (Ok sc).

Definition score_keywords (title_lower text : str) (scores : dict Z) : result (dict Z) :=
  fold_left (topic_step title_lower text) (TOPICS cfg) (Ok scores).

(** 3. penalties *)
Definition negative_step (text tid : str) (scores : result (dict Z)) (neg : str)
  : result (dict Z) :=
  sc <- scores ;;
  if contains neg text then dict_add sc tid (-2) else Ok sc.

Definition penalty_step (text : str) (scores : result (dict Z)) (tid : str)
  : result (dict Z) :=
  sc <- scores ;;
  if str_eqb tid (u "politics")
  then fold_left (negative_step text tid) (POLITICS_NEGATIVE cfg) (Ok sc)
  else Ok sc.

Definition apply_penalties (text : str) (scores : dict Z) : result (dict Z) :=
  fold_left (penalty_step text) (map fst scores) (Ok scores).

(** The scoring stage of detect_topic (steps 1 to 3). *)
Definition scoring (title content : str) : result (dict Z) :=
  let text := str_lower U (title ++ SPACE :: content) in
  let title_lower := str_lower U title in
  sc <- score_entities text init_scores ;;
  sc <- score_keywords title_lower text sc ;;
  apply_penalties text sc.

(** [candidates.sort(key=lambda x: x[1], reverse=True)]: stable, by score
    descending. *)
Fixpoint insert_desc (x : str * Z) (l : list (str * Z)) : list (str * Z) :=
  match l with
  | [] => [x]
  | y :: l' => if snd y <=? snd x then x :: l else y :: insert_desc x l'
  end.

Definition sort_desc (l : list (str * Z)) : list (str * Z) :=
  fold_right insert_desc [] l.

(** [TOPICS[tid].get("name") or TOPICS[tid]["title"]] *)
Definition topic_name_of (td : topic_data) : str :=
  match td_name td with
  | Some (c :: n) => c :: n
  | _ => td_title td
  end.

(** 6. the loop over the top candidates, for any [validate] in the place of
    validate_topic; [Ok None]: the loop ended without a return. *)
Fixpoint llm_stage_with (validate : str -> str -> str -> result bool)
  (title content : str) (cands : list (str * Z)) : result (option str) :=
  match cands with
  | [] => Ok None
  | (tid, _) :: rest =>
      td <- dict_item (TOPICS cfg) tid ;;
      match validate title (firstn 1200 content) (topic_name_of td) with
      | Ok true => Ok (Some tid)
      | Ok false => llm_stage_with validate title content rest
      | Raise _ => llm_stage_with validate title content rest    (* except: continue *)
      end
  end.

Definition llm_stage : str -> str -> list (str * Z) -> result (option str) :=
  llm_stage_with validate_topic.

(** rss_parser.py, detect_topic *)
Definition detect_topic (title content : str) : result (option str) :=
  let text := str_lower U (title ++ SPACE :: content) in
  if STRICT_BELARUS_ONLY cfg && is_wrong_region text then Ok None
  else
    scores <- scoring title content ;;
    let candidates := filter (fun ts => 2 <=? snd ts) scores in
    match candidates with
    | [] => Ok None
    | _ :: _ =>
        match sort_desc candidates with
        | [] => Raise IndexError
        | ((best, top_score) :: _) as sorted =>
            if HIGH_CONFIDENCE_THRESHOLD cfg <=? top_score then Ok (Some best)
            else
              confirmed <- llm_stage title content (firstn 2 sorted) ;;
              match confirmed with
              | Some tid => Ok (Some tid)
              | None => _ <- dict_item (TOPICS cfg) best ;; Ok (Some best)
              end
        end
    end.

End Classifier.

(** ** llm.py: summary and importance *)

(** [str(v)] of a JSON value. *)
Definition py_str (v : json) : str :=
  match v with
  | JNull => u "None"
  | JBool true => u "True"
  | JBool false => u "False"
  | JInt n => u (NilZero.string_of_int (Z.to_int n))
  | JStr s => s
  | JOther text => text
  end.

(** [s.replace(old, new)] for a non-empty [old]; [skip] counts the characters
    of a match still to be dropped. *)
Fixpoint replace_from (old new : str) (skip : nat) (s : str) : str :=
  match s with
  | [] => []
  | c :: s' =>
      match skip with
      | S k => replace_from old new k s'
      | O =>
          if startswith old s
          then new ++ replace_from old new (Nat.pred (List.length old)) s'
          else c :: replace_from old new O s'
      end
  end.

Definition replace (old new s : str) : str := replace_from old new O s.

Definition LBRACE : char := 123%N.
Definition RBRACE : char := 125%N.

(** The text from the first [c] on. *)
Fixpoint from_first (c : char) (s : str) : option str :=
  match s with
  | [] => None
  | x :: s' => if N.eqb x c then Some s else from_first c s'
  end.

(** The text up to and with the last [c]. *)
Definition upto_last (c : char) (s : str) : option str :=
  option_map (@rev char) (from_first c (rev s)).

(** [re.search(r"\{.*\}", text, re.S)]: from the first opening brace to the
    last closing brace after it. *)
Definition brace_match (text : str) : option str :=
  match from_first LBRACE text with
  | None => None
  | Some (_ :: rest) => option_map (cons LBRACE) (upto_last RBRACE rest)
  | Some [] => None
  end.

Record analysis : Type := {
  summary : str;
  important : Z
}.

(** [x in (a, b, ...)] on strings *)
Definition str_in (x : str) (l : list str) : bool := existsb (str_eqb x) l.

(** [d.get(k, default)] *)
Definition dict_get_default {V : Type} (d : dict V) (k : str) (default : V) : V :=
  match dict_get d k with
  | Some v => v
  | None => default
  end.

Definition MAX_CONTENT_LENGTH : nat := 5000.

Section Llm.

Variable U : Unicode.
Variable L : Library.

(** llm.py, _extract_json *)
Definition _extract_json (text : str) : result (option (dict json)) :=
  match brace_match text with
  | None => Ok None
  | Some m =>
      match json_loads L m with
      | Some d => Ok (Some d)
      | None => Raise JSONDecodeError
      end
  end.

(** [r.json().get("response", "")] and the slice of it that is logged. *)
Definition response_text (body : reply_body) : result str :=
  match body with
  | BadBody => Raise ValueError
  | NoResponse => Ok []
  | Response raw => Ok raw
  end.

(** llm.py, _force_facts *)
Definition _force_facts (title content : str) : analysis :=
  let attempt : result (option analysis) :=
    try_except
      (raw <- match post L (ForceCall title (firstn 2000 content)) with
              | PostRaised => Raise RequestException
              | Replied _ body => response_text body
              end ;;
       data <- _extract_json raw ;;
       match data with
       | Some (kv :: d) =>
           let data := kv :: d in
           let summary := firstn 1000 (py_str (dict_get_default data (u "summary") (JStr []))) in
           let summary := if (List.length summary <? 50)%nat then firstn 300 title else summary in
           let important :=
             if str_in (py_str (dict_get_default data (u "important") (JInt 0)))
                       [u "1"; u "true"]
             then 1 else 0 in
           Ok (Some {| summary := summary; important := important |})
       | _ => Ok None
       end)
      (fun _ => Ok None) in
  match attempt with
  | Ok (Some a) => a
  | _ => {| summary := firstn 300 title; important := 0 |}
  end.

(** llm.py, analyze_news *)
Definition analyze_news (title content : str) : result analysis :=
  let content_preview := firstn MAX_CONTENT_LENGTH content in
  try_except
    (raw <- match post L (AnalyzeCall title content_preview) with
            | PostRaised => Raise RequestException
            | Replied false _ => Raise RequestException
            | Replied true body => response_text body
            end ;;
     let raw := strip U (replace (u "```") [] (replace (u "```json") [] raw)) in
     data <- _extract_json raw ;;
     match data with
     | Some (kv :: d) =>
         let data := kv :: d in
         let summary := strip U (py_str (dict_get_default data (u "summary") (JStr []))) in
         let important :=
           if str_in (py_str (dict_get_default data (u "important") (JInt 0)))
                     [u "1"; u "true"; u "True"]
           then 1 else 0 in
         if (List.length summary <? 100)%nat
            || str_eqb (str_lower U summary) (firstn 100 (str_lower U title))
         then Ok (_force_facts title content_preview)
         else Ok {| summary := summary; important := important |}
     | _ => Ok (_force_facts title content_preview)
     end)
    (fun _ => Ok {| summary := firstn 300 title; important := 0 |}).

End Llm.

(** ** database.py: the tables of init_db *)

Record news_row : Type := {
  n_id : Z;                           (* INTEGER PRIMARY KEY AUTOINCREMENT *)
  n_title : str;
  n_summary : str;
  n_full_text : str;
  n_link : str;
  n_topic : str;
  n_published : Z;                    (* DATETIME, in seconds *)
  n_fingerprint : str;                (* TEXT UNIQUE *)
  n_important : Z;
  n_source : str;
  n_real_source : str;
  n_fetched_at : Z;
  n_normalized_title : option str     (* NULL in rows older than the column *)
}.

Record stats_row : Type := {
  s_newsletter_id : Z;
  s_topic : str;
  s_total_news : Z;
  s_important_news : Z
}.

Record database : Type := {
  news : list news_row;
  news_seq : Z;                       (* sqlite_sequence: the largest id ever given *)
  newsletter_stats : list stats_row
}.

(** [INSERT OR REPLACE]: the rows that conflict with the new one on a
    uniqueness constraint of the table are deleted, then the row is added.
    [unique] lists the constraints, each as the test that two rows clash. *)
Definition insert_or_replace {R : Type} (unique : list (R -> R -> bool))
  (table : list R) (r : R) : list R :=
  filter (fun x => negb (existsb (fun clash => clash x r) unique)) table ++ [r].

(** CREATE TABLE newsletter_stats declares no PRIMARY KEY and no UNIQUE column. *)
Definition newsletter_stats_unique : list (stats_row -> stats_row -> bool) := [].

Record counts : Type := {
  total : Z;
  c_important : Z
}.

(** database.py, update_newsletter_stats *)
Definition update_newsletter_stats (newsletter_id : Z) (stats : dict counts)
  (db : database) : database :=
  {| news := news db;
     news_seq := news_seq db;
     newsletter_stats :=
       fold_left
         (fun table tc =>
            insert_or_replace newsletter_stats_unique table
              {| s_newsletter_id := newsletter_id;
                 s_topic := fst tc;
                 s_total_news := total (snd tc);
                 s_important_news := c_important (snd tc) |})
         stats (newsletter_stats db) |}.

(** The rows of newsletter_stats for a run and a topic. *)
Definition stats_rows_of (newsletter_id : Z) (topic : str) (db : database) : list stats_row :=
  filter (fun r => (s_newsletter_id r =? newsletter_id) && str_eqb (s_topic r) topic)
         (newsletter_stats db).

(** [SELECT id FROM news WHERE fingerprint = ?] finds a row. *)
Definition fingerprint_exists (fp : str) (db : database) : bool :=
  existsb (fun r => str_eqb (n_fingerprint r) fp) (news db).

(** A plain [INSERT INTO news]: the UNIQUE fingerprint refuses a second row;
    the id is one more than the largest ever used. *)
Definition insert_news (db : database) (row : Z -> news_row) : result (Z * database) :=
  let new_id := 1 + fold_right Z.max (news_seq db) (map n_id (news db)) in
  if fingerprint_exists (n_fingerprint (row new_id)) db then Raise IntegrityError
  else Ok (new_id,
           {| news := news db ++ [row new_id];
              news_seq := new_id;
              newsletter_stats := newsletter_stats db |}).

(** [published >= datetime('now', '-24 hours')]: the timestamps are stored in
    one text format, in UTC, so their order as text is their order in time. *)
Definition in_last_24h (now published : Z) : bool := now - 86400 <=? published.

(** SQL [LIKE]: [%] is any text, [_] any character, ASCII letters match in
    either case. *)
Definition ascii_fold (c : char) : char :=
  if ((65 <=? c) && (c <=? 90))%N then (c + 32)%N else c.

Fixpoint sql_like (pattern s : str) : bool :=
  match pattern with
  | [] => match s with [] => true | _ :: _ => false end
  | c :: p' =>
      if N.eqb c 37%N
      then (fix any (s : str) : bool :=
              sql_like p' s || match s with [] => false | _ :: s' => any s' end) s
      else match s with
           | [] => false
           | d :: s' =>
               (N.eqb c 95%N || N.eqb (ascii_fold c) (ascii_fold d)) && sql_like p' s'
           end
  end.

(** What SQLite's [ORDER BY published DESC] is relied on for: the rows come
    back rearranged, latest first; which of two rows of the same date comes
    first is left to the engine. *)
Record Sqlite : Type := {
  order_by_published_desc : list news_row -> list news_row
}.

Fixpoint latest_first (l : list news_row) : Prop :=
  match l with
  | [] => True
  | r :: l' => (forall r', In r' l' -> n_published r' <= n_published r) /\ latest_first l'
  end.

Record SqliteLaws (S : Sqlite) : Prop := {
  order_perm : forall l, Permutation (order_by_published_desc S l) l;
  order_sorted : forall l, latest_first (order_by_published_desc S l)
}.

(** [LIMIT n]: a negative [n] is no limit. *)
Definition sql_limit {R : Type} (n : Z) (l : list R) : list R :=
  if n <? 0 then l else firstn (Z.to_nat n) l.

Section Pipeline.

Variable U : Unicode.
Variable L : Library.
Variable E : Sqlite.
Variable cfg : Config.

(** rss_parser.py, is_blacklisted *)
Definition is_blacklisted (url title : str) : bool :=
  let domain := str_lower U (url_netloc L url) in
  let domain := if startswith (u "www.") domain then skipn 4 domain else domain in
  let path := str_lower U (url_path L url) in
  let title_lower := match title with [] => [] | _ :: _ => str_lower U title end in
  existsb (fun b => contains b domain) (BLACKLIST_DOMAINS cfg)
  || any_in (BLACKLIST_KEYWORDS cfg) path
  || (match title with [] => false | _ :: _ => true end
      && any_in (BLACKLIST_KEYWORDS cfg) title_lower).

(** rss_parser.py, fingerprint *)
Definition fingerprint (title link : str) : str :=
  let domain := str_lower U (url_netloc L link) in
  let norm_title := normalize_title U title in
  sha1_hexdigest L (domain ++ u "|" ++ firstn 100 norm_title).

(** rss_parser.py, calculate_similarity *)
Definition calculate_similarity (t1 t2 : str) : Q :=
  seq_ratio L (str_lower U t1) (str_lower U t2).

(** rss_parser.py, is_similar_news: [calculate_similarity(t1, t2) > threshold] *)
Definition is_similar_news (t1 t2 : str) : bool :=
  negb (Qle_bool (calculate_similarity t1 t2) (SIMILARITY_THRESHOLD cfg)).

(** The link without its query string and fragment. *)
Definition clean_link (link : str) : str :=
  split_first 35%N (split_first 63%N link).

(** The bytes of a character in UTF-8, the encoding in which SQLite is handed
    a text. *)
Definition utf8_bytes (c : char) : Z :=
  if (c <? 128)%N then 1
  else if (c <? 2048)%N then 2
  else if (c <? 65536)%N then 3
  else 4.

Definition utf8_length (s : str) : Z := fold_right (fun c n => utf8_bytes c + n) 0 s.

(** SQLITE_MAX_LIKE_PATTERN_LENGTH, as SQLite is built by default. *)
Definition LIKE_PATTERN_LIMIT : Z := 50000.

(** The SELECT of the link raises OperationalError ([LIKE or GLOB pattern too
    complex]): SQLite refuses a pattern of more bytes than the limit when it
    evaluates LIKE, and it evaluates it for the first row it scans, recent or
    not; on an empty table nothing is evaluated and nothing raised. *)
Definition like_raises (link : str) (db : database) : bool :=
  (LIKE_PATTERN_LIMIT <? utf8_length (clean_link link ++ u "%"))
  && match news db with [] => false | _ :: _ => true end.

(** [SELECT id FROM news WHERE link LIKE ? AND published >= ...] finds a row;
    this is the answer of the query when it does not raise (like_raises). *)
Definition exact_link_match (link : str) (db : database) (now : Z) : bool :=
  existsb (fun r => sql_like (clean_link link ++ u "%") (n_link r)
                    && in_last_24h now (n_published r))
          (news db).

(** The rows whose titles are compared: of the topic when one is given, of
    every topic otherwise, from the last 24 hours. *)
Definition recent_rows (topic : option str) (db : database) (now : Z) : list news_row :=
  match topic with
  | Some (c :: t) =>
      filter (fun r => str_eqb (n_topic r) (c :: t) && in_last_24h now (n_published r))
             (news db)
  | _ => filter (fun r => in_last_24h now (n_published r)) (news db)
  end.

(** [row['normalized_title'] or normalize_title(row['title'])] *)
Definition existing_norm (r : news_row) : str :=
  match n_normalized_title r with
  | Some (c :: t) => c :: t
  | _ => normalize_title U (n_title r)
  end.

(** rss_parser.py, check_for_duplicates: what it returns when its first SELECT
    does not raise; like_raises tells when that SELECT raises, and the
    callers below treat that case. *)
Definition check_for_duplicates (title : str) (topic : option str) (link : str)
  (db : database) (now : Z) : bool :=
  if exact_link_match link db now then true
  else
    let norm_title := normalize_title U title in
    existsb (fun r => is_similar_news norm_title (existing_norm r))
            (recent_rows topic db now).

(** A feed entry as feedparser gives it. *)
Record entry : Type := {
  e_title : str;                      (* entry.get('title', '') *)
  e_link : str;                       (* entry.get('link', '') *)
  e_published_parsed : option Z;
  e_updated_parsed : option Z
}.

(** The instants at which the clock is read while one entry is processed. *)
Record clock : Type := {
  t_age : Z;                          (* datetime.now for the age filter *)
  t_dup1 : Z;                         (* 'now' of the first duplicate check *)
  t_dup2 : Z;                         (* 'now' of the check before the insert *)
  t_insert : Z                        (* 'now' of the INSERT *)
}.

Record prepared : Type := {
  p_title : str;
  p_link : str;
  p_published : Z;
  p_fp : str
}.

Record analysed : Type := {
  a_content : str;
  a_topic : str;
  a_summary : str;
  a_important : Z
}.

Record outcome : Type := {
  o_id : Z;
  o_topic : str;
  o_important : Z
}.

(** process_news_entry up to the fingerprint: title and link, blacklist,
    date, age. *)
Definition prepare (e : entry) (now : Z) : option prepared :=
  let title := strip U (e_title e) in
  let link := split_first 63%N (e_link e) in
  match title, link with
  | _ :: _, _ :: _ =>
      if is_blacklisted link title then None
      else
        match (match e_published_parsed e with
               | Some t => Some t
               | None => e_updated_parsed e
               end) with
        | None => None
        | Some published =>
            if published <? now - MAX_NEWS_AGE_HOURS cfg * 3600 then None
            else Some {| p_title := title; p_link := link; p_published := published;
                         p_fp := fingerprint title link |}
        end
  | _, _ => None
  end.

(** process_news_entry between the two locked sections: content, topic,
    summary and importance.  None: the entry is skipped. *)
Definition analyse (p : prepared) (source : str) : option analysed :=
  let title := p_title p in
  let content := extract_news_content L (p_link p) in
  match detect_topic U L cfg title
          (match content with [] => title | _ :: _ => firstn 500 content end) with
  | Ok (Some (c :: t)) =>
      let sum_imp :=
        if negb (str_eqb source (u "google"))
        then match analyze_news U L title content with
             | Ok a => (match summary a with [] => title | _ :: _ => summary a end,
                        important a)
             | Raise _ => (title, 0)
             end
        else (title, 0) in
      Some {| a_content := content; a_topic := c :: t;
              a_summary := fst sum_imp; a_important := snd sum_imp |}
  | _ => None
  end.

(** The row of the INSERT. *)
Definition new_row (p : prepared) (a : analysed) (source : str) (now : Z) (id : Z)
  : news_row :=
  {| n_id := id;
     n_title := firstn 500 (p_title p);
     n_summary := firstn 1000 (a_summary a);
     n_full_text := firstn 4000 (a_content a);
     n_link := p_link p;
     n_topic := a_topic a;
     n_published := p_published p;
     n_fingerprint := p_fp p;
     n_important := a_important a;
     n_source := source;
     n_real_source := str_lower U (url_netloc L (p_link p));
     n_fetched_at := now;
     n_normalized_title := Some (firstn 200 (normalize_title U (p_title p))) |}.

(** The last locked section: the second duplicate check, then the INSERT; an
    exception of the check or of the INSERT ends in the function's [except],
    which returns None. *)
Definition insert_section (p : prepared) (a : analysed) (source : str) (clk : clock)
  (db : database) : option outcome * database :=
  if like_raises (p_link p) db then (None, db)
  else if check_for_duplicates (p_title p) (Some (a_topic a)) (p_link p) db (t_dup2 clk)
  then (None, db)
  else
    match insert_news db (new_row p a source (t_insert clk)) with
    | Ok (news_id, db') =>
        (Some {| o_id := news_id; o_topic := a_topic a; o_important := a_important a |},
         db')
    | Raise _ => (None, db)
    end.

(** Where a worker stands in process_news_entry: each step but the third is
    one [with db_lock] section. *)
Inductive stage : Type :=
  | Fetched
  | Fingerprinted (p : prepared)
  | DedupPassed (p : prepared)
  | Summarized (p : prepared) (a : analysed)
  | Finished (r : option outcome).

Definition step (e : entry) (source : str) (clk : clock) (s : stage) (db : database)
  : stage * database :=
  match s with
  | Fetched =>
      match prepare e (t_age clk) with
      | None => (Finished None, db)
      | Some p =>
          if fingerprint_exists (p_fp p) db then (Finished None, db)
          else (Fingerprinted p, db)
      end
  | Fingerprinted p =>
      if like_raises (p_link p) db then (Finished None, db)    (* except: return None *)
      else if check_for_duplicates (p_title p) None (p_link p) db (t_dup1 clk)
      then (Finished None, db)
      else (DedupPassed p, db)
  | DedupPassed p =>
      match analyse p source with
      | None => (Finished None, db)
      | Some a => (Summarized p a, db)
      end
  | Summarized p a =>
      let rd := insert_section p a source clk db in
      (Finished (fst rd), snd rd)
  | Finished r => (Finished r, db)
  end.

Definition result_of (s : stage) : option outcome :=
  match s with
  | Finished r => r
  | _ => None
  end.

(** rss_parser.py, process_news_entry *)
Definition process_news_entry (e : entry) (source : str) (clk : clock) (db : database)
  : option outcome * database :=
  let sd1 := step e source clk Fetched db in
  let sd2 := step e source clk (fst sd1) (snd sd1) in
  let sd3 := step e source clk (fst sd2) (snd sd2) in
  let sd4 := step e source clk (fst sd3) (snd sd3) in
  (result_of (fst sd4), snd sd4).

(** Two workers on the shared store.  The lock makes every section atomic, so
    a run is an interleaving of the workers' steps. *)
Inductive worker_id : Type := W1 | W2.

Record worker : Type := {
  w_entry : entry;
  w_source : str;
  w_clock : clock
}.

Fixpoint run (w1 w2 : worker) (sched : list worker_id) (s1 s2 : stage) (db : database)
  : stage * stage * database :=
  match sched with
  | [] => (s1, s2, db)
  | W1 :: sched' =>
      let sd := step (w_entry w1) (w_source w1) (w_clock w1) s1 db in
      run w1 w2 sched' (fst sd) s2 (snd sd)
  | W2 :: sched' =>
      let sd := step (w_entry w2) (w_source w2) (w_clock w2) s2 db in
      run w1 w2 sched' s1 (fst sd) (snd sd)
  end.

(** collect_and_save_news, the DELETE of the retention step for one topic:
    [DELETE FROM news WHERE topic = ? AND id NOT IN
       (SELECT id FROM news WHERE topic = ? ORDER BY published DESC LIMIT ?)] *)
Definition of_topic (topic : str) (r : news_row) : bool := str_eqb (n_topic r) topic.

Definition kept_ids (topic : str) (rows : list news_row) : list Z :=
  map n_id (sql_limit (MAX_NEWS_PER_TOPIC cfg)
              (order_by_published_desc E (filter (of_topic topic) rows))).

Definition prune_topic (rows : list news_row) (topic : str) : list news_row :=
  filter (fun r => negb (of_topic topic r && negb (existsb (Z.eqb (n_id r)) (kept_ids topic rows))))
         rows.

(** [for topic in stats: c.execute(DELETE ...)] *)
Definition prune_topics (stats : dict counts) (db : database) : database :=
  {| news := fold_left prune_topic (map fst stats) (news db);
     news_seq := news_seq db;
     newsletter_stats := newsletter_stats db |}.

End Pipeline.

(** ** The rest of rss_parser.py *)

Definition str_eq_dec : forall a b : str, {a = b} + {a <> b} := list_eq_dec N.eq_dec.

(** [d[k] = v] *)
Fixpoint dict_set {V : Type} (d : dict V) (k : str) (v : V) : dict V :=
  match d with
  | [] => [(k, v)]
  | (k', v') :: d' =>
      if str_eqb k' k then (k', v) :: d' else (k', v') :: dict_set d' k v
  end.

(** A decimal numeral, as an f-string prints an int. *)
Definition str_of_Z (n : Z) : str := u (NilZero.string_of_int (Z.to_int n)).

Section Feeds.

Variable U : Unicode.
Variable L : Library.
Variable cfg : Config.

(** [WORD_RE.findall(s)] for [\b\w+\b]: the maximal runs of word characters
    of [s], in order; [acc] holds the run being read, last character first. *)
Fixpoint word_runs (acc : str) (s : str) : list str :=
  match s with
  | [] => match acc with [] => [] | _ :: _ => [rev acc] end
  | c :: s' =>
      if is_word U c then word_runs (c :: acc) s'
      else match acc with
           | [] => word_runs [] s'
           | _ :: _ => rev acc :: word_runs [] s'
           end
  end.

(** rss_parser.py, tokenize; the set is the list of its elements, each once. *)
Definition tokenize (text : str) : list str :=
  nodup str_eq_dec (word_runs [] (str_lower U text)).

(** rss_parser.py, build_google_rss *)
Definition build_google_rss (query : str) : str :=
  let q := replace [SPACE] [43%N] query in
  u "https://news.google.com/rss/search?q=" ++ q ++ u "&hl=ru&gl=BY&ceid=BY:ru".

(** parse_feed, the loop over the entries, each with the instants at which
    its processing reads the clock. *)
Fixpoint feed_loop (entries : list (entry * clock)) (source : str) (db : database)
  : list outcome * database :=
  match entries with
  | [] => ([], db)
  | ec :: rest =>
      let rd := process_news_entry U L cfg (fst ec) source (snd ec) db in
      let more := feed_loop rest source (snd rd) in
      (match fst rd with
       | Some res => res :: fst more
       | None => fst more
       end, snd more)
  end.

(** rss_parser.py, parse_feed; [fetched] is what the download and feedparser
    give, None when one of them raises. *)
Definition parse_feed (fetched : option (list (entry * clock))) (source : str)
  (db : database) : list outcome * database :=
  match fetched with
  | None => ([], db)
  | Some entries => feed_loop (firstn 15 entries) source db
  end.

End Feeds.

(** collect_and_save_news, one round of the loop that counts the results:
    [if t not in stats: stats[t] = {...}], [stats[t]["total"] += 1],
    [if r["important"]: stats[t]["important"] += 1]. *)
Definition count_result (stats : dict counts) (r : outcome) : dict counts :=
  let t := o_topic r in
  let stats :=
    match dict_get stats t with
    | None => dict_set stats t {| total := 0; c_important := 0 |}
    | Some _ => stats
    end in
  match dict_get stats t with
  | None => stats
  | Some c =>
      let c := {| total := total c + 1; c_important := c_important c |} in
      let c := if o_important r =? 0 then c
               else {| total := total c; c_important := c_important c + 1 |} in
      dict_set stats t c
  end.

Definition run_stats (all_results : list outcome) : dict counts :=
  fold_left count_result all_results [].

(** collect_and_save_news from the statistics on: retention, then the
    statistics of the run written to the store; the statistics are returned. *)
Definition finish_run (E : Sqlite) (cfg : Config) (newsletter_id : Z)
  (all_results : list outcome) (db : database) : dict counts * database :=
  let stats := run_stats all_results in
  (stats, update_newsletter_stats newsletter_id stats (prune_topics E cfg stats db)).

(** ** The rest of database.py *)






(** database.py, get_newsletter_stats: the rows of the run, in the order of
    the table, each written into the dictionary under its topic.  The SELECT
    has no ORDER BY; the table has no index and loses no row, so SQLite
    scans it by rowid, the order in which the rows were inserted. *)
Definition get_newsletter_stats (newsletter_id : Z) (db : database) : dict counts :=
  fold_left
    (fun stats r =>
       dict_set stats (s_topic r)
         {| total := s_total_news r; c_important := s_important_news r |})
    (filter (fun r => s_newsletter_id r =? newsletter_id) (newsletter_stats db))
    [].

(** [published >= datetime('now', '-<hours> hours')].  The modifier is the
    text [-<hours> hours]: for a negative [hours] it reads [--3 hours], which
    is no modifier of SQLite; and SQLite has no date before [day0], the
    instant of Julian day 0 on the scale of the clock (its documentation
    promises the dates from the year 0 on, its code gives them from Julian
    day 0 on).  In both cases datetime gives NULL, and the comparison with
    NULL holds for no row.  [now] is an instant the clock of a run reads,
    one SQLite has a date for. *)
Definition in_last_hours (day0 hours now published : Z) : bool :=
  if (hours <? 0) || (now - hours * 3600 <? day0) then false
  else now - hours * 3600 <=? published.

(** database.py, get_topic_stats_last_hours *)
Definition get_topic_stats_last_hours (cfg : Config) (day0 hours : Z) (db : database)
  (now : Z) : dict counts :=
  fold_left
    (fun stats topic =>
       let total :=
         Z.of_nat (List.length
                     (filter (fun r => str_eqb (n_topic r) topic
                                       && in_last_hours day0 hours now (n_published r))
                             (news db))) in
       let important :=
         Z.of_nat (List.length
                     (filter (fun r => str_eqb (n_topic r) topic
                                       && (n_important r =? 1)
                                       && in_last_hours day0 hours now (n_published r))
                             (news db))) in
       dict_set stats topic {| total := total; c_important := important |})
    (map fst (TOPICS cfg)) [].

(** ** The rest of llm.py *)

Definition MSG_SHORT : str :=
  [1053; 1077; 1076; 1086; 1089; 1090; 1072; 1090; 1086; 1095; 1085; 1086; 32; 1082;
   1086; 1085; 1090; 1077; 1082; 1089; 1090; 1072; 32; 1076; 1083; 1103; 32; 1086;
   1090; 1074; 1077; 1090; 1072; 46; 32; 1055; 1086; 1087; 1088; 1086; 1073; 1091;
   1081; 1090; 1077; 32; 1079; 1072; 1076; 1072; 1090; 1100; 32; 1074; 1086; 1087;
   1088; 1086; 1089; 32; 1087; 1086; 32; 1076; 1088; 1091; 1075; 1086; 1081; 32;
   1085; 1086; 1074; 1086; 1089; 1090; 1080; 46]%N.

Definition MSG_NONE : str :=
  [1053; 1077; 32; 1091; 1076; 1072; 1083; 1086; 1089; 1100; 32; 1087; 1086; 1083;
   1091; 1095; 1080; 1090; 1100; 32; 1086; 1090; 1074; 1077; 1090; 46]%N.

Definition MSG_ERROR : str :=
  [1054; 1096; 1080; 1073; 1082; 1072; 32; 1087; 1088; 1080; 32; 1086; 1073; 1088;
   1072; 1073; 1086; 1090; 1082; 1077; 32; 1074; 1086; 1087; 1088; 1086; 1089; 1072;
   46]%N.

(** llm.py, answer_question; [ask context question] is the reply to the call
    whose prompt holds that context and question.  The three fixed answers
    are the Russian sentences of the source. *)
Definition answer_question (U : Unicode) (ask : str -> str -> http_reply)
  (context question : str) : str :=
  match context with
  | [] => MSG_SHORT
  | _ :: _ =>
      if (List.length (strip U context) <? 50)%nat then MSG_SHORT
      else
        match ask (firstn 4000 context) question with
        | PostRaised => MSG_ERROR
        | Replied _ BadBody => MSG_ERROR
        | Replied _ NoResponse => MSG_NONE
        | Replied _ (Response raw) =>
            match strip U raw with
            | [] => MSG_NONE
            | c :: answer => c :: answer
            end
        end
  end.

(** ** Notions the properties are stated with *)

Definition Zsum (l : list Z) : Z := fold_right Z.add 0 l.

(** The call to the model failed: no reply, or a reply with no answer in it. *)
Definition call_failed (r : http_reply) : bool :=
  match r with
  | PostRaised => true
  | Replied _ BadBody => true
  | Replied _ NoResponse => true
  | Replied _ (Response _) => false
  end.

(** The turns a schedule gives a worker. *)
Fixpoint turns (w : worker_id) (sched : list worker_id) : nat :=
  match sched with
  | [] => O
  | x :: sched' =>
      match w, x with
      | W1, W1 | W2, W2 => Datatypes.S (turns w sched')
      | _, _ => turns w sched'
      end
  end.

(** [sub] appears in [s]: somewhere in it, as a substring. *)
Definition appears_in (sub s : str) : Prop :=
  exists before after, s = before ++ sub ++ after.

Section Notions.

Variable U : Unicode.
Variable L : Library.
Variable cfg : Config.

(** A whole-word match, in the words of the specification: the word appears
    in the text with a word boundary at its start and one at its end.  There
    is a word boundary at a place of the text when exactly one of its two
    neighbours is a word character; past either end of the text there is no
    character.  So a word of letters matches where no letter, digit or
    underscore touches it, and not inside a longer word. *)
Definition ends_in_word (before : str) : Prop :=
  exists l c, before = l ++ [c] /\ is_word U c = true.

Definition starts_with_word (after : str) : Prop :=
  exists c r, after = c :: r /\ is_word U c = true.

Definition word_boundary (before after : str) : Prop :=
  (ends_in_word before /\ ~ starts_with_word after)
  \/ (~ ends_in_word before /\ starts_with_word after).

Definition whole_word_in (word s : str) : Prop :=
  exists before after,
    s = before ++ word ++ after
    /\ word_boundary before (word ++ after)
    /\ word_boundary (before ++ word) after.

(** The score of a topic as the specification words it. *)
Definition entity_points (text tid : str) : Z :=
  3 * Z.of_nat (List.length
                  (filter (fun et => str_eqb tid (snd et) && contains (fst et) text)
                          (ENTITY_TOPIC cfg))).

Definition keyword_points (title_lower text kw : str) : Z :=
  if word_in_text U (str_lower U kw) title_lower then 2
  else if word_in_text U (str_lower U kw) text then 1
  else 0.

Definition keywords_points (title_lower text : str) (td : topic_data) : Z :=
  if any_in (td_exclude td) text then 0
  else Zsum (map (keyword_points title_lower text) (td_keywords td)).

Definition negative_points (text tid : str) : Z :=
  if str_eqb tid (u "politics")
  then 2 * Z.of_nat (List.length (filter (fun neg => contains neg text)
                                         (POLITICS_NEGATIVE cfg)))
  else 0.

Definition spec_score (title content tid : str) (td : topic_data) : Z :=
  let text := str_lower U (title ++ SPACE :: content) in
  let title_lower := str_lower U title in
  entity_points text tid + keywords_points title_lower text td - negative_points text tid.

(** What a call yields as text, None when reading it raises;
    [check_status]: the call is followed by raise_for_status. *)
Definition reply_text (check_status : bool) (r : http_reply) : option str :=
  match r with
  | PostRaised => None
  | Replied ok body =>
      if check_status && negb ok then None
      else match body with
           | BadBody => None
           | NoResponse => Some []
           | Response raw => Some raw
           end
  end.

(** The fallback prompt fails: the call does, or its answer holds malformed
    JSON or none. *)
Definition force_failed (title preview : str) : bool :=
  match reply_text false (post L (ForceCall title (firstn 2000 preview))) with
  | None => true
  | Some raw =>
      match _extract_json L raw with
      | Ok (Some (_ :: _)) => false
      | _ => true
      end
  end.

(** The first answer's summary is too short, or the title again. *)
Definition summary_rejected (title : str) (data : dict json) : bool :=
  let summary := strip U (py_str (dict_get_default data (u "summary") (JStr []))) in
  (List.length summary <? 100)%nat
  || str_eqb (str_lower U summary) (firstn 100 (str_lower U title)).

(** The summarization fails: the first call does, or its answer holds
    malformed JSON, or it holds no usable JSON and the fallback prompt fails. *)
Definition summarization_failed (title content : str) : bool :=
  let preview := firstn MAX_CONTENT_LENGTH content in
  match reply_text true (post L (AnalyzeCall title preview)) with
  | None => true
  | Some raw =>
      match _extract_json L (strip U (replace (u "```") [] (replace (u "```json") [] raw))) with
      | Raise _ => true
      | Ok (Some (kv :: d)) => summary_rejected title (kv :: d) && force_failed title preview
      | Ok _ => force_failed title preview
      end
  end.

Definition default_analysis (title : str) : analysis :=
  {| summary := firstn 300 title; important := 0 |}.

(** The fingerprint process_news_entry computes for an entry. *)
Definition entry_fingerprint (e : entry) : str :=
  fingerprint U L (strip U (e_title e)) (split_first 63%N (e_link e)).

End Notions.

(** ** A concrete instance: tables for ASCII and the Russian alphabet, and
    stand-ins for the third-party calls, on which the definitions compute *)

(** The constraints of the table news: fingerprints and ids are unique. *)
Definition store_ok (db : database) : Prop :=
  NoDup (map n_fingerprint (news db)) /\ NoDup (map n_id (news db)).

Module Sample.

Definition between (lo hi c : N) : bool := ((lo <=? c) && (c <=? hi))%N.

Definition sample_is_digit (c : char) : bool := between 48 57 c.

Definition sample_is_word (c : char) : bool :=
  between 48 57 c || between 65 90 c || between 97 122 c || N.eqb c 95
  || between 1040 1103 c || N.eqb c 1025 || N.eqb c 1105.

Definition sample_is_space (c : char) : bool :=
  between 9 13 c || between 28 32 c || N.eqb c 133 || N.eqb c 160.

Definition lower_char (c : char) : char :=
  if between 65 90 c then (c + 32)%N
  else if between 1040 1071 c then (c + 32)%N
  else if N.eqb c 1025 then 1105%N
  else c.

Definition tables : Unicode :=
  {| is_digit := sample_is_digit;
     is_word := sample_is_word;
     is_space := sample_is_space;
     str_lower := map lower_char |}.

(** The text after the first [//]. *)
Fixpoint after_slashes (s : str) : str :=
  match s with
  | [] => []
  | c :: s' =>
      match s' with
      | d :: rest => if N.eqb c 47 && N.eqb d 47 then rest else after_slashes s'
      | [] => []
      end
  end.

Definition sample_netloc (url : str) : str := split_first 47%N (after_slashes url).

Definition sample_path (url : str) : str :=
  match from_first 47%N (after_slashes url) with
  | Some p => split_first 63%N p
  | None => []
  end.

Fixpoint common_prefix (a b : str) : nat :=
  match a, b with
  | x :: a', y :: b' => if N.eqb x y then Datatypes.S (common_prefix a' b') else O
  | _, _ => O
  end.

(** A stand-in for the similarity ratio: twice the common prefix over the
    total length, 1 for two empty strings. *)
Definition sample_ratio (a b : str) : Q :=
  match (List.length a + List.length b)%nat with
  | O => 1%Q
  | Datatypes.S n =>
      Qmake (Z.of_nat (2 * common_prefix a b)) (Pos.of_succ_nat n)
  end.

(** The calls of a run in which the model cannot be reached. *)
Definition library_down : Library :=
  {| url_netloc := sample_netloc;
     url_path := sample_path;
     sha1_hexdigest := fun s => s;
     seq_ratio := sample_ratio;
     post := fun _ => PostRaised;
     json_loads := fun _ => None;
     extract_news_content := fun _ => [] |}.

(** Rows come back by insertion [ORDER BY published DESC]. *)
Fixpoint insert_row (r : news_row) (l : list news_row) : list news_row :=
  match l with
  | [] => [r]
  | x :: l' => if n_published x <=? n_published r then r :: l else x :: insert_row r l'
  end.

Definition engine : Sqlite :=
  {| order_by_published_desc := fold_right insert_row [] |}.

Definition topic (title : string) (kw1 kw2 : string) : topic_data :=
  {| td_title := u title; td_name := None; td_keywords := [u kw1; u kw2];
     td_exclude := []; td_queries := [] |}.

Definition config : Config :=
  {| TOPICS := [(u "economy", topic "Economy" "tax" "budget");
                (u "politics", topic "Politics" "decree" "election")];
     ENTITY_TOPIC := [(u "national bank", u "economy")];
     POLITICS_NEGATIVE := [u "football"];
     STRICT_BELARUS_ONLY := true;
     BELARUS_KEYWORDS := [u "minsk"];
     RUSSIA_REGIONS := [u "moscow"];
     HIGH_CONFIDENCE_THRESHOLD := 4;
     SIMILARITY_THRESHOLD := (85 # 100)%Q;
     MAX_NEWS_PER_TOPIC := 2;
     MAX_NEWS_AGE_HOURS := 48;
     BLACKLIST_DOMAINS := [u "spam.example"];
     BLACKLIST_KEYWORDS := [u "casino"] |}.

(** The same configuration, the topic economy having an exclude term. *)
Definition config_exclude : Config :=
  {| TOPICS := [(u "economy",
                 {| td_title := u "Economy"; td_name := None;
                    td_keywords := [u "tax"; u "budget"];
                    td_exclude := [u "lottery"]; td_queries := [] |});
                (u "politics", topic "Politics" "decree" "election")];
     ENTITY_TOPIC := ENTITY_TOPIC config;
     POLITICS_NEGATIVE := POLITICS_NEGATIVE config;
     STRICT_BELARUS_ONLY := STRICT_BELARUS_ONLY config;
     BELARUS_KEYWORDS := BELARUS_KEYWORDS config;
     RUSSIA_REGIONS := RUSSIA_REGIONS config;
     HIGH_CONFIDENCE_THRESHOLD := HIGH_CONFIDENCE_THRESHOLD config;
     SIMILARITY_THRESHOLD := SIMILARITY_THRESHOLD config;
     MAX_NEWS_PER_TOPIC := MAX_NEWS_PER_TOPIC config;
     MAX_NEWS_AGE_HOURS := MAX_NEWS_AGE_HOURS config;
     BLACKLIST_DOMAINS := BLACKLIST_DOMAINS config;
     BLACKLIST_KEYWORDS := BLACKLIST_KEYWORDS config |}.

Definition empty_db : database :=
  {| news := []; news_seq := 0; newsletter_stats := [] |}.

(** The model is down for every topic but Politics, which it accepts. *)
Definition library_flaky : Library :=
  {| url_netloc := sample_netloc;
     url_path := sample_path;
     sha1_hexdigest := fun s => s;
     seq_ratio := sample_ratio;
     post := fun c =>
       match c with
       | ValidateCall _ _ name =>
           if str_eqb name (u "Politics") then Replied true (Response (u "YES"))
           else PostRaised
       | _ => PostRaised
       end;
     json_loads := fun _ => None;
     extract_news_content := fun _ => [] |}.

(** A JSON answer of the model: a summary of 120 letters, and the JSON
    boolean true for the importance. *)
Definition QUOTE : char := 34%N.
Definition quoted (s : str) : str := QUOTE :: s ++ [QUOTE].
Definition long_summary : str := repeat 97%N 120.

Definition answer_text : str :=
  [LBRACE] ++ quoted (u "summary") ++ u ": " ++ quoted long_summary ++ u ", "
  ++ quoted (u "important") ++ u ": true" ++ [RBRACE].

Definition answer_json : dict json :=
  [(u "summary", JStr long_summary); (u "important", JBool true)].

Definition sample_json_loads (text : str) : option (dict json) :=
  if str_eqb text answer_text then Some answer_json else None.

(** The model gives that answer to the first prompt. *)
Definition library_direct : Library :=
  {| url_netloc := sample_netloc;
     url_path := sample_path;
     sha1_hexdigest := fun s => s;
     seq_ratio := sample_ratio;
     post := fun c =>
       match c with
       | AnalyzeCall _ _ => Replied true (Response answer_text)
       | _ => PostRaised
       end;
     json_loads := sample_json_loads;
     extract_news_content := fun _ => [] |}.

(** The model answers the first prompt in prose, and gives that answer to
    the fallback prompt. *)
Definition library_fallback : Library :=
  {| url_netloc := sample_netloc;
     url_path := sample_path;
     sha1_hexdigest := fun s => s;
     seq_ratio := sample_ratio;
     post := fun c =>
       match c with
       | AnalyzeCall _ _ => Replied true (Response (u "I can not summarise this."))
       | ForceCall _ _ => Replied true (Response answer_text)
       | ValidateCall _ _ _ => PostRaised
       end;
     json_loads := sample_json_loads;
     extract_news_content := fun _ => [] |}.

Definition sample_clock : clock :=
  {| t_age := 200000; t_dup1 := 200001; t_dup2 := 200002; t_insert := 200003 |}.

Definition sample_entry (title link : str) : entry :=
  {| e_title := title; e_link := link;
     e_published_parsed := Some 190000; e_updated_parsed := None |}.

(** A title of 311 characters. *)
Definition long_title : str := u "Tax decree " ++ repeat 97%N 300.

(** A stored article. *)
Definition sample_row (id : Z) (title link topic : str) (published : Z) : news_row :=
  {| n_id := id;
     n_title := title;
     n_summary := title;
     n_full_text := [];
     n_link := link;
     n_topic := topic;
     n_published := published;
     n_fingerprint := sample_netloc link ++ u "|" ++ normalize_title tables title;
     n_important := 0;
     n_source := u "rss";
     n_real_source := sample_netloc link;
     n_fetched_at := published;
     n_normalized_title := Some (normalize_title tables title) |}.

Definition store (rows : list news_row) : database :=
  {| news := rows; news_seq := Z.of_nat (List.length rows); newsletter_stats := [] |}.

(** Three articles on the economy and one on politics. *)
Definition four_rows : list news_row :=
  [ sample_row 1 (u "Budget vote") (u "https://a.example/1") (u "economy") 10;
    sample_row 2 (u "Tax cut") (u "https://a.example/2") (u "economy") 30;
    sample_row 3 (u "Election day") (u "https://a.example/3") (u "politics") 5;
    sample_row 4 (u "Tax rise") (u "https://a.example/4") (u "economy") 20 ].

Definition first_worker : worker :=
  {| w_entry := sample_entry (u " Tax decree signed ") (u "https://news.example/a?x=1");
     w_source := u "rss";
     w_clock := sample_clock |}.

Definition second_worker : worker :=
  {| w_entry := sample_entry (u "Tax decree signed") (u "https://news.example/a?x=2");
     w_source := u "google";
     w_clock := {| t_age := 200010; t_dup1 := 200011; t_dup2 := 200012;
                   t_insert := 200013 |} |}.

End Sample.

(** * Properties *)

Lemma str_eqb_eq (a b : str) : str_eqb a b = true <-> a = b.
Proof.
  revert b; induction a as [|x a IH]; intros [|y b]; simpl; split; intro H;
    try reflexivity; try discriminate.
  - apply andb_true_iff in H as [Hx Hab].
    apply N.eqb_eq in Hx. apply IH in Hab. now subst.
  - injection H as -> ->. apply andb_true_iff; split.
    + apply N.eqb_refl.
    + now apply IH.
Qed.

Lemma str_eqb_refl (a : str) : str_eqb a a = true.
Proof. now apply str_eqb_eq. Qed.

Lemma str_eqb_neq (a b : str) : str_eqb a b = false <-> a <> b.
Proof.
  split.
  - intros H Heq. apply str_eqb_eq in Heq. congruence.
  - intro H. destruct (str_eqb a b) eqn:E; [|reflexivity].
    apply str_eqb_eq in E. contradiction.
Qed.

Section NormalizeTitle.

Variable U : Unicode.

Lemma sub_runs_in (cls : char -> bool) (repl : str) (s : str) :
  forall b c, In c (sub_runs cls repl b s) -> In c repl \/ (In c s /\ cls c = false).
Proof.
  induction s as [|x s IH]; simpl; intros b c H; [contradiction|].
  destruct (cls x) eqn:Ex.
  - apply in_app_or in H as [H|H].
    + destruct b; [contradiction | now left].
    + apply IH in H as [H|[H1 H2]]; [now left | right; split; [now right | exact H2]].
  - destruct H as [<-|H]; [right; split; [now left | exact Ex]|].
    apply IH in H as [H|[H1 H2]]; [now left | right; split; [now right | exact H2]].
Qed.

Lemma re_sub_char_in (cls : char -> bool) (s : str) (c : char) :
  In c (re_sub_char cls [] s) -> In c s /\ cls c = false.
Proof.
  unfold re_sub_char. intro H. apply in_flat_map in H as [x [Hx Hc]].
  destruct (cls x) eqn:Ex; [contradiction|].
  destruct Hc as [<-|[]]. now split.
Qed.

Lemma lstrip_suffix (s : str) : exists l, s = l ++ lstrip U s.
Proof.
  induction s as [|x s [l IH]]; simpl.
  - now exists [].
  - destruct (is_space U x).
    + exists (x :: l). simpl. now f_equal.
    + now exists [].
Qed.

Lemma rstrip_prefix (s : str) : exists r, s = rstrip U s ++ r.
Proof.
  unfold rstrip. destruct (lstrip_suffix (rev s)) as [l Hl].
  exists (rev l). rewrite <- rev_app_distr, <- Hl. now rewrite rev_involutive.
Qed.

Lemma strip_sub (s : str) : exists l r, s = l ++ strip U s ++ r.
Proof.
  unfold strip. destruct (lstrip_suffix s) as [l Hl].
  destruct (rstrip_prefix (lstrip U s)) as [r Hr].
  exists l, r. now rewrite <- Hr.
Qed.

Lemma strip_in (s : str) (c : char) : In c (strip U s) -> In c s.
Proof.
  destruct (strip_sub s) as [l [r H]]. intro Hc. rewrite H.
  apply in_or_app; right. apply in_or_app; now left.
Qed.

Lemma lstrip_head (s : str) :
  match lstrip U s with
  | [] => True
  | c :: _ => is_space U c = false
  end.
Proof.
  induction s as [|x s IH]; simpl; [exact I|].
  destruct (is_space U x) eqn:Ex; [exact IH | exact Ex].
Qed.

Lemma lstrip_fixed (s : str) :
  match s with [] => True | c :: _ => is_space U c = false end -> lstrip U s = s.
Proof. destruct s as [|c s]; simpl; [reflexivity|]. now intros ->. Qed.

Lemma lstrip_idem (s : str) : lstrip U (lstrip U s) = lstrip U s.
Proof. apply lstrip_fixed, lstrip_head. Qed.

Lemma rstrip_idem (s : str) : rstrip U (rstrip U s) = rstrip U s.
Proof. unfold rstrip. now rewrite rev_involutive, lstrip_idem. Qed.

Lemma lstrip_snoc (x : str) (c : char) :
  is_space U c = false -> exists y, lstrip U (x ++ [c]) = y ++ [c].
Proof.
  intro Hc. induction x as [|a x [y IH]]; simpl.
  - rewrite Hc. now exists [].
  - destruct (is_space U a); [now exists y | now exists (a :: x)].
Qed.

Lemma lstrip_rstrip (s : str) :
  match s with [] => True | c :: _ => is_space U c = false end ->
  lstrip U (rstrip U s) = rstrip U s.
Proof.
  destruct s as [|c s]; [reflexivity|]. intro Hc.
  unfold rstrip. simpl rev.
  destruct (lstrip_snoc (rev s) c Hc) as [y ->].
  rewrite rev_app_distr. simpl. now rewrite Hc.
Qed.

Lemma strip_idem (s : str) : strip U (strip U s) = strip U s.
Proof.
  unfold strip. rewrite (lstrip_rstrip (lstrip U s) (lstrip_head s)).
  apply rstrip_idem.
Qed.

(** Neighbours, by recursion on the text. *)
Fixpoint no_adj (s : str) : Prop :=
  match s with
  | [] => True
  | c :: s' =>
      (is_space U c = true ->
       match s' with [] => True | d :: _ => is_space U d = false end)
      /\ no_adj s'
  end.

Lemma no_adj_run (s : str) : no_adj s -> no_space_run U s.
Proof.
  intros H l. revert s H. induction l as [|x l IH]; intros s H c d r ->.
  - simpl in H. tauto.
  - simpl in H. destruct H as [_ H]. exact (IH _ H c d r eq_refl).
Qed.

Lemma collapse_no_adj (s : str) :
  forall b,
    no_adj (sub_runs (is_space U) [SPACE] b s) /\
    (b = true ->
     match sub_runs (is_space U) [SPACE] b s with
     | [] => True
     | d :: _ => is_space U d = false
     end).
Proof.
  induction s as [|x s IH]; intro b; simpl; [tauto|].
  destruct (is_space U x) eqn:Ex.
  - destruct (IH true) as [IH1 IH2]. destruct b; simpl.
    + split; [exact IH1 | intros _; now apply IH2].
    + split; [split; [intros _; now apply IH2 | exact IH1] | discriminate].
  - destruct (IH false) as [IH1 _]. split.
    + split; [rewrite Ex; discriminate | exact IH1].
    + now intros _.
Qed.

Lemma no_space_run_sub (l y r : str) : no_space_run U (l ++ y ++ r) -> no_space_run U y.
Proof.
  intros H l' c d r' ->. apply (H (l ++ l') c d (r' ++ r)).
  now rewrite <- !app_assoc.
Qed.

Hypothesis HU : UnicodeLaws U.

(** C8: for every title, the empty one too, normalize_title leaves no digit
    and nothing but word characters and white space, no two white-space
    characters in a row; the result is lower case and trimmed, and the empty
    title gives the empty string. *)
Theorem normalize_title_canonical (t : str) :
  let r := normalize_title U t in
  (forall c, In c r -> is_digit U c = false) /\
  (forall c, In c r -> is_word U c = true \/ is_space U c = true) /\
  no_space_run U r /\
  str_lower U r = r /\
  strip U r = r /\
  normalize_title U [] = [].
Proof.
  destruct HU as [Hsp Hnd Hlsp Hst Hfix]. simpl.
  destruct t as [|x t].
  { simpl. repeat split; try contradiction; try reflexivity.
    - intros l c d r H. now destruct l.
    - now apply Hfix. }
  unfold normalize_title.
  set (t0 := str_lower U (x :: t)).
  set (t1 := re_sub_plus (is_digit U) [] t0).
  set (t2 := re_sub_char (fun c => negb (is_word U c || is_space U c)) [] t1).
  set (t3 := re_sub_plus (is_space U) [SPACE] t2).
  assert (Hin : forall c, In c (strip U t3) ->
                          c = SPACE \/ (In c t0 /\ is_digit U c = false
                                        /\ is_word U c = true /\ is_space U c = false)).
  { intros c Hc. apply strip_in in Hc. unfold t3, re_sub_plus in Hc.
    apply sub_runs_in in Hc as [[<-|[]]|[Hc Hs]]; [now left|right].
    unfold t2 in Hc. apply re_sub_char_in in Hc as [Hc Hw].
    unfold t1, re_sub_plus in Hc. apply sub_runs_in in Hc as [[]|[Hc Hd]].
    apply negb_false_iff in Hw. rewrite Hs, orb_false_r in Hw. auto. }
  repeat split.
  - intros c Hc. apply Hin in Hc as [->|[_ [Hd _]]]; [exact Hnd | exact Hd].
  - intros c Hc. apply Hin in Hc as [->|[_ [_ [Hw _]]]]; [now right | now left].
  - destruct (strip_sub t3) as [l [r Hlr]].
    apply (no_space_run_sub l _ r). rewrite <- Hlr.
    apply no_adj_run, (collapse_no_adj t2 false).
  - apply Hfix. intros c Hc. apply Hin in Hc as [->|[Hc _]].
    + exact Hlsp.
    + exact (Hst _ _ Hc).
  - apply strip_idem.
Qed.

End NormalizeTitle.

(** ** The scoring stage *)

(** The dictionary that gives every key [k] the score [f k]. *)
Definition scores_of (f : str -> Z) (keys : list str) : dict Z :=
  map (fun k => (k, f k)) keys.

(** [f] with [n] more at the key [k0]. *)
Definition upd (f : str -> Z) (k0 : str) (n : Z) : str -> Z :=
  fun k => f k + (if str_eqb k k0 then n else 0).

Lemma scores_of_ext (f g : str -> Z) (keys : list str) :
  (forall k, In k keys -> f k = g k) -> scores_of f keys = scores_of g keys.
Proof.
  intro H. apply map_ext_in. intros k Hk. now rewrite (H k Hk).
Qed.

Lemma scores_of_keys (f : str -> Z) (keys : list str) :
  map fst (scores_of f keys) = keys.
Proof.
  unfold scores_of. rewrite map_map. simpl. apply map_id.
Qed.

Lemma scores_of_get (f : str -> Z) (keys : list str) (k : str) :
  In k keys -> dict_get (scores_of f keys) k = Some (f k).
Proof.
  induction keys as [|a keys IH]; simpl; [contradiction|].
  intros [->|H].
  - now rewrite str_eqb_refl.
  - destruct (str_eqb a k) eqn:E; [apply str_eqb_eq in E; now subst | now apply IH].
Qed.

Lemma scores_of_in (f : str -> Z) (keys : list str) (k : str) (v : Z) :
  In (k, v) (scores_of f keys) <-> In k keys /\ v = f k.
Proof.
  unfold scores_of. rewrite in_map_iff. split.
  - intros [x [Hx Hin]]. injection Hx as -> ->. now split.
  - intros [Hin ->]. now exists k.
Qed.

Lemma upd_zero (f : str -> Z) (k0 : str) (keys : list str) :
  scores_of (upd f k0 0) keys = scores_of f keys.
Proof.
  apply scores_of_ext. intros k _. unfold upd. destruct (str_eqb k k0); lia.
Qed.

Lemma dict_add_scores_of (f : str -> Z) (keys : list str) (k : str) (n : Z) :
  NoDup keys -> In k keys ->
  dict_add (scores_of f keys) k n = Ok (scores_of (upd f k n) keys).
Proof.
  induction keys as [|a keys IH]; simpl; intros Hnd Hin; [contradiction|].
  inversion Hnd as [|? ? Ha Hnd']; subst.
  destruct (str_eqb a k) eqn:E.
  - apply str_eqb_eq in E; subst a.
    assert (Hk : upd f k n k = f k + n) by (unfold upd; now rewrite str_eqb_refl).
    rewrite Hk. rewrite (scores_of_ext f (upd f k n) keys); [reflexivity|].
    intros k' Hk'. unfold upd.
    destruct (str_eqb k' k) eqn:E'; [|lia].
    apply str_eqb_eq in E'; subst. contradiction.
  - destruct Hin as [->|Hin]; [now rewrite str_eqb_refl in E|].
    fold (scores_of f keys). rewrite (IH Hnd' Hin). simpl.
    assert (Ha' : upd f k n a = f a) by (unfold upd; rewrite E; lia).
    now rewrite Ha'.
Qed.

(** A loop whose every round adds [d x] at the key [key x]. *)
Lemma fold_adds {X : Type} (stp : result (dict Z) -> X -> result (dict Z))
  (key : X -> str) (d : X -> Z) (keys : list str) (xs : list X) :
  (forall x f, In x xs ->
     stp (Ok (scores_of f keys)) x = Ok (scores_of (upd f (key x) (d x)) keys)) ->
  forall f,
    fold_left stp xs (Ok (scores_of f keys)) =
    Ok (scores_of
          (fun k => f k + Zsum (map (fun x => if str_eqb k (key x) then d x else 0) xs))
          keys).
Proof.
  induction xs as [|x xs IH]; intros Hstp f; simpl.
  - f_equal. apply scores_of_ext. intros; lia.
  - rewrite Hstp by now left. rewrite IH by (intros; apply Hstp; now right).
    f_equal. apply scores_of_ext. intros k _. unfold upd. lia.
Qed.

Lemma Zsum_same_key {X : Type} (d : X -> Z) (k k0 : str) (xs : list X) :
  Zsum (map (fun x => if str_eqb k k0 then d x else 0) xs) =
  if str_eqb k k0 then Zsum (map d xs) else 0.
Proof.
  induction xs as [|x xs IH]; simpl.
  - now destruct (str_eqb k k0).
  - rewrite IH. now destruct (str_eqb k k0).
Qed.

Lemma Zsum_count {X : Type} (p : X -> bool) (c : Z) (xs : list X) :
  Zsum (map (fun x => if p x then c else 0) xs) =
  c * Z.of_nat (List.length (filter p xs)).
Proof.
  induction xs as [|x xs IH]; simpl; [lia|].
  rewrite IH. destruct (p x); simpl List.length; lia.
Qed.

Lemma Zsum_unique_key {V : Type} (d : str * V -> Z) (l : dict V) (k : str) (v : V) :
  NoDup (map fst l) -> In (k, v) l ->
  Zsum (map (fun kv => if str_eqb k (fst kv) then d kv else 0) l) = d (k, v).
Proof.
  induction l as [|[a w] l IH]; simpl; intros Hnd Hin; [contradiction|].
  inversion Hnd as [|? ? Ha Hnd']; subst.
  destruct Hin as [Heq|Hin].
  - injection Heq as -> ->. rewrite str_eqb_refl.
    assert (Hz : Zsum (map (fun kv => if str_eqb k (fst kv) then d kv else 0) l) = 0).
    { clear IH Hnd Hnd'. induction l as [|[b x] l IHl]; simpl; [reflexivity|].
      simpl in Ha. destruct (str_eqb k b) eqn:E.
      - apply str_eqb_eq in E. subst. tauto.
      - rewrite IHl; [lia | tauto]. }
    rewrite Hz. lia.
  - destruct (str_eqb k a) eqn:E.
    + apply str_eqb_eq in E; subst a. exfalso. apply Ha.
      apply in_map_iff. now exists (k, v).
    + now rewrite (IH Hnd' Hin).
Qed.

(** ** Substrings and whole words *)

Lemma startswith_prefix (p s : str) :
  startswith p s = true <-> exists rest, s = p ++ rest.
Proof.
  revert s. induction p as [|x p IH]; intros s; cbn [startswith].
  - split; [intros _; now exists s | reflexivity].
  - destruct s as [|y s].
    + split; [discriminate | intros [rest H]; discriminate].
    + rewrite andb_true_iff, N.eqb_eq, IH. split.
      * intros [-> [rest ->]]. now exists rest.
      * intros [rest H]. injection H as -> ->. split; [reflexivity | now exists rest].
Qed.

(** [sub in s] holds exactly when [sub] appears in [s]. *)
Lemma contains_appears (sub s : str) : contains sub s = true <-> appears_in sub s.
Proof.
  unfold appears_in. induction s as [|c s IH]; cbn [contains].
  - rewrite orb_false_r, startswith_prefix. split.
    + intros [rest H]. exists [], rest. exact H.
    + intros [[|x b] [a H]]; [now exists a | discriminate].
  - rewrite orb_true_iff, startswith_prefix, IH. split.
    + intros [[rest H]|[b [a H]]].
      * exists [], rest. exact H.
      * exists (c :: b), a. now rewrite H.
    + intros [[|x b] [a H]].
      * left. now exists a.
      * right. injection H as -> ->. now exists b, a.
Qed.

Lemma any_in_appears (terms : list str) (s : str) :
  any_in terms s = true <-> exists term, In term terms /\ appears_in term s.
Proof.
  unfold any_in. rewrite existsb_exists. split.
  - intros [k [Hk H]]. exists k. split; [exact Hk | now apply contains_appears].
  - intros [k [Hk H]]. exists k. split; [exact Hk | now apply contains_appears].
Qed.

Section WholeWords.

Variable U : Unicode.

Lemma ends_in_word_last (before : str) :
  opt_word U (hd_error (rev before)) = true <-> ends_in_word U before.
Proof.
  unfold ends_in_word. split.
  - destruct (rev before) as [|c l] eqn:E; cbn [hd_error opt_word]; [discriminate|].
    intro H. exists (rev l), c. split; [|exact H].
    rewrite <- (rev_involutive before), E. reflexivity.
  - intros [l [c [-> H]]]. rewrite rev_app_distr. exact H.
Qed.

Lemma starts_with_word_head (after : str) :
  opt_word U (hd_error after) = true <-> starts_with_word U after.
Proof.
  unfold starts_with_word. split.
  - destruct after as [|c r]; cbn [hd_error opt_word]; [discriminate|].
    intro H. now exists c, r.
  - intros [c [r [-> H]]]. exact H.
Qed.

(** The test of the regular expression's [\b] is the word boundary of the
    specification. *)
Lemma boundary_word_boundary (before after : str) :
  boundary U (hd_error (rev before)) (hd_error after) = true
  <-> word_boundary U before after.
Proof.
  unfold boundary, word_boundary.
  rewrite <- ends_in_word_last, <- starts_with_word_head.
  destruct (opt_word U (hd_error (rev before))), (opt_word U (hd_error after));
    cbn [Bool.eqb negb]; split; intro H; try reflexivity; try discriminate.
  - destruct H as [[_ H]|[H _]]; now exfalso.
  - left. split; [reflexivity | discriminate].
  - right. split; [discriminate | reflexivity].
  - destruct H as [[H _]|[_ H]]; discriminate.
Qed.

Lemma last_or_rev (ctx word : str) :
  last_or (hd_error (rev ctx)) word = hd_error (rev (ctx ++ word)).
Proof.
  unfold last_or. rewrite rev_app_distr. now destruct (rev word).
Qed.

Lemma skipn_word (word after : str) : skipn (List.length word) (word ++ after) = after.
Proof. induction word as [|x word IH]; [reflexivity | exact IH]. Qed.

Lemma match_here_word (word ctx s : str) :
  match_here U word (hd_error (rev ctx)) s = true
  <-> exists after,
        s = word ++ after
        /\ word_boundary U ctx (word ++ after)
        /\ word_boundary U (ctx ++ word) after.
Proof.
  unfold match_here. rewrite !andb_true_iff, startswith_prefix. split.
  - intros [[[after ->] H1] H2]. exists after. split; [reflexivity|].
    rewrite skipn_word, last_or_rev in H2.
    split; now apply boundary_word_boundary.
  - intros [after [-> [H1 H2]]]. rewrite skipn_word, last_or_rev.
    split; [split; [now exists after|]|]; now apply boundary_word_boundary.
Qed.

Lemma search_from_word (word s : str) :
  forall ctx,
    search_from U word (hd_error (rev ctx)) s = true
    <-> exists before after,
          s = before ++ word ++ after
          /\ word_boundary U (ctx ++ before) (word ++ after)
          /\ word_boundary U (ctx ++ before ++ word) after.
Proof.
  induction s as [|c s IH]; intro ctx; cbn [search_from].
  - rewrite orb_false_r, match_here_word. split.
    + intros [after [H [H1 H2]]]. exists [], after. now rewrite app_nil_r.
    + intros [[|x b] [after [H [H1 H2]]]]; [|discriminate].
      exists after. rewrite app_nil_r in H1. now split.
  - rewrite orb_true_iff, match_here_word.
    assert (Hc : Some c = hd_error (rev (ctx ++ [c]))) by now rewrite rev_app_distr.
    rewrite Hc, IH. split.
    + intros [[after [H [H1 H2]]]|[b [after [H [H1 H2]]]]].
      * exists [], after. now rewrite app_nil_r.
      * exists (c :: b), after. rewrite H. split; [reflexivity|].
        rewrite <- !app_assoc in H1, H2. now split.
    + intros [[|x b] [after [H [H1 H2]]]].
      * left. exists after. rewrite app_nil_r in H1. now split.
      * right. injection H as -> ->. exists b, after. split; [reflexivity|].
        rewrite <- !app_assoc. now split.
Qed.

(** detect_topic's word_in_text finds a word exactly where the specification
    has a whole-word match. *)
Lemma word_in_text_whole_word (word s : str) :
  word_in_text U word s = true <-> whole_word_in U word s.
Proof. exact (search_from_word word s []). Qed.

End WholeWords.

Section Scoring.

Variable U : Unicode.
Variable L : Library.
Variable cfg : Config.

Let keys : list str := map fst (TOPICS cfg).

Hypothesis Hcfg : config_ok cfg.

Lemma keys_nodup : NoDup keys.
Proof. exact (proj1 Hcfg). Qed.

Lemma entity_step_adds (text : str) (et : str * str) (f : str -> Z) :
  In et (ENTITY_TOPIC cfg) ->
  entity_step text (Ok (scores_of f keys)) et =
  Ok (scores_of (upd f (snd et) (if contains (fst et) text then 3 else 0)) keys).
Proof.
  intro Hin. unfold entity_step. simpl. destruct (contains (fst et) text).
  - apply dict_add_scores_of; [exact keys_nodup|].
    destruct et as [e t]. exact (proj2 Hcfg e t Hin).
  - now rewrite upd_zero.
Qed.

Lemma keyword_step_adds (title_lower text tid kw : str) (f : str -> Z) :
  In tid keys ->
  keyword_step U title_lower text tid (Ok (scores_of f keys)) kw =
  Ok (scores_of (upd f tid (keyword_points U title_lower text kw)) keys).
Proof.
  intro Hin. unfold keyword_step, keyword_points. simpl.
  destruct (word_in_text U (str_lower U kw) title_lower).
  - now apply dict_add_scores_of; [exact keys_nodup|].
  - destruct (word_in_text U (str_lower U kw) text).
    + now apply dict_add_scores_of; [exact keys_nodup|].
    + now rewrite upd_zero.
Qed.

Lemma topic_step_adds (title_lower text : str) (kv : str * topic_data) (f : str -> Z) :
  In kv (TOPICS cfg) ->
  topic_step U title_lower text (Ok (scores_of f keys)) kv =
  Ok (scores_of (upd f (fst kv) (keywords_points U title_lower text (snd kv))) keys).
Proof.
  intro Hin. unfold topic_step, keywords_points. simpl.
  destruct (any_in (td_exclude (snd kv)) text); [now rewrite upd_zero|].
  rewrite (fold_adds _ (fun _ => fst kv) (keyword_points U title_lower text)).
  - f_equal. apply scores_of_ext. intros k _. unfold upd.
    now rewrite (Zsum_same_key (keyword_points U title_lower text) k (fst kv)).
  - intros kw g _. apply keyword_step_adds. now apply in_map.
Qed.

Lemma negative_step_adds (text tid neg : str) (f : str -> Z) :
  In tid keys ->
  negative_step text tid (Ok (scores_of f keys)) neg =
  Ok (scores_of (upd f tid (if contains neg text then -2 else 0)) keys).
Proof.
  intro Hin. unfold negative_step. simpl. destruct (contains neg text).
  - now apply dict_add_scores_of; [exact keys_nodup|].
  - now rewrite upd_zero.
Qed.

Lemma penalty_step_adds (text tid : str) (f : str -> Z) :
  In tid keys ->
  penalty_step cfg text (Ok (scores_of f keys)) tid =
  Ok (scores_of (upd f tid (- negative_points cfg text tid)) keys).
Proof.
  intro Hin. unfold penalty_step, negative_points. cbn [bind].
  destruct (str_eqb tid (u "politics")); [|now rewrite upd_zero].
  rewrite (fold_adds _ (fun _ => tid) (fun neg => if contains neg text then -2 else 0)).
  - f_equal. apply scores_of_ext. intros k _. unfold upd.
    rewrite (Zsum_same_key (fun neg => if contains neg text then -2 else 0) k tid).
    rewrite (Zsum_count (fun neg => contains neg text) (-2)).
    destruct (str_eqb k tid); lia.
  - intros neg g _. now apply negative_step_adds.
Qed.

(** The scores the three loops leave, as one function of the topic. *)
Definition total_score (title content k : str) : Z :=
  let text := str_lower U (title ++ SPACE :: content) in
  let title_lower := str_lower U title in
  0 + Zsum (map (fun et => if str_eqb k (snd et)
                           then (if contains (fst et) text then 3 else 0) else 0)
                (ENTITY_TOPIC cfg))
    + Zsum (map (fun kv => if str_eqb k (fst kv)
                           then keywords_points U title_lower text (snd kv) else 0)
                (TOPICS cfg))
    + Zsum (map (fun tid => if str_eqb k tid then - negative_points cfg text tid else 0) keys).

Lemma init_scores_of : init_scores cfg = scores_of (fun _ => 0) keys.
Proof. unfold init_scores, scores_of, keys. now rewrite map_map. Qed.

Lemma scoring_total (title content : str) :
  scoring U cfg title content = Ok (scores_of (total_score title content) keys).
Proof.
  unfold scoring, score_entities, score_keywords, apply_penalties.
  rewrite init_scores_of.
  rewrite (fold_adds _ snd (fun et => if contains (fst et) _ then 3 else 0))
    by (intros; now apply entity_step_adds).
  cbn [bind].
  rewrite (fold_adds _ fst (fun kv => keywords_points U _ _ (snd kv)))
    by (intros; now apply topic_step_adds).
  cbn [bind]. rewrite scores_of_keys.
  rewrite (fold_adds _ (fun tid => tid) (fun tid => - negative_points cfg _ tid))
    by (intros; now apply penalty_step_adds).
  reflexivity.
Qed.

Lemma total_score_spec (title content tid : str) (td : topic_data) :
  In (tid, td) (TOPICS cfg) ->
  total_score title content tid = spec_score U cfg title content tid td.
Proof.
  intro Hin. unfold total_score, spec_score, entity_points. cbv zeta.
  rewrite (Zsum_unique_key (fun kv => keywords_points U _ _ (snd kv)) _ tid td
             keys_nodup Hin).
  assert (Hk : In (tid, tt) (map (fun k => (k, tt)) keys)).
  { apply in_map_iff. exists tid. split; [reflexivity|].
    apply in_map_iff. now exists (tid, td). }
  assert (Hp :
    Zsum (map (fun t => if str_eqb tid t then - negative_points cfg
                          (str_lower U (title ++ SPACE :: content)) t else 0) keys)
    = - negative_points cfg (str_lower U (title ++ SPACE :: content)) tid).
  { pose proof (Zsum_unique_key
                  (fun kv : str * unit => - negative_points cfg
                     (str_lower U (title ++ SPACE :: content)) (fst kv))
                  (map (fun k => (k, tt)) keys) tid tt) as Hu.
    rewrite !map_map in Hu. simpl in Hu. rewrite map_id in Hu.
    apply Hu; [exact keys_nodup | exact Hk]. }
  rewrite Hp.
  rewrite <- (Zsum_count
                (fun et => str_eqb tid (snd et)
                           && contains (fst et) (str_lower U (title ++ SPACE :: content))) 3).
  simpl.
  replace (Zsum (map (fun et : str * str =>
                   if str_eqb tid (snd et)
                   then if contains (fst et) (str_lower U (title ++ SPACE :: content))
                        then 3 else 0
                   else 0) (ENTITY_TOPIC cfg)))
    with (Zsum (map (fun et : str * str =>
                   if str_eqb tid (snd et)
                      && contains (fst et) (str_lower U (title ++ SPACE :: content))
                   then 3 else 0) (ENTITY_TOPIC cfg))).
  - lia.
  - f_equal. apply map_ext. intro et. now destruct (str_eqb tid (snd et)).
Qed.

(** C4: for every title and content the scoring stage gives each topic the
    score the specification describes: 3 for each of its entities that
    appears in the lowered text; nothing for its keywords when one of its
    exclude terms appears in the text; otherwise, for each keyword, 2 when it
    is in the title as a whole word (a word boundary on either side, not a
    part of a longer word), else 1 when it is so in the text, never both;
    for politics, 2 less for each negative term that appears in the text. *)
Theorem scoring_matches_spec (title content : str) :
  let text := str_lower U (title ++ SPACE :: content) in
  let title_lower := str_lower U title in
  (exists scores,
     scoring U cfg title content = Ok scores /\
     map fst scores = map fst (TOPICS cfg) /\
     forall tid td, In (tid, td) (TOPICS cfg) ->
       dict_get scores tid = Some (spec_score U cfg title content tid td))
  /\ (forall td,
        (exists term, In term (td_exclude td) /\ appears_in term text) ->
        keywords_points U title_lower text td = 0)
  /\ (forall td,
        ~ (exists term, In term (td_exclude td) /\ appears_in term text) ->
        keywords_points U title_lower text td
        = Zsum (map (keyword_points U title_lower text) (td_keywords td)))
  /\ (forall kw,
        whole_word_in U (str_lower U kw) title_lower ->
        keyword_points U title_lower text kw = 2)
  /\ (forall kw,
        ~ whole_word_in U (str_lower U kw) title_lower ->
        whole_word_in U (str_lower U kw) text ->
        keyword_points U title_lower text kw = 1)
  /\ (forall kw,
        ~ whole_word_in U (str_lower U kw) title_lower ->
        ~ whole_word_in U (str_lower U kw) text ->
        keyword_points U title_lower text kw = 0)
  /\ (forall sub s, contains sub s = true <-> appears_in sub s).
Proof.
  intros text title_lower.
  split; [|split; [|split; [|split; [|split; [|split]]]]].
  - exists (scores_of (total_score title content) keys).
    split; [apply scoring_total|]. split; [apply scores_of_keys|].
    intros tid td Hin. rewrite scores_of_get.
    + now rewrite (total_score_spec title content tid td Hin).
    + apply in_map_iff. now exists (tid, td).
  - intros td H. unfold keywords_points.
    now rewrite (proj2 (any_in_appears (td_exclude td) text) H).
  - intros td H. unfold keywords_points.
    destruct (any_in (td_exclude td) text) eqn:E; [|reflexivity].
    exfalso. apply H. now apply any_in_appears.
  - intros kw H. unfold keyword_points.
    now rewrite (proj2 (word_in_text_whole_word U _ _) H).
  - intros kw Hn H. unfold keyword_points.
    destruct (word_in_text U (str_lower U kw) title_lower) eqn:E.
    + exfalso. apply Hn. now apply word_in_text_whole_word.
    + now rewrite (proj2 (word_in_text_whole_word U _ _) H).
  - intros kw Hn Hn'. unfold keyword_points.
    destruct (word_in_text U (str_lower U kw) title_lower) eqn:E.
    + exfalso. apply Hn. now apply word_in_text_whole_word.
    + destruct (word_in_text U (str_lower U kw) text) eqn:E'; [|reflexivity].
      exfalso. apply Hn'. now apply word_in_text_whole_word.
  - apply contains_appears.
Qed.

End Scoring.

(** ** The decision stages of detect_topic *)

Lemma insert_desc_in (x y : str * Z) (l : list (str * Z)) :
  In y (insert_desc x l) <-> y = x \/ In y l.
Proof.
  induction l as [|z l IH]; simpl.
  - split; [intros [H|[]]; now left | intros [H|[]]; now left].
  - destruct (snd z <=? snd x); simpl.
    + split; [intros [H|H]; [now left | now right] | intros [H|H]; [now left | now right]].
    + rewrite IH. split; intros H; tauto.
Qed.

Lemma sort_desc_in (y : str * Z) (l : list (str * Z)) :
  In y (sort_desc l) <-> In y l.
Proof.
  induction l as [|x l IH]; simpl; [tauto|].
  rewrite insert_desc_in, IH. split; intros [H|H]; auto.
Qed.

Lemma firstn_in {A : Type} (n : nat) (l : list A) (x : A) : In x (firstn n l) -> In x l.
Proof.
  revert l; induction n as [|n IH]; intros [|a l]; simpl; try tauto.
  intros [H|H]; [now left | right; now apply IH].
Qed.

Section Decision.

Variable U : Unicode.
Variable L : Library.
Variable cfg : Config.

Lemma validate_topic_total (title content topic_name : str) :
  exists b, validate_topic U L title content topic_name = Ok b.
Proof.
  unfold validate_topic.
  destruct (post L _) as [|ok [| |raw]]; simpl; eauto.
Qed.

Lemma validate_topic_failed (title content topic_name : str) :
  call_failed (post L (ValidateCall title (firstn 1500 content) topic_name)) = true ->
  validate_topic U L title content topic_name = Ok true.
Proof.
  unfold validate_topic.
  destruct (post L _) as [|ok [| |raw]]; simpl; intro H; try reflexivity; discriminate.
Qed.

Lemma dict_item_in {V : Type} (d : dict V) (k : str) :
  In k (map fst d) -> exists v, dict_item d k = Ok v.
Proof.
  unfold dict_item. induction d as [|[a v] d IH]; simpl; [contradiction|].
  intros [->|H].
  - rewrite str_eqb_refl. eauto.
  - destruct (str_eqb a k); eauto.
Qed.

Lemma llm_stage_total (title content : str) (cands : list (str * Z)) :
  (forall c, In c cands -> In (fst c) (map fst (TOPICS cfg))) ->
  llm_stage U L cfg title content cands = Ok None \/
  exists c, In c cands /\ llm_stage U L cfg title content cands = Ok (Some (fst c)).
Proof.
  unfold llm_stage.
  induction cands as [|[tid s] rest IH]; intro Hk; cbn [llm_stage_with]; [now left|].
  destruct (dict_item_in (TOPICS cfg) tid (Hk (tid, s) (or_introl eq_refl))) as [td ->].
  cbn [bind].
  destruct (validate_topic_total title (firstn 1200 content) (topic_name_of td)) as [b ->].
  destruct b.
  - right. exists (tid, s). split; [now left | reflexivity].
  - destruct IH as [IH|[c [Hc IH]]].
    + intros c Hc. apply Hk. now right.
    + now left.
    + right. exists c. split; [now right | exact IH].
Qed.

(** C1, as the code has it: a call to the model that fails while a candidate
    is queried makes validate_topic answer True, so that candidate is the
    one returned, whatever the later candidates would have got; only an
    exception that leaves the validating call makes the loop go on to the
    next candidate. *)
Theorem failed_validation_accepts (title content tid : str) (score : Z)
  (rest : list (str * Z)) (td : topic_data) :
  dict_get (TOPICS cfg) tid = Some td ->
  call_failed (post L (ValidateCall title (firstn 1500 (firstn 1200 content))
                                    (topic_name_of td))) = true ->
  validate_topic U L title (firstn 1200 content) (topic_name_of td) = Ok true /\
  llm_stage U L cfg title content ((tid, score) :: rest) = Ok (Some tid) /\
  forall validate e,
    validate title (firstn 1200 content) (topic_name_of td) = Raise e ->
    llm_stage_with cfg validate title content ((tid, score) :: rest) =
    llm_stage_with cfg validate title content rest.
Proof.
  intros Htd Hfail.
  pose proof (validate_topic_failed title (firstn 1200 content) (topic_name_of td) Hfail)
    as Hv.
  split; [exact Hv|]. split.
  - unfold llm_stage. cbn [llm_stage_with]. unfold dict_item. rewrite Htd.
    cbn [bind]. now rewrite Hv.
  - intros validate e He. cbn [llm_stage_with]. unfold dict_item. rewrite Htd.
    cbn [bind]. now rewrite He.
Qed.

Hypothesis Hcfg : config_ok cfg.

Lemma detect_topic_candidate (title content : str) (scores : dict Z)
  (c : str * Z) (cs : list (str * Z)) :
  STRICT_BELARUS_ONLY cfg
    && is_wrong_region U cfg (str_lower U (title ++ SPACE :: content)) = false ->
  scoring U cfg title content = Ok scores ->
  map fst scores = map fst (TOPICS cfg) ->
  filter (fun ts => 2 <=? snd ts) scores = c :: cs ->
  exists tid, detect_topic U L cfg title content = Ok (Some tid)
              /\ In tid (map fst (TOPICS cfg)).
Proof.
  intros Hgate Hsc Hkeys Hf. unfold detect_topic. rewrite Hgate, Hsc. cbn [bind].
  rewrite Hf.
  assert (Hcand : forall x, In x (sort_desc (c :: cs)) -> In (fst x) (map fst (TOPICS cfg))).
  { intros x Hx. apply (proj1 (sort_desc_in _ _)) in Hx. rewrite <- Hf in Hx.
    apply filter_In in Hx as [Hx _]. rewrite <- Hkeys. now apply in_map. }
  destruct (sort_desc (c :: cs)) as [|[best top] sorted] eqn:Es.
  { exfalso. assert (Hc : In c (sort_desc (c :: cs))) by (apply sort_desc_in; now left).
    now rewrite Es in Hc. }
  assert (Hbest : In best (map fst (TOPICS cfg))) by exact (Hcand (best, top) (or_introl eq_refl)).
  destruct (HIGH_CONFIDENCE_THRESHOLD cfg <=? top); [now exists best|].
  destruct (llm_stage_total title content (firstn 2 ((best, top) :: sorted)))
    as [Hn|[x [Hx Hs]]].
  - intros x Hx. apply Hcand. now apply firstn_in in Hx.
  - rewrite Hn. cbn [bind]. destruct (dict_item_in (TOPICS cfg) best Hbest) as [td ->].
    now exists best.
  - rewrite Hs. cbn [bind]. exists (fst x). split; [reflexivity|].
    apply Hcand. now apply firstn_in in Hx.
Qed.

(** C3: detect_topic returns none exactly when the strict-region gate rejects
    the text or no topic scores 2 or more; as soon as the gate lets the text
    through and some topic scores 2 or more, it returns a topic of the
    configuration, whatever the model answers. *)
Theorem detect_topic_none_iff (title content : str) :
  let gate := STRICT_BELARUS_ONLY cfg
              && is_wrong_region U cfg (str_lower U (title ++ SPACE :: content)) in
  exists scores,
    scoring U cfg title content = Ok scores /\
    (detect_topic U L cfg title content = Ok None <->
     gate = true \/ forall tid s, In (tid, s) scores -> s < 2) /\
    (gate = false ->
     (exists tid s, In (tid, s) scores /\ 2 <= s) ->
     exists tid, detect_topic U L cfg title content = Ok (Some tid)
                 /\ In tid (map fst (TOPICS cfg))).
Proof.
  cbv zeta.
  pose proof (scoring_total U cfg Hcfg title content) as Hsc.
  pose proof (scores_of_keys (total_score U cfg title content) (map fst (TOPICS cfg)))
    as Hkeys.
  revert Hsc Hkeys.
  generalize (scores_of (total_score U cfg title content) (map fst (TOPICS cfg))).
  intros scores Hsc Hkeys.
  exists scores. split; [exact Hsc|].
  destruct (STRICT_BELARUS_ONLY cfg
            && is_wrong_region U cfg (str_lower U (title ++ SPACE :: content))) eqn:Hgate.
  { split; [|discriminate].
    unfold detect_topic. rewrite Hgate. split; [now left | reflexivity]. }
  destruct (filter (fun ts => 2 <=? snd ts) scores) as [|c cs] eqn:Hf.
  - assert (Hlow : forall tid s, In (tid, s) scores -> s < 2).
    { intros tid s Hin. destruct (2 <=? s) eqn:E; [|now apply Z.leb_gt].
      assert (Hx : In (tid, s) (filter (fun ts => 2 <=? snd ts) scores))
        by (apply filter_In; now split).
      now rewrite Hf in Hx. }
    split.
    + unfold detect_topic. rewrite Hgate, Hsc. cbn [bind]. rewrite Hf.
      split; [now right | reflexivity].
    + intros _ [tid [s [Hin Hs]]]. specialize (Hlow tid s Hin). lia.
  - destruct (detect_topic_candidate title content scores c cs Hgate Hsc Hkeys Hf)
      as [tid [Hd Hin]].
    split.
    + rewrite Hd. split; [discriminate|].
      intros [H|H]; [discriminate|].
      assert (Hc : In c (filter (fun ts => 2 <=? snd ts) scores))
        by (rewrite Hf; now left).
      apply filter_In in Hc as [Hc Hs]. destruct c as [t s].
      specialize (H t s Hc). simpl in Hs. apply Z.leb_le in Hs. lia.
    + intros _ _. now exists tid.
Qed.

End Decision.

(** ** Summary and importance *)

Ltac case_str_in :=
  match goal with |- context [str_in ?a ?b] => destruct (str_in a b) end.

Ltac case_extract_json :=
  match goal with
  | |- context [_extract_json ?L ?r] =>
      destruct (_extract_json L r) as [[[|?kv ?d]|]|]
  end.

Ltac case_orb :=
  match goal with |- context [if orb ?a ?b then _ else _] => destruct (orb a b) end.

Section Summaries.

Variable U : Unicode.
Variable L : Library.
Variable cfg : Config.

Lemma force_facts_bit (title content : str) :
  important (_force_facts L title content) = 0 \/
  important (_force_facts L title content) = 1.
Proof.
  unfold _force_facts, try_except.
  destruct (post L _) as [|ok [| |raw]]; cbn [bind response_text important];
    try (now left);
    case_extract_json; cbn [bind important]; try (now left);
    (case_str_in; [now right | now left]).
Qed.

(** analyze_news always returns, and its importance is 0 or 1. *)
Lemma analyze_news_bit (title content : str) :
  exists a, analyze_news U L title content = Ok a /\ (important a = 0 \/ important a = 1).
Proof.
  assert (Hdone : forall a : analysis,
             important a = 0 \/ important a = 1 ->
             exists a', Ok a = Ok a' /\ (important a' = 0 \/ important a' = 1)).
  { intros a Ha. now exists a. }
  unfold analyze_news, try_except.
  destruct (post L _) as [|[|] [| |raw]]; cbn [bind response_text];
    try (apply Hdone; now left);
    case_extract_json; cbn [bind];
    try (apply Hdone; now left); try (apply Hdone; apply force_facts_bit);
    case_orb; apply Hdone; try apply force_facts_bit;
    cbn [important]; (case_str_in; [now right | now left]).
Qed.

Lemma force_facts_failed (title preview : str) :
  force_failed L title preview = true ->
  _force_facts L title preview = default_analysis title.
Proof.
  unfold force_failed, _force_facts, reply_text, try_except.
  destruct (post L _) as [|ok [| |raw]]; cbn [bind response_text andb];
    try reflexivity;
    case_extract_json; cbn [bind]; try reflexivity; discriminate.
Qed.

Lemma analyze_news_failed (title content : str) :
  summarization_failed U L title content = true ->
  analyze_news U L title content = Ok (default_analysis title).
Proof.
  unfold summarization_failed, analyze_news, reply_text, try_except.
  destruct (post L _) as [|[|] [| |raw]]; cbn [bind response_text andb negb];
    try reflexivity;
    case_extract_json; cbn [bind]; try reflexivity;
    try (intro H; now rewrite (force_facts_failed _ _ H));
    unfold summary_rejected; intro H; apply andb_true_iff in H as [H1 H2];
    rewrite H1; now rewrite (force_facts_failed _ _ H2).
Qed.

Lemma firstn_or_title (title : str) :
  match firstn 300 title with
  | [] => title
  | _ :: _ => firstn 300 title
  end = firstn 300 title.
Proof. now destruct title. Qed.

(** C7, as the code has it: for a source other than google, when the
    summarization fails the summary is the first 300 characters of the title
    (the title itself when it is no longer than that) and the importance is
    0, and the entry goes on to the insert section with them. *)
Theorem summarization_failure_defaults (e : entry) (source : str) (clk : clock)
  (p : prepared) (db : database) (c : char) (t : str) :
  str_eqb source (u "google") = false ->
  summarization_failed U L (p_title p) (extract_news_content L (p_link p)) = true ->
  detect_topic U L cfg (p_title p)
    (match extract_news_content L (p_link p) with
     | [] => p_title p
     | _ :: _ => firstn 500 (extract_news_content L (p_link p))
     end) = Ok (Some (c :: t)) ->
  let a := {| a_content := extract_news_content L (p_link p);
              a_topic := c :: t;
              a_summary := firstn 300 (p_title p);
              a_important := 0 |} in
  step U L cfg e source clk (DedupPassed p) db = (Summarized p a, db) /\
  (forall id, n_summary (new_row U L p a source (t_insert clk) id) = firstn 300 (p_title p)
              /\ n_important (new_row U L p a source (t_insert clk) id) = 0) /\
  ((List.length (p_title p) <= 300)%nat -> a_summary a = p_title p).
Proof.
  intros Hsrc Hfail Htopic a. split; [|split].
  - cbn [step]. unfold analyse. rewrite Htopic, Hsrc. cbn [negb].
    rewrite (analyze_news_failed _ _ Hfail). cbn [summary important default_analysis fst snd].
    now rewrite firstn_or_title.
  - intro id. cbn [new_row n_summary n_important a a_summary a_important]. split; [|reflexivity].
    rewrite firstn_firstn. reflexivity.
  - intro Hlen. cbn [a a_summary]. now apply firstn_all2.
Qed.

End Summaries.

(** ** The statistics table *)

Lemma insert_or_replace_no_constraint {R : Type} (table : list R) (r : R) :
  insert_or_replace [] table r = table ++ [r].
Proof.
  unfold insert_or_replace. simpl. f_equal.
  induction table as [|x table IH]; simpl; [reflexivity | now rewrite IH].
Qed.

(** The table has no uniqueness constraint, so every call adds its rows to
    the ones already there. *)
Lemma update_newsletter_stats_appends (newsletter_id : Z) (stats : dict counts)
  (db : database) :
  newsletter_stats (update_newsletter_stats newsletter_id stats db) =
  newsletter_stats db ++
  map (fun tc => {| s_newsletter_id := newsletter_id; s_topic := fst tc;
                    s_total_news := total (snd tc);
                    s_important_news := c_important (snd tc) |}) stats.
Proof.
  unfold update_newsletter_stats. cbn [newsletter_stats].
  generalize (newsletter_stats db) as table.
  induction stats as [|tc stats IH]; intro table; simpl.
  - now rewrite app_nil_r.
  - rewrite IH. unfold newsletter_stats_unique.
    rewrite insert_or_replace_no_constraint. now rewrite <- app_assoc.
Qed.

(** C2, on the code: the statistics of run 1 are written twice for the topic
    politics, first 2 articles of which none important, then 3 of which one
    important; the table then holds two rows for that run and topic, the
    first with the counts of the earlier call. *)
Theorem update_newsletter_stats_twice :
  let first := update_newsletter_stats 1
                 [(u "politics", {| total := 2; c_important := 0 |})] Sample.empty_db in
  let second := update_newsletter_stats 1
                  [(u "politics", {| total := 3; c_important := 1 |})] first in
  stats_rows_of 1 (u "politics") second =
  [ {| s_newsletter_id := 1; s_topic := u "politics";
       s_total_news := 2; s_important_news := 0 |};
    {| s_newsletter_id := 1; s_topic := u "politics";
       s_total_news := 3; s_important_news := 1 |} ].
Proof. reflexivity. Qed.

(** ** The duplicate check *)

Section Duplicates.

Variable U : Unicode.
Variable L : Library.
Variable cfg : Config.

Lemma is_similar_news_gt (t1 t2 : str) :
  is_similar_news U L cfg t1 t2 = true <->
  (SIMILARITY_THRESHOLD cfg < calculate_similarity U L t1 t2)%Q.
Proof.
  unfold is_similar_news. rewrite negb_true_iff. split.
  - intro H. apply Qnot_le_lt. intro Hle. apply Qle_bool_iff in Hle. congruence.
  - intro H. destruct (Qle_bool _ _) eqn:E; [|reflexivity].
    apply Qle_bool_iff in E. now apply Qlt_not_le in H.
Qed.

(** C5: when no stored link matches, an entry is a duplicate exactly when
    some row of the window has a similarity ratio above the threshold; with
    every ratio at or below the threshold, in particular equal to it, it is
    not. *)
Theorem similarity_threshold_strict (title : str) (topic : option str) (link : str)
  (db : database) (now : Z) :
  exact_link_match link db now = false ->
  let ratio r := calculate_similarity U L (normalize_title U title) (existing_norm U r) in
  (check_for_duplicates U L cfg title topic link db now = true <->
   exists r, In r (recent_rows topic db now) /\ (SIMILARITY_THRESHOLD cfg < ratio r)%Q) /\
  ((forall r, In r (recent_rows topic db now) -> (ratio r <= SIMILARITY_THRESHOLD cfg)%Q) ->
   check_for_duplicates U L cfg title topic link db now = false) /\
  ((forall r, In r (recent_rows topic db now) -> (ratio r == SIMILARITY_THRESHOLD cfg)%Q) ->
   check_for_duplicates U L cfg title topic link db now = false).
Proof.
  intros Hlink ratio.
  assert (Hiff : check_for_duplicates U L cfg title topic link db now = true <->
                 exists r, In r (recent_rows topic db now)
                           /\ (SIMILARITY_THRESHOLD cfg < ratio r)%Q).
  { unfold check_for_duplicates. rewrite Hlink, existsb_exists.
    split; intros [r [Hin Hr]]; exists r; (split; [exact Hin|]);
      now apply is_similar_news_gt. }
  assert (Hle : (forall r, In r (recent_rows topic db now) ->
                           (ratio r <= SIMILARITY_THRESHOLD cfg)%Q) ->
                check_for_duplicates U L cfg title topic link db now = false).
  { intro H. apply not_true_is_false. intro E.
    apply Hiff in E as [r [Hin Hr]]. specialize (H r Hin).
    exfalso. exact (Qlt_not_le _ _ Hr H). }
  split; [exact Hiff|]. split; [exact Hle|].
  intro H. apply Hle. intros r Hin. apply Qle_lteq. right. now apply H.
Qed.

End Duplicates.

(** ** Retention *)

Lemma filter_kept {A : Type} (p q : A -> bool) (l : list A) :
  filter p (filter (fun r => negb (p r && negb (q r))) l) = filter q (filter p l).
Proof.
  induction l as [|x l IH]; simpl; [reflexivity|].
  destruct (p x) eqn:Ep, (q x) eqn:Eq; simpl; rewrite ?Ep, ?Eq; simpl; now rewrite IH.
Qed.

Lemma filter_others {A : Type} (p q : A -> bool) (l : list A) :
  filter (fun r => negb (p r)) (filter (fun r => negb (p r && negb (q r))) l) =
  filter (fun r => negb (p r)) l.
Proof.
  induction l as [|x l IH]; simpl; [reflexivity|].
  destruct (p x) eqn:Ep, (q x) eqn:Eq; simpl; rewrite ?Ep; simpl; now rewrite IH.
Qed.

Lemma filter_disjoint {A : Type} (p q k : A -> bool) (l : list A) :
  (forall r, p r = true -> q r = false) ->
  filter p (filter (fun r => negb (q r && negb (k r))) l) = filter p l.
Proof.
  intro H. induction l as [|x l IH]; simpl; [reflexivity|].
  destruct (p x) eqn:Ep.
  - rewrite (H x Ep). simpl. rewrite Ep. now rewrite IH.
  - destruct (negb (q x && negb (k x))); simpl; rewrite ?Ep; exact IH.
Qed.

Lemma filter_permutation {A : Type} (p : A -> bool) (l l' : list A) :
  Permutation l l' -> Permutation (filter p l) (filter p l').
Proof.
  induction 1 as [|x l l' _ IH|x y l|l l' l'' _ IH1 _ IH2]; simpl.
  - constructor.
  - destruct (p x); [now constructor | exact IH].
  - destruct (p x), (p y); try reflexivity; try constructor; reflexivity.
  - now transitivity (filter p l').
Qed.

(** The ids of a selection of rows are as distinct as those of the table. *)
Lemma ids_nodup_filter (keep : news_row -> bool) (rows : list news_row) :
  NoDup (map n_id rows) -> NoDup (map n_id (filter keep rows)).
Proof.
  induction rows as [|x rows IH]; simpl; intro H; [constructor|].
  inversion H as [|? ? Hx Hl]; subst.
  destruct (keep x); simpl; [|now apply IH].
  constructor; [|now apply IH].
  intro Hin. apply Hx. apply in_map_iff in Hin as [y [Hy Hin]].
  apply filter_In in Hin as [Hin _]. apply in_map_iff. now exists y.
Qed.

Lemma nodup_map_inj {A B : Type} (f : A -> B) (l : list A) (a b : A) :
  NoDup (map f l) -> In a l -> In b l -> f a = f b -> a = b.
Proof.
  induction l as [|x l IH]; simpl; intros H Ha Hb Hf; [contradiction|].
  inversion H as [|? ? Hx Hl]; subst.
  destruct Ha as [->|Ha], Hb as [->|Hb]; try reflexivity.
  - exfalso. apply Hx. rewrite Hf. now apply in_map.
  - exfalso. apply Hx. rewrite <- Hf. now apply in_map.
  - now apply IH.
Qed.

Lemma existsb_id (ids : list Z) (i : Z) : existsb (Z.eqb i) ids = true <-> In i ids.
Proof.
  rewrite existsb_exists. split.
  - intros [x [Hin Hx]]. apply Z.eqb_eq in Hx. now subst.
  - intro Hin. exists i. split; [exact Hin | apply Z.eqb_refl].
Qed.

Lemma filter_ids_prefix (K D : list news_row) :
  NoDup (map n_id (K ++ D)) ->
  filter (fun r => existsb (Z.eqb (n_id r)) (map n_id K)) (K ++ D) = K.
Proof.
  intro Hnd. rewrite filter_app.
  assert (HK : filter (fun r => existsb (Z.eqb (n_id r)) (map n_id K)) K = K).
  { apply forallb_filter_id. apply forallb_forall. intros r Hr.
    apply existsb_id. now apply in_map. }
  assert (HD : filter (fun r => existsb (Z.eqb (n_id r)) (map n_id K)) D = []).
  { rewrite map_app in Hnd.
    induction D as [|x D IH]; simpl; [reflexivity|].
    destruct (existsb (Z.eqb (n_id x)) (map n_id K)) eqn:E.
    - exfalso. apply existsb_id in E.
      apply NoDup_remove_2 in Hnd. apply Hnd. apply in_or_app. now left.
    - apply IH. simpl in Hnd. now apply NoDup_remove_1 in Hnd. }
  rewrite HK, HD. apply app_nil_r.
Qed.

Lemma latest_first_app (K D : list news_row) (r r' : news_row) :
  latest_first (K ++ D) -> In r K -> In r' D -> n_published r' <= n_published r.
Proof.
  induction K as [|x K IH]; simpl; [contradiction|].
  intros [Hx HK] [->|Hr] Hr'.
  - apply Hx. apply in_or_app. now right.
  - now apply IH.
Qed.

Section Retention.

Variable E : Sqlite.
Variable cfg : Config.

Hypothesis HE : SqliteLaws E.

(** One DELETE of the retention step: the topic keeps at most
    MAX_NEWS_PER_TOPIC rows, the first that many of its rows in the order
    latest first; the rows of other topics stay. *)
Lemma prune_topic_single (rows : list news_row) (topic : str) :
  NoDup (map n_id rows) ->
  0 <= MAX_NEWS_PER_TOPIC cfg ->
  let cap := Z.to_nat (MAX_NEWS_PER_TOPIC cfg) in
  let before := filter (of_topic topic) rows in
  let after := filter (of_topic topic) (prune_topic E cfg rows topic) in
  (List.length after <= cap)%nat /\
  Permutation after (firstn cap (order_by_published_desc E before)) /\
  List.length after = Nat.min cap (List.length before) /\
  (forall r r', In r after -> In r' before -> ~ In r' after ->
                n_published r' <= n_published r) /\
  filter (fun r => negb (of_topic topic r)) (prune_topic E cfg rows topic) =
  filter (fun r => negb (of_topic topic r)) rows.
Proof.
  intros Hnd Hcap cap before after.
  destruct HE as [Hperm Hsorted].
  set (O := order_by_published_desc E before).
  set (K := firstn cap O). set (D := skipn cap O).
  assert (HO : O = K ++ D) by (unfold K, D; now rewrite firstn_skipn).
  assert (Hids : kept_ids E cfg topic rows = map n_id K).
  { unfold kept_ids, sql_limit. fold before. fold O.
    destruct (MAX_NEWS_PER_TOPIC cfg <? 0) eqn:Eneg; [apply Z.ltb_lt in Eneg; lia|].
    reflexivity. }
  assert (Hafter : after = filter (fun r => existsb (Z.eqb (n_id r)) (map n_id K)) before).
  { unfold after, prune_topic. rewrite Hids.
    exact (filter_kept (of_topic topic)
             (fun r => existsb (Z.eqb (n_id r)) (map n_id K)) rows). }
  assert (HndO : NoDup (map n_id O)).
  { apply (Permutation_NoDup (l := map n_id before)).
    - apply Permutation_map. symmetry. apply Hperm.
    - now apply ids_nodup_filter. }
  assert (HpermK : Permutation after K).
  { rewrite Hafter.
    transitivity (filter (fun r => existsb (Z.eqb (n_id r)) (map n_id K)) O).
    - apply filter_permutation. symmetry. apply Hperm.
    - rewrite HO. rewrite filter_ids_prefix; [reflexivity | now rewrite <- HO]. }
  assert (Hlen : List.length after = Nat.min cap (List.length before)).
  { rewrite (Permutation_length HpermK). unfold K. rewrite length_firstn.
    unfold O. now rewrite (Permutation_length (Hperm before)). }
  split; [lia|]. split; [exact HpermK|]. split; [exact Hlen|]. split.
  - intros r r' Hr Hr' Hnot.
    assert (HrK : In r K) by exact (Permutation_in r HpermK Hr).
    assert (Hr'O : In r' (K ++ D)).
    { rewrite <- HO. apply (Permutation_in r' (Permutation_sym (Hperm before)) Hr'). }
    apply in_app_or in Hr'O as [Hr'K|Hr'D].
    + exfalso. apply Hnot. exact (Permutation_in r' (Permutation_sym HpermK) Hr'K).
    + apply (latest_first_app K D); [rewrite <- HO; apply Hsorted | exact HrK | exact Hr'D].
  - unfold prune_topic.
    exact (filter_others (of_topic topic)
             (fun r => existsb (Z.eqb (n_id r)) (kept_ids E cfg topic rows)) rows).
Qed.

(** The DELETE for one topic leaves the rows of another topic. *)
Lemma prune_topic_other (rows : list news_row) (t t' : str) :
  t <> t' ->
  filter (of_topic t) (prune_topic E cfg rows t') = filter (of_topic t) rows.
Proof.
  intro Hne. unfold prune_topic. apply filter_disjoint.
  intros r Hr. unfold of_topic in *. apply str_eqb_eq in Hr.
  apply str_eqb_neq. congruence.
Qed.

Lemma prune_topic_ids (rows : list news_row) (t : str) :
  NoDup (map n_id rows) -> NoDup (map n_id (prune_topic E cfg rows t)).
Proof. apply ids_nodup_filter. Qed.

Lemma prune_others (ts : list str) (t : str) :
  ~ In t ts ->
  forall rows,
    filter (of_topic t) (fold_left (prune_topic E cfg) ts rows) = filter (of_topic t) rows.
Proof.
  induction ts as [|t' ts IH]; intros Hnot rows; simpl; [reflexivity|].
  rewrite IH by (intro H; apply Hnot; now right).
  apply prune_topic_other. intros ->. apply Hnot. now left.
Qed.

Lemma prune_ids (ts : list str) :
  forall rows,
    NoDup (map n_id rows) -> NoDup (map n_id (fold_left (prune_topic E cfg) ts rows)).
Proof.
  induction ts as [|t ts IH]; intros rows H; simpl; [exact H|].
  apply IH. now apply prune_topic_ids.
Qed.

(** C6: after the retention step of a run, every topic of the run's
    statistics keeps at most MAX_NEWS_PER_TOPIC rows; they are the first
    that many of the rows it had, in the order latest first, so every kept
    row is at least as recent as every deleted one; topics the run did not
    touch keep their rows. *)
Theorem prune_topics_keeps_latest (stats : dict counts) (db : database) (topic : str) :
  NoDup (map n_id (news db)) ->
  NoDup (map fst stats) ->
  0 <= MAX_NEWS_PER_TOPIC cfg ->
  In topic (map fst stats) ->
  let cap := Z.to_nat (MAX_NEWS_PER_TOPIC cfg) in
  let before := filter (of_topic topic) (news db) in
  let after := filter (of_topic topic) (news (prune_topics E cfg stats db)) in
  (List.length after <= cap)%nat /\
  Permutation after (firstn cap (order_by_published_desc E before)) /\
  List.length after = Nat.min cap (List.length before) /\
  (forall r r', In r after -> In r' before -> ~ In r' after ->
                n_published r' <= n_published r) /\
  (forall t, ~ In t (map fst stats) ->
             filter (of_topic t) (news (prune_topics E cfg stats db))
             = filter (of_topic t) (news db)).
Proof.
  intros Hids Hkeys Hcap Hin cap before after.
  assert (Hlast : forall t, ~ In t (map fst stats) ->
                            filter (of_topic t) (news (prune_topics E cfg stats db))
                            = filter (of_topic t) (news db)).
  { intros t Ht. cbn [prune_topics news]. now apply prune_others. }
  destruct (in_split topic (map fst stats) Hin) as [ts1 [ts2 Hsplit]].
  assert (Hnot : ~ In topic (ts1 ++ ts2)).
  { rewrite Hsplit in Hkeys. now apply NoDup_remove_2 in Hkeys. }
  set (rows1 := fold_left (prune_topic E cfg) ts1 (news db)).
  assert (Hbefore : filter (of_topic topic) rows1 = before).
  { apply prune_others. intro H. apply Hnot. apply in_or_app. now left. }
  assert (Hafter : after = filter (of_topic topic) (prune_topic E cfg rows1 topic)).
  { unfold after. cbn [prune_topics news]. rewrite Hsplit, fold_left_app. cbn [fold_left].
    apply prune_others. intro H. apply Hnot. apply in_or_app. now right. }
  pose proof (prune_topic_single rows1 topic (prune_ids ts1 (news db) Hids) Hcap) as H.
  cbv zeta in H. rewrite Hbefore, <- Hafter in H.
  destruct H as [H1 [H2 [H3 [H4 _]]]].
  repeat split; assumption.
Qed.

End Retention.

(** ** Two workers and one fingerprint *)

(** The sections a worker still has to go through. *)
Definition steps_left (s : stage) : nat :=
  match s with
  | Fetched => 4
  | Fingerprinted _ => 3
  | DedupPassed _ => 2
  | Summarized _ _ => 1
  | Finished _ => 0
  end.

Section Race.

Variable U : Unicode.
Variable L : Library.
Variable cfg : Config.

Lemma prepare_fp (e : entry) (now : Z) (p : prepared) :
  prepare U L cfg e now = Some p -> p_fp p = entry_fingerprint U L e.
Proof.
  unfold prepare, entry_fingerprint.
  destruct (strip U (e_title e)) as [|c t]; [discriminate|].
  destruct (split_first 63%N (e_link e)) as [|d l]; [discriminate|].
  destruct (is_blacklisted U L cfg (d :: l) (c :: t)); [discriminate|].
  destruct (match e_published_parsed e with Some t0 => Some t0 | None => e_updated_parsed e end)
    as [published|]; [|discriminate].
  destruct (published <? now - MAX_NEWS_AGE_HOURS cfg * 3600); [discriminate|].
  intro H. injection H as <-. reflexivity.
Qed.

Lemma step_left (e : entry) (src : str) (clk : clock) (s : stage) (db : database) :
  (steps_left (fst (step U L cfg e src clk s db)) <= Nat.pred (steps_left s))%nat.
Proof.
  destruct s as [|p|p|p a|r]; cbn [step].
  - destruct (prepare U L cfg e (t_age clk)) as [p|]; [|simpl; lia].
    destruct (fingerprint_exists (p_fp p) db); simpl; lia.
  - destruct (like_raises _ _); [simpl; lia|].
    destruct (check_for_duplicates U L cfg _ _ _ _ _); simpl; lia.
  - destruct (analyse U L cfg p src); simpl; lia.
  - simpl; lia.
  - simpl; lia.
Qed.

(** What process_news_entry went through when it stored the entry. *)
Lemma process_stored (e : entry) (src : str) (clk : clock) (db : database) (o : outcome) :
  fst (process_news_entry U L cfg e src clk db) = Some o ->
  exists p a,
    prepare U L cfg e (t_age clk) = Some p /\
    fingerprint_exists (p_fp p) db = false /\
    check_for_duplicates U L cfg (p_title p) None (p_link p) db (t_dup1 clk) = false /\
    analyse U L cfg p src = Some a /\
    check_for_duplicates U L cfg (p_title p) (Some (a_topic a)) (p_link p) db (t_dup2 clk)
      = false /\
    like_raises (p_link p) db = false.
Proof.
  unfold process_news_entry. cbn [step].
  destruct (prepare U L cfg e (t_age clk)) as [p|]; [|discriminate].
  destruct (fingerprint_exists (p_fp p) db) eqn:Hfp; [discriminate|].
  cbn [fst snd step].
  destruct (like_raises (p_link p) db) eqn:Hlk; [discriminate|].
  destruct (check_for_duplicates U L cfg (p_title p) None (p_link p) db (t_dup1 clk))
    eqn:Hd1; [discriminate|].
  cbn [fst snd step].
  destruct (analyse U L cfg p src) as [a|] eqn:Han; [|discriminate].
  cbn [fst snd step result_of]. unfold insert_section. rewrite Hlk.
  destruct (check_for_duplicates U L cfg (p_title p) (Some (a_topic a)) (p_link p) db
              (t_dup2 clk)) eqn:Hd2; [discriminate|].
  intros _. exists p, a. repeat split; assumption.
Qed.

Section Worker.

Variable e : entry.
Variable src : str.
Variable clk : clock.
Variable p : prepared.
Variable a : analysed.

Hypothesis Hprep : prepare U L cfg e (t_age clk) = Some p.
Hypothesis Han : analyse U L cfg p src = Some a.

(** The worker has not finished and holds what a run of its own computes. *)
Definition on_track (s : stage) : Prop :=
  s = Fetched \/ s = Fingerprinted p \/ s = DedupPassed p \/ s = Summarized p a.

(** With the fingerprint in the store, a step stores nothing and never ends
    with a row. *)
Lemma step_taken (db : database) (s : stage) :
  fingerprint_exists (p_fp p) db = true ->
  on_track s ->
  snd (step U L cfg e src clk s db) = db /\
  (on_track (fst (step U L cfg e src clk s db))
   \/ fst (step U L cfg e src clk s db) = Finished None).
Proof.
  intros Hfp [-> | [-> | [-> | ->]]]; cbn [step].
  - rewrite Hprep, Hfp. split; [reflexivity | now right].
  - destruct (like_raises _ _); [split; [reflexivity | now right]|].
    destruct (check_for_duplicates U L cfg _ _ _ _ _); (split; [reflexivity|]).
    + now right.
    + left. unfold on_track. tauto.
  - rewrite Han. split; [reflexivity|]. left. unfold on_track. tauto.
  - unfold insert_section.
    destruct (like_raises _ _); cbn [fst snd]; [split; [reflexivity | now right]|].
    destruct (check_for_duplicates U L cfg _ _ _ _ _); cbn [fst snd];
      [split; [reflexivity | now right]|].
    unfold insert_news. cbn [new_row n_fingerprint]. rewrite Hfp. cbn [fst snd].
    split; [reflexivity | now right].
Qed.

Variable db0 : database.

Hypothesis Hfp0 : fingerprint_exists (p_fp p) db0 = false.
Hypothesis Hdup1 :
  check_for_duplicates U L cfg (p_title p) None (p_link p) db0 (t_dup1 clk) = false.
Hypothesis Hdup2 :
  check_for_duplicates U L cfg (p_title p) (Some (a_topic a)) (p_link p) db0 (t_dup2 clk)
  = false.
Hypothesis Hlike : like_raises (p_link p) db0 = false.

(** On the store as it was, a step goes on, or stores the row and ends. *)
Lemma step_free (s : stage) :
  on_track s ->
  (snd (step U L cfg e src clk s db0) = db0
   /\ on_track (fst (step U L cfg e src clk s db0)))
  \/ (exists o r, fst (step U L cfg e src clk s db0) = Finished (Some o)
                  /\ news (snd (step U L cfg e src clk s db0)) = news db0 ++ [r]
                  /\ n_fingerprint r = p_fp p).
Proof.
  intros [-> | [-> | [-> | ->]]]; cbn [step].
  - rewrite Hprep, Hfp0. left. split; [reflexivity|]. unfold on_track. tauto.
  - rewrite Hlike, Hdup1. left. split; [reflexivity|]. unfold on_track. tauto.
  - rewrite Han. left. split; [reflexivity|]. unfold on_track. tauto.
  - right. unfold insert_section. rewrite Hlike, Hdup2.
    unfold insert_news. cbn [new_row n_fingerprint]. rewrite Hfp0. cbn [fst snd news].
    eexists. eexists. split; [reflexivity|]. split; reflexivity.
Qed.

End Worker.

Lemma fingerprint_exists_last (db db' : database) (r : news_row) :
  news db' = news db ++ [r] -> fingerprint_exists (n_fingerprint r) db' = true.
Proof.
  intro H. unfold fingerprint_exists. rewrite H, existsb_app. simpl.
  now rewrite str_eqb_refl, orb_true_r.
Qed.

Lemma run_left (w1 w2 : worker) (sched : list worker_id) :
  forall s1 s2 db,
    (steps_left (fst (fst (run U L cfg w1 w2 sched s1 s2 db)))
     <= steps_left s1 - turns W1 sched)%nat /\
    (steps_left (snd (fst (run U L cfg w1 w2 sched s1 s2 db)))
     <= steps_left s2 - turns W2 sched)%nat.
Proof.
  induction sched as [|[|] sched IH]; intros s1 s2 db; cbn [run turns].
  - simpl. lia.
  - pose proof (step_left (w_entry w1) (w_source w1) (w_clock w1) s1 db) as Hs.
    destruct (IH (fst (step U L cfg (w_entry w1) (w_source w1) (w_clock w1) s1 db)) s2
                 (snd (step U L cfg (w_entry w1) (w_source w1) (w_clock w1) s1 db)))
      as [H1 H2].
    split; lia.
  - pose proof (step_left (w_entry w2) (w_source w2) (w_clock w2) s2 db) as Hs.
    destruct (IH s1 (fst (step U L cfg (w_entry w2) (w_source w2) (w_clock w2) s2 db))
                 (snd (step U L cfg (w_entry w2) (w_source w2) (w_clock w2) s2 db)))
      as [H1 H2].
    split; lia.
Qed.

Section TwoWorkers.

Variable w1 w2 : worker.
Variable db0 : database.
Variable p1 p2 : prepared.
Variable a1 a2 : analysed.

Hypothesis Hprep1 : prepare U L cfg (w_entry w1) (t_age (w_clock w1)) = Some p1.
Hypothesis Hprep2 : prepare U L cfg (w_entry w2) (t_age (w_clock w2)) = Some p2.
Hypothesis Han1 : analyse U L cfg p1 (w_source w1) = Some a1.
Hypothesis Han2 : analyse U L cfg p2 (w_source w2) = Some a2.
Hypothesis Hsame : p_fp p1 = p_fp p2.
Hypothesis Hfp0 : fingerprint_exists (p_fp p1) db0 = false.
Hypothesis Hdup11 :
  check_for_duplicates U L cfg (p_title p1) None (p_link p1) db0 (t_dup1 (w_clock w1))
  = false.
Hypothesis Hdup12 :
  check_for_duplicates U L cfg (p_title p1) (Some (a_topic a1)) (p_link p1) db0
    (t_dup2 (w_clock w1)) = false.
Hypothesis Hdup21 :
  check_for_duplicates U L cfg (p_title p2) None (p_link p2) db0 (t_dup1 (w_clock w2))
  = false.
Hypothesis Hdup22 :
  check_for_duplicates U L cfg (p_title p2) (Some (a_topic a2)) (p_link p2) db0
    (t_dup2 (w_clock w2)) = false.
Hypothesis Hlike1 : like_raises (p_link p1) db0 = false.
Hypothesis Hlike2 : like_raises (p_link p2) db0 = false.

(** One row with the fingerprint was added by [winner], the other worker has
    no row. *)
Definition one_stored (winner loser : stage) (db : database) (track : stage -> Prop) : Prop :=
  (exists o r, winner = Finished (Some o) /\ news db = news db0 ++ [r]
               /\ n_fingerprint r = p_fp p1)
  /\ (track loser \/ loser = Finished None).

Definition race_inv (s1 s2 : stage) (db : database) : Prop :=
  (db = db0 /\ on_track p1 a1 s1 /\ on_track p2 a2 s2)
  \/ one_stored s1 s2 db (on_track p2 a2)
  \/ one_stored s2 s1 db (on_track p1 a1).

Lemma race_step1 (s1 s2 : stage) (db : database) :
  race_inv s1 s2 db ->
  race_inv (fst (step U L cfg (w_entry w1) (w_source w1) (w_clock w1) s1 db)) s2
           (snd (step U L cfg (w_entry w1) (w_source w1) (w_clock w1) s1 db)).
Proof.
  intros [[-> [H1 H2]]|[[[o [r [-> [Hn Hr]]]] H2]|[[o [r [-> [Hn Hr]]]] H1]]].
  - destruct (step_free (w_entry w1) (w_source w1) (w_clock w1) p1 a1 Hprep1 Han1 db0
                Hfp0 Hdup11 Hdup12 Hlike1 s1 H1) as [[Hdb Ht]|[o [r [Hs [Hn Hr]]]]].
    + left. rewrite Hdb. now split.
    + right; left. split; [|now left]. exists o, r. now split.
  - right; left. cbn [step fst snd]. split; [|exact H2]. exists o, r. now split.
  - right; right. destruct H1 as [H1 | ->].
    + assert (Hfp : fingerprint_exists (p_fp p1) db = true).
      { rewrite <- Hr. now apply (fingerprint_exists_last db0). }
      destruct (step_taken (w_entry w1) (w_source w1) (w_clock w1) p1 a1 Hprep1 Han1
                  db s1 Hfp H1) as [Hdb Ht].
      rewrite Hdb. split; [|exact Ht]. exists o, r. now split.
    + cbn [step fst snd]. split; [|now right]. exists o, r. now split.
Qed.

Lemma race_step2 (s1 s2 : stage) (db : database) :
  race_inv s1 s2 db ->
  race_inv s1 (fst (step U L cfg (w_entry w2) (w_source w2) (w_clock w2) s2 db))
           (snd (step U L cfg (w_entry w2) (w_source w2) (w_clock w2) s2 db)).
Proof.
  assert (Hfp0' : fingerprint_exists (p_fp p2) db0 = false) by now rewrite <- Hsame.
  intros [[-> [H1 H2]]|[[[o [r [-> [Hn Hr]]]] H2]|[[o [r [-> [Hn Hr]]]] H1]]].
  - destruct (step_free (w_entry w2) (w_source w2) (w_clock w2) p2 a2 Hprep2 Han2 db0
                Hfp0' Hdup21 Hdup22 Hlike2 s2 H2) as [[Hdb Ht]|[o [r [Hs [Hn Hr]]]]].
    + left. rewrite Hdb. now split.
    + right; right. split; [|now left]. exists o, r. rewrite Hsame. now split.
  - right; left. destruct H2 as [H2 | ->].
    + assert (Hfp : fingerprint_exists (p_fp p2) db = true).
      { rewrite <- Hsame, <- Hr. now apply (fingerprint_exists_last db0). }
      destruct (step_taken (w_entry w2) (w_source w2) (w_clock w2) p2 a2 Hprep2 Han2
                  db s2 Hfp H2) as [Hdb Ht].
      rewrite Hdb. split; [|exact Ht]. exists o, r. now split.
    + cbn [step fst snd]. split; [|now right]. exists o, r. now split.
  - right; right. cbn [step fst snd]. split; [|exact H1]. exists o, r. now split.
Qed.

Lemma race_run (sched : list worker_id) :
  forall s1 s2 db,
    race_inv s1 s2 db ->
    race_inv (fst (fst (run U L cfg w1 w2 sched s1 s2 db)))
             (snd (fst (run U L cfg w1 w2 sched s1 s2 db)))
             (snd (run U L cfg w1 w2 sched s1 s2 db)).
Proof.
  induction sched as [|[|] sched IH]; intros s1 s2 db Hinv; cbn [run].
  - exact Hinv.
  - apply IH. now apply race_step1.
  - apply IH. now apply race_step2.
Qed.

End TwoWorkers.

Lemma on_track_left (p : prepared) (a : analysed) (s : stage) :
  on_track p a s -> (0 < steps_left s)%nat.
Proof. intros [-> | [-> | [-> | ->]]]; simpl; lia. Qed.

(** C9: two workers process entries with the same fingerprint, each of which
    would be stored if its worker ran alone.  However the locked sections of
    the two interleave, once both workers are through, the store holds one
    more row, with that fingerprint; one worker returns a result and the
    other returns None. *)
Theorem concurrent_insert_once (w1 w2 : worker) (db0 : database) (sched : list worker_id) :
  entry_fingerprint U L (w_entry w1) = entry_fingerprint U L (w_entry w2) ->
  (exists o, fst (process_news_entry U L cfg (w_entry w1) (w_source w1) (w_clock w1) db0)
             = Some o) ->
  (exists o, fst (process_news_entry U L cfg (w_entry w2) (w_source w2) (w_clock w2) db0)
             = Some o) ->
  (4 <= turns W1 sched)%nat ->
  (4 <= turns W2 sched)%nat ->
  let final := run U L cfg w1 w2 sched Fetched Fetched db0 in
  exists r,
    news (snd final) = news db0 ++ [r] /\
    n_fingerprint r = entry_fingerprint U L (w_entry w1) /\
    (((exists o, fst (fst final) = Finished (Some o)) /\ snd (fst final) = Finished None)
     \/ (fst (fst final) = Finished None /\ exists o, snd (fst final) = Finished (Some o))).
Proof.
  intros Hsame [o1 Ho1] [o2 Ho2] Ht1 Ht2 final.
  apply process_stored in Ho1 as [p1 [a1 [Hp1 [Hf1 [Hd11 [Ha1 [Hd12 Hk1]]]]]]].
  apply process_stored in Ho2 as [p2 [a2 [Hp2 [Hf2 [Hd21 [Ha2 [Hd22 Hk2]]]]]]].
  assert (Hfp : p_fp p1 = p_fp p2).
  { now rewrite (prepare_fp _ _ _ Hp1), (prepare_fp _ _ _ Hp2). }
  assert (Hinv : race_inv db0 p1 p2 a1 a2 (fst (fst final)) (snd (fst final)) (snd final)).
  { apply (race_run w1 w2 db0 p1 p2 a1 a2); try assumption.
    left. split; [reflexivity|]. unfold on_track. tauto. }
  destruct (run_left w1 w2 sched Fetched Fetched db0) as [Hl1 Hl2].
  fold final in Hl1, Hl2. simpl steps_left in Hl1, Hl2.
  assert (Hz1 : steps_left (fst (fst final)) = O) by lia.
  assert (Hz2 : steps_left (snd (fst final)) = O) by lia.
  rewrite <- (prepare_fp _ _ _ Hp1).
  destruct Hinv as [[_ [H1 _]]|[[[o [r [Hw [Hn Hr]]]] Hl]|[[o [r [Hw [Hn Hr]]]] Hl]]].
  - apply on_track_left in H1. lia.
  - exists r. split; [exact Hn|]. split; [exact Hr|]. left.
    split; [now exists o|]. destruct Hl as [Hl|Hl]; [|exact Hl].
    apply on_track_left in Hl. lia.
  - exists r. split; [exact Hn|]. split; [exact Hr|]. right.
    split; [|now exists o]. destruct Hl as [Hl|Hl]; [|exact Hl].
    apply on_track_left in Hl. lia.
Qed.

End Race.

(** ** The concrete instance satisfies what the theorems assume *)

Ltac case_compare_at c :=
  repeat (match goal with
          | |- context [(?a <=? c)%N] => destruct (N.leb_spec a c)
          | |- context [(c <=? ?b)%N] => destruct (N.leb_spec c b)
          | |- context [(c =? ?b)%N] => destruct (N.eqb_spec c b)
          end; cbn [andb orb negb]).

Lemma lower_char_idem (c : char) : Sample.lower_char (Sample.lower_char c) = Sample.lower_char c.
Proof.
  unfold Sample.lower_char, Sample.between.
  case_compare_at c; try reflexivity;
    match goal with
    | |- context [(?x + 32)%N] => case_compare_at (x + 32)%N
    | |- _ => case_compare_at 1105%N
    end; try reflexivity; lia.
Qed.

Lemma tables_laws : UnicodeLaws Sample.tables.
Proof.
  split.
  - reflexivity.
  - reflexivity.
  - reflexivity.
  - intros s c Hc. cbn in Hc |- *. apply in_map_iff in Hc as [x [<- _]].
    now rewrite lower_char_idem.
  - intros s Hs. cbn in Hs |- *. induction s as [|x s IH]; [reflexivity|].
    cbn [map]. f_equal.
    + specialize (Hs x (or_introl eq_refl)). now injection Hs.
    + apply IH. intros c Hc. apply Hs. now right.
Qed.

Lemma insert_row_perm (r : news_row) (l : list news_row) :
  Permutation (Sample.insert_row r l) (r :: l).
Proof.
  induction l as [|x l IH]; simpl; [reflexivity|].
  destruct (n_published x <=? n_published r); [reflexivity|].
  rewrite IH. apply perm_swap.
Qed.

Lemma insert_row_sorted (r : news_row) (l : list news_row) :
  latest_first l -> latest_first (Sample.insert_row r l).
Proof.
  induction l as [|x l IH]; simpl; intro H.
  - split; [intros r' [] | exact I].
  - destruct H as [Hx Hl]. destruct (n_published x <=? n_published r) eqn:E.
    + apply Z.leb_le in E. split; [|split; assumption].
      intros r' [<-|Hr']; [exact E|]. specialize (Hx r' Hr'). lia.
    + apply Z.leb_gt in E. split; [|now apply IH].
      intros r' Hr'. apply (Permutation_in r' (insert_row_perm r l)) in Hr'.
      destruct Hr' as [<-|Hr']; [lia | now apply Hx].
Qed.

Lemma engine_laws : SqliteLaws Sample.engine.
Proof.
  split; intro l; cbn [order_by_published_desc Sample.engine].
  - induction l as [|x l IH]; simpl; [reflexivity|].
    rewrite insert_row_perm. now constructor.
  - induction l as [|x l IH]; simpl; [exact I | now apply insert_row_sorted].
Qed.

Lemma config_sample_ok : config_ok Sample.config.
Proof.
  split.
  - cbn. repeat constructor; cbn; intuition discriminate.
  - intros e t Hin. cbn in Hin. destruct Hin as [H|[]].
    injection H as <- <-. cbn. now left.
Qed.

Lemma config_exclude_ok : config_ok Sample.config_exclude.
Proof.
  split.
  - cbn. repeat constructor; cbn; intuition discriminate.
  - intros e t Hin. cbn in Hin. destruct Hin as [H|[]].
    injection H as <- <-. cbn. now left.
Qed.

(** ** The theorems at concrete inputs *)

(** C8 at the title ["  Hello, World 123!!  foo_bar  "]. *)
Lemma normalize_title_canonical_witness :
  normalize_title Sample.tables (u "  Hello, World 123!!  foo_bar  ") = u "hello world foo_bar"
  /\ let r := normalize_title Sample.tables (u "  Hello, World 123!!  foo_bar  ") in
     (forall c, In c r -> is_digit Sample.tables c = false) /\
     (forall c, In c r -> is_word Sample.tables c = true \/ is_space Sample.tables c = true) /\
     no_space_run Sample.tables r /\
     str_lower Sample.tables r = r /\
     strip Sample.tables r = r /\
     normalize_title Sample.tables [] = [].
Proof.
  split; [reflexivity|].
  exact (normalize_title_canonical Sample.tables tables_laws
           (u "  Hello, World 123!!  foo_bar  ")).
Defined.

(** C4 at a title and a content that touch every rule: the entity gives the
    economy 3, its exclude term [lottery] takes its keywords away; politics
    gets 1 for [decree] in the text and loses 2 for [football].  Without the
    exclude term the economy gets 2 for [tax] in the title and 1 for
    [budget] in the text.  [tax] inside [syntax] or [taxes] is no whole
    word and scores nothing, although it appears there. *)
Lemma scoring_matches_spec_witness :
  scoring Sample.tables Sample.config_exclude (u "Tax lottery and national bank")
          (u "football budget decree")
  = Ok [(u "economy", 3); (u "politics", -1)]
  /\ scoring Sample.tables Sample.config_exclude (u "Tax decree and national bank")
             (u "football budget")
     = Ok [(u "economy", 6); (u "politics", 0)]
  /\ scoring Sample.tables Sample.config_exclude (u "Syntax error") (u "taxes")
     = Ok [(u "economy", 0); (u "politics", 0)]
  /\ contains (u "tax") (u "syntax error taxes") = true
  /\ exists scores,
       scoring Sample.tables Sample.config_exclude (u "Tax lottery and national bank")
               (u "football budget decree") = Ok scores /\
       map fst scores = map fst (TOPICS Sample.config_exclude) /\
       forall tid td, In (tid, td) (TOPICS Sample.config_exclude) ->
         dict_get scores tid =
         Some (spec_score Sample.tables Sample.config_exclude
                          (u "Tax lottery and national bank")
                          (u "football budget decree") tid td).
Proof.
  split; [reflexivity|]. split; [reflexivity|]. split; [reflexivity|].
  split; [reflexivity|].
  exact (proj1 (scoring_matches_spec Sample.tables Sample.config_exclude config_exclude_ok
                  (u "Tax lottery and national bank") (u "football budget decree"))).
Defined.

(** C3 at a title two topics score 2 on, with the model down. *)
Lemma detect_topic_none_iff_witness :
  detect_topic Sample.tables Sample.library_down Sample.config (u "Tax decree") []
  = Ok (Some (u "economy"))
  /\ exists scores,
       scoring Sample.tables Sample.config (u "Tax decree") [] = Ok scores /\
       (detect_topic Sample.tables Sample.library_down Sample.config (u "Tax decree") []
        = Ok None <->
        STRICT_BELARUS_ONLY Sample.config
        && is_wrong_region Sample.tables Sample.config
             (str_lower Sample.tables (u "Tax decree" ++ SPACE :: [])) = true
        \/ forall tid s, In (tid, s) scores -> s < 2) /\
       (STRICT_BELARUS_ONLY Sample.config
        && is_wrong_region Sample.tables Sample.config
             (str_lower Sample.tables (u "Tax decree" ++ SPACE :: [])) = false ->
        (exists tid s, In (tid, s) scores /\ 2 <= s) ->
        exists tid,
          detect_topic Sample.tables Sample.library_down Sample.config (u "Tax decree") []
          = Ok (Some tid)
          /\ In tid (map fst (TOPICS Sample.config))).
Proof.
  split; [reflexivity|].
  exact (detect_topic_none_iff Sample.tables Sample.library_down Sample.config
           config_sample_ok (u "Tax decree") []).
Defined.

(** C1, the claim as stated fails: the call for the first candidate, economy,
    fails; going on to the next candidate would have had politics confirmed;
    detect_topic returns economy. *)
Lemma failed_call_confirms_candidate :
  post Sample.library_flaky (ValidateCall (u "Tax decree") [] (u "Economy")) = PostRaised
  /\ llm_stage Sample.tables Sample.library_flaky Sample.config (u "Tax decree") []
       [(u "economy", 2); (u "politics", 2)] = Ok (Some (u "economy"))
  /\ llm_stage Sample.tables Sample.library_flaky Sample.config (u "Tax decree") []
       [(u "politics", 2)] = Ok (Some (u "politics"))
  /\ detect_topic Sample.tables Sample.library_flaky Sample.config (u "Tax decree") []
     = Ok (Some (u "economy")).
Proof. repeat split; reflexivity. Qed.

(** C1 as amended, at the same input. *)
Lemma failed_validation_accepts_witness :
  validate_topic Sample.tables Sample.library_flaky (u "Tax decree") (firstn 1200 [])
    (u "Economy") = Ok true
  /\ llm_stage Sample.tables Sample.library_flaky Sample.config (u "Tax decree") []
       [(u "economy", 2); (u "politics", 2)] = Ok (Some (u "economy")).
Proof.
  pose proof (failed_validation_accepts Sample.tables Sample.library_flaky Sample.config
                (u "Tax decree") [] (u "economy") 2 [(u "politics", 2)]
                (Sample.topic "Economy" "tax" "budget") eq_refl eq_refl) as H.
  exact (conj (proj1 H) (proj1 (proj2 H))).
Defined.

(** C10, on the code: the model answers the first prompt in prose and the
    fallback prompt with a JSON object whose "important" is the JSON boolean
    true, of string form "True"; analyze_news returns importance 0.  The
    same object in answer to the first prompt gives importance 1. *)
Theorem force_facts_drops_true :
  py_str (JBool true) = u "True"
  /\ analyze_news Sample.tables Sample.library_fallback (u "Tax decree") []
     = Ok {| summary := Sample.long_summary; important := 0 |}
  /\ analyze_news Sample.tables Sample.library_direct (u "Tax decree") []
     = Ok {| summary := Sample.long_summary; important := 1 |}.
Proof. repeat split; vm_compute; reflexivity. Qed.

(** C7, the claim as stated fails: with the model down, an entry whose title
    has 311 characters is stored with a summary of 300 characters, which is
    not its title. *)
Lemma long_title_summary_truncated :
  let stored :=
    news (snd (process_news_entry Sample.tables Sample.library_down Sample.config
                 (Sample.sample_entry Sample.long_title (u "https://news.example/a?x=1"))
                 (u "rss") Sample.sample_clock Sample.empty_db)) in
  summarization_failed Sample.tables Sample.library_down Sample.long_title [] = true
  /\ map n_title stored = [Sample.long_title]
  /\ map n_summary stored = [firstn 300 Sample.long_title]
  /\ map n_important stored = [0]
  /\ str_eqb (firstn 300 Sample.long_title) Sample.long_title = false.
Proof. cbv zeta. repeat split; vm_compute; reflexivity. Qed.

(** C7 as amended, at a short title. *)
Lemma summarization_failure_defaults_witness :
  let p := {| p_title := u "Tax decree signed"; p_link := u "https://news.example/a";
              p_published := 190000; p_fp := u "news.example|tax decree signed" |} in
  let a := {| a_content := []; a_topic := u "economy";
              a_summary := u "Tax decree signed"; a_important := 0 |} in
  step Sample.tables Sample.library_down Sample.config
    (Sample.sample_entry (u "Tax decree signed") (u "https://news.example/a"))
    (u "rss") Sample.sample_clock (DedupPassed p) Sample.empty_db
  = (Summarized p a, Sample.empty_db).
Proof.
  exact (proj1 (summarization_failure_defaults Sample.tables Sample.library_down
                  Sample.config
                  (Sample.sample_entry (u "Tax decree signed") (u "https://news.example/a"))
                  (u "rss") Sample.sample_clock
                  {| p_title := u "Tax decree signed"; p_link := u "https://news.example/a";
                     p_published := 190000; p_fp := u "news.example|tax decree signed" |}
                  Sample.empty_db 101%N (u "conomy") eq_refl eq_refl eq_refl)).
Defined.

(** C5 at a ratio that equals the threshold: the stored title and the new
    one share 17 of 17 and 23 characters, the stand-in ratio is 34/40, the
    threshold 85/100; the entry is no duplicate. *)
Lemma similarity_threshold_strict_witness :
  check_for_duplicates Sample.tables Sample.library_down Sample.config
    (u "Tax decree signed today") None (u "https://b.example/y")
    (Sample.store [Sample.sample_row 1 (u "Tax decree signed") (u "https://a.example/x")
                     (u "economy") 190000])
    200000 = false.
Proof.
  apply (proj2 (proj2
    (similarity_threshold_strict Sample.tables Sample.library_down Sample.config
       (u "Tax decree signed today") None (u "https://b.example/y")
       (Sample.store [Sample.sample_row 1 (u "Tax decree signed") (u "https://a.example/x")
                        (u "economy") 190000])
       200000 eq_refl))).
  intros r Hin. vm_compute in Hin. destruct Hin as [<-|[]]. vm_compute. reflexivity.
Defined.

(** C6 at a store with three articles on the economy and a cap of 2, after
    a run that touched the economy only. *)
Lemma prune_topics_keeps_latest_witness :
  let stats := [(u "economy", {| total := 1; c_important := 0 |})] in
  let after := news (prune_topics Sample.engine Sample.config stats
                       (Sample.store Sample.four_rows)) in
  map n_id after = [2; 3; 4]
  /\ (List.length (filter (of_topic (u "economy")) after) <= 2)%nat.
Proof.
  cbv zeta. split; [reflexivity|].
  assert (Hids : NoDup (map n_id (news (Sample.store Sample.four_rows)))).
  { cbn. repeat constructor; cbn; intuition discriminate. }
  assert (Hkeys : NoDup (map fst [(u "economy", {| total := 1; c_important := 0 |})])).
  { cbn. repeat constructor; cbn; intuition discriminate. }
  assert (Hcap : 0 <= MAX_NEWS_PER_TOPIC Sample.config) by (cbn; lia).
  exact (proj1 (prune_topics_keeps_latest Sample.engine Sample.config engine_laws
                  [(u "economy", {| total := 1; c_important := 0 |})]
                  (Sample.store Sample.four_rows) (u "economy")
                  Hids Hkeys Hcap (or_introl eq_refl))).
Defined.

(** C9 at two entries of one story, their sections interleaved. *)
Lemma concurrent_insert_once_witness :
  let final := run Sample.tables Sample.library_down Sample.config
                 Sample.first_worker Sample.second_worker
                 [W1; W2; W2; W1; W1; W2; W2; W1] Fetched Fetched Sample.empty_db in
  exists r,
    news (snd final) = news Sample.empty_db ++ [r] /\
    n_fingerprint r
    = entry_fingerprint Sample.tables Sample.library_down (w_entry Sample.first_worker) /\
    (((exists o, fst (fst final) = Finished (Some o)) /\ snd (fst final) = Finished None)
     \/ (fst (fst final) = Finished None /\ exists o, snd (fst final) = Finished (Some o))).
Proof.
  apply (concurrent_insert_once Sample.tables Sample.library_down Sample.config
           Sample.first_worker Sample.second_worker Sample.empty_db
           [W1; W2; W2; W1; W1; W2; W2; W1]).
  - reflexivity.
  - eexists. vm_compute. reflexivity.
  - eexists. vm_compute. reflexivity.
  - cbn. lia.
  - cbn. lia.
Defined.

(** * Further properties of the code *)

(** ** Titles and fingerprints *)

Section TitleFacts.

Variable U : Unicode.
Variable L : Library.

Lemma sub_runs_none (cls : char -> bool) (repl : str) (s : str) :
  (forall c, In c s -> cls c = false) -> forall b, sub_runs cls repl b s = s.
Proof.
  induction s as [|x s IH]; intros H b; simpl; [reflexivity|].
  rewrite (H x (or_introl eq_refl)). f_equal. apply IH. intros c Hc. apply H. now right.
Qed.

Lemma re_sub_char_none (cls : char -> bool) (repl : str) (s : str) :
  (forall c, In c s -> cls c = false) -> re_sub_char cls repl s = s.
Proof.
  unfold re_sub_char. induction s as [|x s IH]; intro H; simpl; [reflexivity|].
  rewrite (H x (or_introl eq_refl)). simpl. f_equal. apply IH.
  intros c Hc. apply H. now right.
Qed.

Lemma run_no_adj (s : str) : no_space_run U s -> no_adj U s.
Proof.
  induction s as [|c s IH]; intro H; simpl; [exact I|]. split.
  - intro Hc. destruct s as [|d s]; [exact I|]. exact (H [] c d s eq_refl Hc).
  - apply IH. intros l x y r ->. exact (H (c :: l) x y r eq_refl).
Qed.

(** Collapsing white space changes nothing where every white-space character
    is a single blank. *)
Lemma collapse_fixed (s : str) :
  no_adj U s ->
  (forall c, In c s -> is_space U c = true -> c = SPACE) ->
  forall b,
    (b = true -> match s with [] => True | d :: _ => is_space U d = false end) ->
    sub_runs (is_space U) [SPACE] b s = s.
Proof.
  induction s as [|x s IH]; intros Hadj Hsp b Hb; simpl; [reflexivity|].
  destruct Hadj as [Hx Hadj].
  assert (Hsp' : forall c, In c s -> is_space U c = true -> c = SPACE)
    by (intros c Hc; apply Hsp; now right).
  destruct (is_space U x) eqn:Ex.
  - destruct b; [specialize (Hb eq_refl); simpl in Hb; congruence|].
    simpl. rewrite (Hsp x (or_introl eq_refl) Ex). f_equal.
    apply IH; [exact Hadj | exact Hsp' | intros _; now apply Hx].
  - f_equal. apply IH; [exact Hadj | exact Hsp' | discriminate].
Qed.

Lemma normalize_title_run (t : str) : no_space_run U (normalize_title U t).
Proof.
  destruct t as [|x t]; simpl.
  - intros l c d r H. now destruct l.
  - match goal with |- no_space_run U (strip U ?y) =>
      destruct (strip_sub U y) as [l [r Hlr]];
      apply (no_space_run_sub U l _ r); rewrite <- Hlr
    end.
    apply no_adj_run. exact (proj1 (collapse_no_adj U _ false)).
Qed.

Hypothesis HU : UnicodeLaws U.

Lemma normalize_title_chars (t : str) (c : char) :
  In c (normalize_title U t) ->
  c = SPACE \/ (In c (str_lower U t) /\ is_digit U c = false
                /\ is_word U c = true /\ is_space U c = false).
Proof.
  destruct t as [|x t]; [contradiction|]. unfold normalize_title.
  intro Hc. apply strip_in in Hc. unfold re_sub_plus in Hc.
  apply sub_runs_in in Hc as [[<-|[]]|[Hc Hs]]; [now left|right].
  apply re_sub_char_in in Hc as [Hc Hw].
  apply sub_runs_in in Hc as [[]|[Hc Hd]].
  apply negb_false_iff in Hw. rewrite Hs, orb_false_r in Hw. auto.
Qed.

Lemma lower_idem (s : str) : str_lower U (str_lower U s) = str_lower U s.
Proof.
  apply (lower_of_stable U HU). intros c Hc. exact (lower_chars_stable U HU s c Hc).
Qed.

Lemma lower_nil : str_lower U [] = [].
Proof. apply (lower_of_stable U HU). intros c []. Qed.

Lemma normalize_title_fixed (t : str) :
  normalize_title U (normalize_title U t) = normalize_title U t.
Proof.
  pose proof (normalize_title_chars t) as Hch.
  pose proof (normalize_title_run t) as Hrun.
  assert (Hstrip : strip U (normalize_title U t) = normalize_title U t).
  { destruct t as [|x t]; [reflexivity|]. unfold normalize_title. apply strip_idem. }
  destruct (normalize_title U t) as [|y r] eqn:Er; [reflexivity|].
  unfold normalize_title.
  assert (Hlow : str_lower U (y :: r) = y :: r).
  { apply (lower_of_stable U HU). intros c Hc. apply Hch in Hc as [->|[Hc _]].
    - exact (lower_space U HU).
    - exact (lower_chars_stable U HU _ _ Hc). }
  rewrite Hlow. unfold re_sub_plus.
  rewrite (sub_runs_none (is_digit U) [] (y :: r)).
  2:{ intros c Hc. apply Hch in Hc as [->|[_ [Hd _]]];
        [exact (space_not_digit U HU) | exact Hd]. }
  rewrite (re_sub_char_none _ [] (y :: r)).
  2:{ intros c Hc. apply negb_false_iff.
      apply Hch in Hc as [->|[_ [_ [Hw _]]]].
      - rewrite (space_is_space U HU). apply orb_true_r.
      - now rewrite Hw. }
  rewrite collapse_fixed; [exact Hstrip | now apply run_no_adj | | discriminate].
  intros c Hc Hs. apply Hch in Hc as [->|[_ [_ [_ Hn]]]]; [reflexivity | congruence].
Qed.

Lemma normalize_title_lower (t : str) :
  normalize_title U (str_lower U t) = normalize_title U t.
Proof.
  destruct t as [|x t]; [now rewrite lower_nil|].
  destruct (str_lower U (x :: t)) as [|y l] eqn:El.
  - unfold normalize_title. rewrite El. reflexivity.
  - unfold normalize_title. rewrite <- El. now rewrite lower_idem.
Qed.

(** X1: normalizing a normalized title changes nothing, and a title and its
    lower case have the same normal form. *)
Theorem normalize_title_idempotent (t : str) :
  normalize_title U (normalize_title U t) = normalize_title U t
  /\ normalize_title U (str_lower U t) = normalize_title U t.
Proof. split; [apply normalize_title_fixed | apply normalize_title_lower]. Qed.

(** X2: two titles that differ in case only, on links whose hosts differ in
    case only, have one fingerprint; so has a title and its normal form. *)
Theorem fingerprint_ignores_case (t1 t2 link1 link2 : str) :
  str_lower U t1 = str_lower U t2 ->
  str_lower U (url_netloc L link1) = str_lower U (url_netloc L link2) ->
  fingerprint U L t1 link1 = fingerprint U L t2 link2
  /\ fingerprint U L (normalize_title U t1) link1 = fingerprint U L t1 link1.
Proof.
  intros Ht Hl. unfold fingerprint. rewrite Hl. split.
  - now rewrite <- (normalize_title_lower t1), Ht, normalize_title_lower.
  - now rewrite normalize_title_fixed.
Qed.

End TitleFacts.

(** ** The calls to the model *)

Lemma firstn_nonempty {A : Type} (n : nat) (l : list A) :
  l <> [] -> firstn (Datatypes.S n) l <> [].
Proof. destruct l; [congruence | discriminate]. Qed.

Lemma long_nonempty {A : Type} (n : nat) (l : list A) :
  (List.length l <? Datatypes.S n)%nat = false -> l <> [].
Proof. destruct l; [discriminate | discriminate]. Qed.

Lemma from_first_some (c : char) (s m : str) :
  from_first c s = Some m ->
  exists pre rest, s = pre ++ m /\ m = c :: rest /\ ~ In c pre.
Proof.
  revert m. induction s as [|x s IH]; intros m H; simpl in H; [discriminate|].
  destruct (N.eqb_spec x c) as [->|Hne].
  - injection H as <-. exists [], s. repeat split. intros [].
  - destruct (IH m H) as [pre [rest [-> [-> Hpre]]]].
    exists (x :: pre), rest. repeat split. intros [Hx|Hx]; [congruence | contradiction].
Qed.

Lemma from_first_none (c : char) (s : str) : from_first c s = None -> ~ In c s.
Proof.
  induction s as [|x s IH]; simpl; intros H; [tauto|].
  destruct (N.eqb_spec x c) as [->|Hne]; [discriminate|].
  intros [Hx|Hx]; [congruence | now apply IH].
Qed.

Lemma upto_last_some (c : char) (s m : str) :
  upto_last c s = Some m ->
  exists mid post, s = m ++ post /\ m = mid ++ [c] /\ ~ In c post.
Proof.
  unfold upto_last. destruct (from_first c (rev s)) as [m'|] eqn:E; [|discriminate].
  intro H. injection H as <-.
  destruct (from_first_some c (rev s) m' E) as [pre [rest [Hs [-> Hpre]]]].
  exists (rev rest), (rev pre). repeat split.
  - rewrite <- (rev_involutive s), Hs, rev_app_distr. reflexivity.
  - intro Hin. apply Hpre. now apply in_rev.
Qed.

Lemma upto_last_none (c : char) (s : str) : upto_last c s = None -> ~ In c s.
Proof.
  unfold upto_last. destruct (from_first c (rev s)) eqn:E; [discriminate|].
  intros _ Hin. apply (from_first_none c (rev s) E). now apply in_rev in Hin.
Qed.

(** Where the first [a] of a text stands decides what follows it. *)
Lemma first_occurrence {A : Type} (a : A) (l1 r1 l2 r2 : list A) :
  l1 ++ a :: r1 = l2 ++ a :: r2 -> ~ In a l1 -> exists l, r1 = l ++ r2.
Proof.
  revert l2. induction l1 as [|x l1 IH]; intros l2 H Hnot.
  - destruct l2 as [|y l2]; simpl in H.
    + injection H as ->. now exists [].
    + injection H as _ ->. exists (l2 ++ [a]). now rewrite <- app_assoc.
  - destruct l2 as [|y l2]; simpl in H.
    + injection H as -> _. exfalso. apply Hnot. now left.
    + injection H as _ H. apply (IH l2 H). intro Hin. apply Hnot. now right.
Qed.

(** X5: the text _extract_json hands to the JSON parser runs from the first
    opening brace of the answer to its last closing brace; nothing is handed
    over exactly when no closing brace follows an opening one. *)
Theorem brace_match_span (text : str) :
  (forall m, brace_match text = Some m ->
     exists pre mid post,
       text = pre ++ m ++ post /\ m = LBRACE :: mid ++ [RBRACE]
       /\ ~ In LBRACE pre /\ ~ In RBRACE post)
  /\ (brace_match text = None ->
      forall pre mid post, text <> pre ++ LBRACE :: mid ++ RBRACE :: post).
Proof.
  unfold brace_match. split.
  - intros m H. destruct (from_first LBRACE text) as [[|x rest]|] eqn:E; try discriminate.
    destruct (from_first_some _ _ _ E) as [pre [rest' [Ht [Hm Hpre]]]].
    injection Hm as -> <-.
    destruct (upto_last RBRACE rest) as [m'|] eqn:E'; [|discriminate].
    injection H as <-.
    destruct (upto_last_some _ _ _ E') as [mid [post [Hr [-> Hpost]]]].
    exists pre, mid, post. repeat split; try assumption.
    rewrite Ht, Hr. simpl. now rewrite <- app_assoc.
  - intros H pre mid post Ht.
    destruct (from_first LBRACE text) as [[|x rest]|] eqn:E.
    + destruct (from_first_some _ _ _ E) as [? [? [_ [Hm _]]]]. discriminate.
    + destruct (from_first_some _ _ _ E) as [pre' [rest' [Ht' [Hm Hpre]]]].
      injection Hm as -> <-.
      destruct (upto_last RBRACE rest) eqn:E'; [discriminate|].
      rewrite Ht' in Ht. destruct (first_occurrence _ _ _ _ _ Ht Hpre) as [l Hl].
      apply (upto_last_none _ _ E'). rewrite Hl.
      apply in_or_app; right. apply in_or_app; right. now left.
    + apply (from_first_none _ _ E). rewrite Ht. apply in_or_app; right. now left.
Qed.

Section ModelCalls.

Variable U : Unicode.
Variable L : Library.

(** X4: validate_topic never raises, and it answers False only to a reply
    of the model that carries an answer without "yes" in it; every other
    outcome of the call is an acceptance. *)
Theorem validate_topic_rejects_on_answer (title content topic_name : str) :
  (exists b, validate_topic U L title content topic_name = Ok b)
  /\ (validate_topic U L title content topic_name = Ok false <->
      exists ok raw,
        post L (ValidateCall title (firstn 1500 content) topic_name)
        = Replied ok (Response raw)
        /\ contains (u "yes") (strip U (str_lower U raw)) = false).
Proof.
  split; [apply validate_topic_total|].
  unfold validate_topic, try_except.
  destruct (post L _) as [|ok [| |raw]]; split;
    try discriminate;
    try (intros [ok' [raw' [H _]]]; discriminate).
  - intro H. injection H as H. now exists ok, raw.
  - intros [ok' [raw' [H Hc]]]. injection H as _ <-. now rewrite Hc.
Qed.

Lemma force_facts_summary (title content : str) :
  title <> [] -> summary (_force_facts L title content) <> [].
Proof.
  intro Ht. unfold _force_facts, try_except.
  destruct (post L _) as [|ok [| |raw]]; cbn [bind response_text summary];
    try (now apply firstn_nonempty);
    case_extract_json; cbn [bind summary]; try (now apply firstn_nonempty);
    match goal with
    | |- context [(?a <? 50)%nat] => destruct (a <? 50)%nat eqn:El
    end; [now apply firstn_nonempty | now apply (long_nonempty 49)].
Qed.

Lemma analyze_news_facts (title content : str) :
  exists a,
    analyze_news U L title content = Ok a
    /\ (important a = 0 \/ important a = 1)
    /\ (title <> [] -> summary a <> []).
Proof.
  assert (Hdone : forall a0 : analysis,
             important a0 = 0 \/ important a0 = 1 ->
             (title <> [] -> summary a0 <> []) ->
             exists a, Ok a0 = Ok a /\ (important a = 0 \/ important a = 1)
                       /\ (title <> [] -> summary a <> [])).
  { intros a0 H1 H2. now exists a0. }
  assert (Hdefault : forall A (r : result A),
             exists a, Ok {| summary := firstn 300 title; important := 0 |} = Ok a
                       /\ (important a = 0 \/ important a = 1)
                       /\ (title <> [] -> summary a <> [])).
  { intros A r. apply Hdone; [now left|]. cbn [summary]. apply firstn_nonempty. }
  assert (Hforce : forall c,
             exists a, Ok (_force_facts L title c) = Ok a
                       /\ (important a = 0 \/ important a = 1)
                       /\ (title <> [] -> summary a <> [])).
  { intro c. apply Hdone; [apply force_facts_bit | apply force_facts_summary]. }
  unfold analyze_news, try_except.
  destruct (post L _) as [|[|] [| |raw]]; cbn [bind response_text];
    try exact (Hdefault unit (Ok tt));
    case_extract_json; cbn [bind];
    try exact (Hdefault unit (Ok tt)); try apply Hforce;
    match goal with
    | |- context [if orb (?a <? 100)%nat ?b then _ else _] =>
        destruct (a <? 100)%nat eqn:El; destruct b; cbn [orb]
    end;
    try apply Hforce;
    (apply Hdone;
     [cbn [important]; case_str_in; [now right | now left]
     | cbn [summary]; intros _; now apply (long_nonempty 99)]).
Qed.

(** X3: analyze_news never raises, whatever the model does; the importance
    it returns is 0 or 1, and for a title that is not empty so is the
    summary. *)
Theorem analyze_news_sound (title content : str) :
  exists a,
    analyze_news U L title content = Ok a
    /\ (important a = 0 \/ important a = 1)
    /\ (title <> [] -> summary a <> []).
Proof. apply analyze_news_facts. Qed.

(** X6: answer_question never returns the empty string; when the context,
    trimmed, is shorter than 50 characters, the answer is the fixed notice
    whatever the model would reply. *)
Theorem answer_question_never_empty (ask : str -> str -> http_reply)
  (context question : str) :
  answer_question U ask context question <> []
  /\ ((List.length (strip U context) < 50)%nat ->
      forall ask', answer_question U ask' context question = MSG_SHORT).
Proof.
  split.
  - unfold answer_question. destruct context as [|c context]; [discriminate|].
    destruct (_ <? 50)%nat; [discriminate|].
    destruct (ask _ _) as [|ok [| |raw]]; try discriminate.
    destruct (strip U raw); discriminate.
  - intros Hlen ask'. unfold answer_question.
    destruct context as [|c context]; [reflexivity|].
    apply Nat.ltb_lt in Hlen. now rewrite Hlen.
Qed.

End ModelCalls.

(** ** What process_news_entry does to the store *)

Lemma max_id_ge (ids : list Z) (seq i : Z) : In i ids -> i <= fold_right Z.max seq ids.
Proof.
  induction ids as [|x ids IH]; cbn [fold_right In]; [contradiction|].
  intros [->|H]; [apply Z.le_max_l|].
  etransitivity; [exact (IH H) | apply Z.le_max_r].
Qed.

Lemma fingerprint_exists_in (fp : str) (db : database) :
  fingerprint_exists fp db = false -> ~ In fp (map n_fingerprint (news db)).
Proof.
  unfold fingerprint_exists. intros H Hin. apply in_map_iff in Hin as [r [<- Hr]].
  assert (Ht : existsb (fun x => str_eqb (n_fingerprint x) (n_fingerprint r)) (news db) = true).
  { apply existsb_exists. exists r. split; [exact Hr | apply str_eqb_refl]. }
  congruence.
Qed.

Lemma nodup_snoc {A : Type} (l : list A) (x : A) : NoDup l -> ~ In x l -> NoDup (l ++ [x]).
Proof.
  intros Hl Hx. apply NoDup_app; [exact Hl | repeat constructor; intros [] |].
  intros a Ha [<-|[]]. contradiction.
Qed.

Lemma insert_news_ok (db db' : database) (row : Z -> news_row) (id : Z) :
  insert_news db row = Ok (id, db') ->
  news db' = news db ++ [row id]
  /\ newsletter_stats db' = newsletter_stats db
  /\ fingerprint_exists (n_fingerprint (row id)) db = false
  /\ forall r, In r (news db) -> n_id r < id.
Proof.
  unfold insert_news.
  pose proof (max_id_ge (map n_id (news db)) (news_seq db)) as Hmax.
  revert Hmax. generalize (fold_right Z.max (news_seq db) (map n_id (news db))).
  intros m Hmax.
  destruct (fingerprint_exists _ db) eqn:Hfp; [discriminate|].
  intro H. assert (Hid : 1 + m = id) by congruence.
  rewrite Hid in H, Hfp. injection H as <-. cbn [news newsletter_stats].
  repeat split; try assumption.
  intros r Hr. specialize (Hmax (n_id r) (in_map n_id _ _ Hr)). lia.
Qed.

Lemma split_first_out (sep : char) (s : str) : ~ In sep (split_first sep s).
Proof.
  induction s as [|c s IH]; simpl; [tauto|].
  destruct (N.eqb_spec c sep); [tauto|]. intros [H|H]; [congruence | contradiction].
Qed.

Section StoreEffects.

Variable U : Unicode.
Variable L : Library.
Variable cfg : Config.

(** Either nothing happened, or the entry went through every stage and its
    row was inserted. *)
Lemma process_cases (e : entry) (src : str) (clk : clock) (db : database) :
  process_news_entry U L cfg e src clk db = (None, db)
  \/ exists p a id db',
       prepare U L cfg e (t_age clk) = Some p
       /\ analyse U L cfg p src = Some a
       /\ insert_news db (new_row U L p a src (t_insert clk)) = Ok (id, db')
       /\ process_news_entry U L cfg e src clk db
          = (Some {| o_id := id; o_topic := a_topic a; o_important := a_important a |},
             db').
Proof.
  unfold process_news_entry. cbn [step].
  destruct (prepare U L cfg e (t_age clk)) as [p|]; [|now left].
  destruct (fingerprint_exists (p_fp p) db); [now left|]. cbn [fst snd step].
  destruct (like_raises (p_link p) db) eqn:Hlk; [now left|].
  destruct (check_for_duplicates U L cfg (p_title p) None (p_link p) db (t_dup1 clk));
    [now left|]. cbn [fst snd step].
  destruct (analyse U L cfg p src) as [a|] eqn:Ha; [|now left].
  cbn [fst snd step result_of]. unfold insert_section. rewrite Hlk.
  destruct (check_for_duplicates U L cfg (p_title p) (Some (a_topic a)) (p_link p) db
              (t_dup2 clk)); [now left|].
  destruct (insert_news db (new_row U L p a src (t_insert clk))) as [[id db']|] eqn:Hi;
    [|now left].
  right. exists p, a, id, db'. repeat split; try assumption; reflexivity.
Qed.

(** X7: process_news_entry leaves the store as it was when it returns None;
    when it returns a result, the store has one row more, with the id, topic
    and importance of the result and the fingerprint of the entry; that
    fingerprint was not in the store, and the id is above every id there.
    The statistics table is not touched. *)
Theorem process_news_entry_effect (e : entry) (src : str) (clk : clock) (db : database) :
  let rd := process_news_entry U L cfg e src clk db in
  (fst rd = None -> snd rd = db)
  /\ (forall o, fst rd = Some o ->
        exists r,
          news (snd rd) = news db ++ [r]
          /\ n_id r = o_id o /\ n_topic r = o_topic o /\ n_important r = o_important o
          /\ n_fingerprint r = entry_fingerprint U L e
          /\ fingerprint_exists (n_fingerprint r) db = false
          /\ forall r', In r' (news db) -> n_id r' < n_id r)
  /\ newsletter_stats (snd rd) = newsletter_stats db.
Proof.
  cbv zeta.
  destruct (process_cases e src clk db) as [->|[p [a [id [db' [Hp [Ha [Hi ->]]]]]]]];
    cbn [fst snd].
  - repeat split. discriminate.
  - destruct (insert_news_ok _ _ _ _ Hi) as [Hn [Hs [Hf Hid]]].
    split; [discriminate|]. split; [|exact Hs].
    intros o Ho. injection Ho as <-.
    exists (new_row U L p a src (t_insert clk) id).
    repeat split; try assumption.
    cbn [new_row n_fingerprint]. exact (prepare_fp U L cfg _ _ _ Hp).
Qed.

Lemma process_keeps_store_ok (e : entry) (src : str) (clk : clock) (db : database) :
  store_ok db -> store_ok (snd (process_news_entry U L cfg e src clk db)).
Proof.
  intros [Hf Hi].
  destruct (process_cases e src clk db) as [->|[p [a [id [db' [_ [_ [Hins ->]]]]]]]];
    cbn [snd]; [now split|].
  destruct (insert_news_ok _ _ _ _ Hins) as [Hn [_ [Hfp Hid]]].
  unfold store_ok. rewrite Hn, !map_app. cbn [map]. split.
  - apply nodup_snoc; [exact Hf | now apply fingerprint_exists_in].
  - apply nodup_snoc; [exact Hi|]. intro Hin.
    apply in_map_iff in Hin as [r [Hr Hin]]. specialize (Hid r Hin).
    cbn [new_row n_id] in Hr. lia.
Qed.

(** X8: process_news_entry keeps the fingerprints and the ids of the stored
    articles unique. *)
Theorem process_news_entry_keeps_unique (e : entry) (src : str) (clk : clock)
  (db : database) :
  store_ok db -> store_ok (snd (process_news_entry U L cfg e src clk db)).
Proof. apply process_keeps_store_ok. Qed.

(** X9: an entry that is stored leaves its fingerprint in the store; and
    on any store that holds a row with that fingerprint, an entry with the
    same fingerprint is not stored: processing it returns None and leaves
    the store.  This lasts as long as the row does: the retention step may
    delete it, and the store then no longer holds the fingerprint. *)
Theorem same_fingerprint_never_stored_twice (e e' : entry) (src src' : str)
  (clk clk' : clock) (db : database) (o : outcome) :
  fst (process_news_entry U L cfg e src clk db) = Some o ->
  entry_fingerprint U L e' = entry_fingerprint U L e ->
  fingerprint_exists (entry_fingerprint U L e)
    (snd (process_news_entry U L cfg e src clk db)) = true
  /\ forall db2,
       fingerprint_exists (entry_fingerprint U L e) db2 = true ->
       process_news_entry U L cfg e' src' clk' db2 = (None, db2).
Proof.
  intros Ho Hsame. split.
  - destruct (process_cases e src clk db) as [Hn|[p [a [id [db' [Hp [_ [Hins Hr]]]]]]]].
    { rewrite Hn in Ho. discriminate. }
    rewrite Hr. cbn [snd].
    destruct (insert_news_ok _ _ _ _ Hins) as [Hn _].
    rewrite <- (prepare_fp U L cfg _ _ _ Hp).
    apply (fingerprint_exists_last db db' _ Hn).
  - intros db2 Hfp. rewrite <- Hsame in Hfp.
    unfold process_news_entry. cbn [step].
    destruct (prepare U L cfg e' (t_age clk')) as [p'|] eqn:Hp'; [|reflexivity].
    now rewrite (prepare_fp U L cfg _ _ _ Hp'), Hfp.
Qed.

Lemma prepare_fields (e : entry) (now : Z) (p : prepared) :
  prepare U L cfg e now = Some p ->
  p_title p = strip U (e_title e) /\ p_title p <> []
  /\ p_link p = split_first 63%N (e_link e) /\ p_link p <> []
  /\ is_blacklisted U L cfg (p_link p) (p_title p) = false
  /\ now - MAX_NEWS_AGE_HOURS cfg * 3600 <= p_published p
  /\ (e_published_parsed e = Some (p_published p)
      \/ (e_published_parsed e = None /\ e_updated_parsed e = Some (p_published p))).
Proof.
  unfold prepare.
  destruct (strip U (e_title e)) as [|c t]; [discriminate|].
  destruct (split_first 63%N (e_link e)) as [|d l]; [discriminate|].
  destruct (is_blacklisted U L cfg (d :: l) (c :: t)) eqn:Hb; [discriminate|].
  destruct (e_published_parsed e) as [t0|]; [|destruct (e_updated_parsed e) as [t0|]];
    try discriminate;
    (destruct (t0 <? now - MAX_NEWS_AGE_HOURS cfg * 3600) eqn:Hage; [discriminate|];
     intro H; injection H as <-; cbn [p_title p_link p_published];
     apply Z.ltb_ge in Hage; repeat split; try assumption; try discriminate; auto).
Qed.

Lemma analyse_fields (p : prepared) (src : str) (a : analysed) :
  p_title p <> [] ->
  analyse U L cfg p src = Some a ->
  a_topic a <> [] /\ a_summary a <> [] /\ (a_important a = 0 \/ a_important a = 1)
  /\ a_content a = extract_news_content L (p_link p)
  /\ detect_topic U L cfg (p_title p)
       (match a_content a with [] => p_title p | _ :: _ => firstn 500 (a_content a) end)
     = Ok (Some (a_topic a))
  /\ (str_eqb src (u "google") = true -> a_summary a = p_title p /\ a_important a = 0).
Proof.
  intros Ht. unfold analyse.
  destruct (detect_topic U L cfg (p_title p) _) as [[[|c t]|]|] eqn:Hd; try discriminate.
  intro H. injection H as <-. cbn [a_topic a_summary a_important a_content].
  split; [discriminate|].
  destruct (str_eqb src (u "google")); cbn [negb fst snd].
  - repeat split; auto. 
  - destruct (analyze_news_facts U L (p_title p) (extract_news_content L (p_link p)))
      as [an [-> [Hbit Hsum]]]. cbn [fst snd].
    repeat split; auto; try discriminate.
    destruct (summary an) eqn:Es; [exact Ht | discriminate].
Qed.

End StoreEffects.

Lemma detect_topic_some_key (U : Unicode) (L : Library) (cfg : Config)
  (title content tid : str) :
  config_ok cfg ->
  detect_topic U L cfg title content = Ok (Some tid) ->
  In tid (map fst (TOPICS cfg)).
Proof.
  intros Hcfg Hd.
  pose proof (scoring_total U cfg Hcfg title content) as Hsc.
  pose proof (scores_of_keys (total_score U cfg title content) (map fst (TOPICS cfg)))
    as Hkeys.
  revert Hsc Hkeys.
  generalize (scores_of (total_score U cfg title content) (map fst (TOPICS cfg))).
  intros scores Hsc Hkeys.
  destruct (STRICT_BELARUS_ONLY cfg
            && is_wrong_region U cfg (str_lower U (title ++ SPACE :: content))) eqn:Hgate.
  { unfold detect_topic in Hd. rewrite Hgate in Hd. discriminate. }
  destruct (filter (fun ts => 2 <=? snd ts) scores) as [|c cs] eqn:Hf.
  { unfold detect_topic in Hd. rewrite Hgate, Hsc in Hd. cbn [bind] in Hd.
    rewrite Hf in Hd. discriminate. }
  destruct (detect_topic_candidate U L cfg title content scores c cs Hgate Hsc Hkeys Hf)
    as [tid' [Hd' Hin]].
  rewrite Hd in Hd'. injection Hd' as ->. exact Hin.
Qed.

Lemma firstn_le {A : Type} (n : nat) (l : list A) : (List.length (firstn n l) <= n)%nat.
Proof. rewrite length_firstn. apply Nat.le_min_l. Qed.

Section StoredRows.

Variable U : Unicode.
Variable L : Library.
Variable cfg : Config.

(** X10: a stored article has a title and a link that are not empty, a link
    without query string, a summary that is not empty, fields within their
    lengths (500, 1000 and 4000 characters, 200 for the normalized title), a
    topic that is not empty and, the configuration being well formed, one of
    TOPICS, an importance of 0 or 1, and a date no older than
    MAX_NEWS_AGE_HOURS when its age was checked. *)
Theorem stored_row_invariants (e : entry) (src : str) (clk : clock) (db : database)
  (o : outcome) :
  fst (process_news_entry U L cfg e src clk db) = Some o ->
  exists r,
    news (snd (process_news_entry U L cfg e src clk db)) = news db ++ [r]
    /\ n_title r = firstn 500 (strip U (e_title e)) /\ n_title r <> []
    /\ n_link r = split_first 63%N (e_link e) /\ n_link r <> [] /\ ~ In 63%N (n_link r)
    /\ n_summary r <> []
    /\ (List.length (n_summary r) <= 1000)%nat
    /\ (List.length (n_full_text r) <= 4000)%nat
    /\ n_normalized_title r = Some (firstn 200 (normalize_title U (strip U (e_title e))))
    /\ n_topic r <> []
    /\ (config_ok cfg -> In (n_topic r) (map fst (TOPICS cfg)))
    /\ (n_important r = 0 \/ n_important r = 1)
    /\ n_source r = src
    /\ t_age clk - MAX_NEWS_AGE_HOURS cfg * 3600 <= n_published r.
Proof.
  intro Ho.
  destruct (process_cases U L cfg e src clk db) as [Hn|[p [a [id [db' [Hp [Ha [Hins Hr]]]]]]]].
  { rewrite Hn in Ho. discriminate. }
  rewrite Hr. cbn [snd].
  destruct (insert_news_ok _ _ _ _ Hins) as [Hnews _].
  destruct (prepare_fields U L cfg _ _ _ Hp) as [Ht [Htn [Hl [Hln [_ [Hage _]]]]]].
  destruct (analyse_fields U L cfg p src a Htn Ha) as [Htop [Hsum [Hbit [_ [Hd _]]]]].
  exists (new_row U L p a src (t_insert clk) id).
  cbn [new_row n_title n_link n_summary n_full_text n_normalized_title n_topic
       n_important n_source n_published].
  rewrite <- Ht, <- Hl.
  repeat split; try assumption; try apply firstn_le.
  - destruct (p_title p); [congruence | discriminate].
  - rewrite Hl. apply split_first_out.
  - destruct (a_summary a); [congruence | discriminate].
  - intro Hcfg. exact (detect_topic_some_key U L cfg _ _ _ Hcfg Hd).
Qed.

(** X11: for the source google the model is not asked for a summary: the
    stored summary is the title, cut at 1000 characters, and the importance
    is 0. *)
Theorem google_entries_keep_title (e : entry) (clk : clock) (db : database) (o : outcome) :
  fst (process_news_entry U L cfg e (u "google") clk db) = Some o ->
  o_important o = 0
  /\ exists r,
       news (snd (process_news_entry U L cfg e (u "google") clk db)) = news db ++ [r]
       /\ n_summary r = firstn 1000 (strip U (e_title e))
       /\ n_important r = 0.
Proof.
  intro Ho.
  destruct (process_cases U L cfg e (u "google") clk db)
    as [Hn|[p [a [id [db' [Hp [Ha [Hins Hr]]]]]]]].
  { rewrite Hn in Ho. discriminate. }
  rewrite Hr in Ho |- *. cbn [fst snd] in *. injection Ho as <-. cbn [o_important].
  destruct (insert_news_ok _ _ _ _ Hins) as [Hnews _].
  destruct (prepare_fields U L cfg _ _ _ Hp) as [Ht [Htn _]].
  destruct (analyse_fields U L cfg p (u "google") a Htn Ha) as [_ [_ [_ [_ [_ Hg]]]]].
  destruct (Hg eq_refl) as [Hs Hi].
  split; [exact Hi|].
  exists (new_row U L p a (u "google") (t_insert clk) id).
  cbn [new_row n_summary n_important]. rewrite Hs, Ht. now repeat split.
Qed.

Lemma feed_loop_facts (entries : list (entry * clock)) (src : str) :
  forall db,
    (List.length (fst (feed_loop U L cfg entries src db)) <= List.length entries)%nat
    /\ (exists added,
          news (snd (feed_loop U L cfg entries src db)) = news db ++ added
          /\ map n_id added = map o_id (fst (feed_loop U L cfg entries src db))
          /\ map n_topic added = map o_topic (fst (feed_loop U L cfg entries src db)))
    /\ (store_ok db -> store_ok (snd (feed_loop U L cfg entries src db)))
    /\ newsletter_stats (snd (feed_loop U L cfg entries src db)) = newsletter_stats db.
Proof.
  induction entries as [|[e clk] entries IH]; intro db; cbn [feed_loop fst snd].
  - split; [simpl; lia|]. split; [exists []; now rewrite app_nil_r|].
    split; [tauto | reflexivity].
  - destruct (IH (snd (process_news_entry U L cfg e src clk db)))
      as [Hlen [[added [Hn [Hid Htop]]] [Hok Hst]]].
    pose proof (process_keeps_store_ok U L cfg e src clk db) as Hkeep.
    destruct (process_cases U L cfg e src clk db)
      as [Hnone|[p [a [id [db' [Hp [Ha [Hins Hr]]]]]]]].
    + rewrite Hnone in *. cbn [fst snd] in *.
      split; [simpl; lia|]. split; [now exists added|]. split; [exact Hok | exact Hst].
    + rewrite Hr in *. cbn [fst snd] in *.
      destruct (insert_news_ok _ _ _ _ Hins) as [Hnews [Hs' _]].
      split; [simpl; lia|]. split; [|split].
      * exists (new_row U L p a src (t_insert clk) id :: added).
        rewrite Hn, Hnews, <- app_assoc. cbn [map app new_row n_id n_topic o_id o_topic].
        now rewrite Hid, Htop.
      * intro H. apply Hok. now apply Hkeep.
      * now rewrite Hst.
Qed.

End StoredRows.

(** ** Feeds and duplicates *)

Lemma sql_like_any (s : str) : sql_like [37%N] s = true.
Proof.
  induction s as [|x s IH]; [reflexivity|].
  cbn [sql_like N.eqb Pos.eqb] in IH |- *. cbn [orb]. exact IH.
Qed.

Lemma sql_like_percent_skip (p : str) (d : N) (s : str) :
  sql_like p s = true -> sql_like (37%N :: p) (d :: s) = true.
Proof.
  intro H. cbn [sql_like N.eqb Pos.eqb].
  destruct s as [|x s]; rewrite H; now rewrite ?orb_true_r.
Qed.

(** [LIKE 'p%'] finds every text that starts with [p]. *)
Lemma sql_like_prefix (p s : str) :
  startswith p s = true -> sql_like (p ++ [37%N]) s = true.
Proof.
  revert s. induction p as [|c p IH]; intros s H.
  - apply sql_like_any.
  - destruct s as [|d s]; [discriminate|]. cbn [startswith] in H.
    apply andb_true_iff in H as [Hcd Hp]. apply N.eqb_eq in Hcd. subst d.
    specialize (IH s Hp). cbn [app].
    destruct (N.eqb c 37) eqn:E.
    + apply N.eqb_eq in E. subst c. now apply sql_like_percent_skip.
    + cbn [sql_like]. rewrite E, IH, N.eqb_refl. now rewrite orb_true_r.
Qed.

Section FeedsAndDuplicates.

Variable U : Unicode.
Variable L : Library.
Variable cfg : Config.

(** X12: parse_feed processes the first 15 entries of the feed, in their
    order, each on the store the one before left, and no other: its result
    is that of the feed cut after 15 entries, and on a feed that begins with
    an entry it is the result of process_news_entry on that entry, put
    before what the next 14 entries give on the store it leaves.  So it
    returns at most 15 results, one for every row it adds to the store, with
    the id and the topic of the row, in order; it keeps fingerprints and ids
    unique; a feed that cannot be fetched gives no result and leaves the
    store. *)
Theorem parse_feed_results (fetched : option (list (entry * clock))) (src : str)
  (db : database) :
  let rd := parse_feed U L cfg fetched src db in
  (List.length (fst rd) <= 15)%nat
  /\ (exists added,
        news (snd rd) = news db ++ added
        /\ map n_id added = map o_id (fst rd)
        /\ map n_topic added = map o_topic (fst rd))
  /\ (store_ok db -> store_ok (snd rd))
  /\ (fetched = None -> rd = ([], db))
  /\ (fetched = Some [] -> rd = ([], db))
  /\ (forall entries,
        fetched = Some entries -> rd = parse_feed U L cfg (Some (firstn 15 entries)) src db)
  /\ (forall ec rest,
        fetched = Some (ec :: rest) ->
        let first := process_news_entry U L cfg (fst ec) src (snd ec) db in
        let others := parse_feed U L cfg (Some (firstn 14 rest)) src (snd first) in
        rd = (match fst first with
              | Some res => res :: fst others
              | None => fst others
              end, snd others)).
Proof.
  cbv zeta.
  assert (Hcut : forall (n : nat) (l : list (entry * clock)),
             (n <= 15)%nat -> firstn 15 (firstn n l) = firstn n l).
  { intros n l Hn. rewrite firstn_firstn. now rewrite (Nat.min_r 15 n Hn). }
  split; [|split; [|split; [|split; [|split; [|split]]]]].
  - destruct fetched as [entries|]; cbn [parse_feed]; [|simpl; lia].
    destruct (feed_loop_facts U L cfg (firstn 15 entries) src db) as [Hlen _].
    pose proof (firstn_le 15 entries). lia.
  - destruct fetched as [entries|]; cbn [parse_feed].
    + now destruct (feed_loop_facts U L cfg (firstn 15 entries) src db) as [_ [Hadd _]].
    + exists []. now rewrite app_nil_r.
  - destruct fetched as [entries|]; cbn [parse_feed]; [|tauto].
    now destruct (feed_loop_facts U L cfg (firstn 15 entries) src db) as [_ [_ [Hok _]]].
  - intros ->. reflexivity.
  - intros ->. reflexivity.
  - intros entries ->. cbn [parse_feed]. now rewrite (Hcut 15%nat entries (Nat.le_refl 15)).
  - intros ec rest ->. cbn [parse_feed].
    rewrite (Hcut 14%nat rest) by lia.
    change (firstn 15 (ec :: rest)) with (ec :: firstn 14 rest).
    reflexivity.
Qed.

Lemma recent_rows_any_topic (topic : option str) (db : database) (now : Z) (r : news_row) :
  In r (recent_rows topic db now) -> In r (recent_rows None db now).
Proof.
  unfold recent_rows. destruct topic as [[|c t]|]; try tauto.
  rewrite !filter_In. intros [Hin H]. apply andb_true_iff in H as [_ H]. now split.
Qed.

(** X13: at one instant and on one store, an entry that is a duplicate
    within a topic is a duplicate when every topic is searched: the check
    made before the topic is known misses nothing the later one finds. *)
Theorem duplicate_in_topic_is_duplicate (title : str) (topic : option str) (link : str)
  (db : database) (now : Z) :
  check_for_duplicates U L cfg title topic link db now = true ->
  check_for_duplicates U L cfg title None link db now = true.
Proof.
  unfold check_for_duplicates. destruct (exact_link_match link db now); [reflexivity|].
  rewrite !existsb_exists. intros [r [Hin Hr]]. exists r.
  split; [now apply (recent_rows_any_topic topic) | exact Hr].
Qed.

(** X14: for a link whose LIKE pattern (the link without query string and
    fragment, and a percent sign) is within SQLite's limit of 50000 bytes,
    the SELECT of the link does not raise, and the entry is a duplicate as
    soon as an article of the last 24 hours has a link that starts with the
    entry's link, its query string and fragment taken off; so the same page
    under another query string is found, whatever the titles. *)
Theorem link_prefix_is_duplicate (title : str) (topic : option str) (link : str)
  (db : database) (now : Z) (r : news_row) :
  utf8_length (clean_link link ++ u "%") <= LIKE_PATTERN_LIMIT ->
  In r (news db) ->
  in_last_24h now (n_published r) = true ->
  startswith (clean_link link) (n_link r) = true ->
  like_raises link db = false
  /\ check_for_duplicates U L cfg title topic link db now = true.
Proof.
  intros Hfit Hin Hw Hp. split.
  - unfold like_raises.
    replace (LIKE_PATTERN_LIMIT <? utf8_length (clean_link link ++ u "%")) with false;
      [reflexivity|].
    symmetry. apply Z.ltb_ge. exact Hfit.
  - unfold check_for_duplicates.
    assert (He : exact_link_match link db now = true).
    { unfold exact_link_match. apply existsb_exists. exists r. split; [exact Hin|].
      change (u "%") with [37%N]. now rewrite (sql_like_prefix _ _ Hp), Hw. }
    now rewrite He.
Qed.

End FeedsAndDuplicates.

(** ** The statistics of a run *)

Lemma dict_get_set {V : Type} (d : dict V) (k t : str) (v : V) :
  dict_get (dict_set d k v) t = if str_eqb k t then Some v else dict_get d t.
Proof.
  induction d as [|[k' v'] d IH]; cbn [dict_set dict_get]; [reflexivity|].
  destruct (str_eqb k' k) eqn:Ek; cbn [dict_get].
  - apply str_eqb_eq in Ek. subst k'. now destruct (str_eqb k t).
  - rewrite IH. destruct (str_eqb k' t) eqn:Et; [|reflexivity].
    apply str_eqb_eq in Et. subst t.
    destruct (str_eqb k k') eqn:Ekk; [|reflexivity].
    apply str_eqb_eq in Ekk. subst k'. now rewrite str_eqb_refl in Ek.
Qed.

Lemma dict_set_key_in {V : Type} (d : dict V) (k x : str) (v : V) :
  In x (map fst (dict_set d k v)) -> x = k \/ In x (map fst d).
Proof.
  induction d as [|[k' v'] d IH]; cbn [dict_set map fst In].
  - intros [H|[]]; now left.
  - destruct (str_eqb k' k); cbn [map fst In]; [tauto|].
    intros [H|H]; [tauto | apply IH in H; tauto].
Qed.

Lemma dict_set_keys_nodup {V : Type} (d : dict V) (k : str) (v : V) :
  NoDup (map fst d) -> NoDup (map fst (dict_set d k v)).
Proof.
  induction d as [|[k' v'] d IH]; cbn [dict_set map fst]; intro H.
  - constructor; [intros [] | constructor].
  - destruct (str_eqb k' k) eqn:Ek; cbn [map fst]; [exact H|].
    inversion H as [|? ? Hn Hd]; subst. constructor; [|now apply IH].
    intro Hin. apply dict_set_key_in in Hin as [->|Hin]; [|contradiction].
    now rewrite str_eqb_refl in Ek.
Qed.

Lemma dict_get_absent {V : Type} (d : dict V) (t : str) :
  ~ In t (map fst d) -> dict_get d t = None.
Proof.
  induction d as [|[k v] d IH]; cbn [dict_get map fst In]; intro H; [reflexivity|].
  destruct (str_eqb k t) eqn:E; [apply str_eqb_eq in E; tauto | apply IH; tauto].
Qed.

Lemma counts_eq (a b : counts) :
  total a = total b -> c_important a = c_important b -> a = b.
Proof. destruct a, b; simpl; intros -> ->; reflexivity. Qed.

(** One round of the counting loop, read at a topic. *)
Lemma count_result_get (d : dict counts) (r : outcome) (t : str) :
  dict_get (count_result d r) t =
  if str_eqb (o_topic r) t
  then let c := dict_get_default d t {| total := 0; c_important := 0 |} in
       Some {| total := total c + 1;
               c_important := c_important c + (if o_important r =? 0 then 0 else 1) |}
  else dict_get d t.
Proof.
  unfold count_result, dict_get_default. cbv zeta.
  destruct (dict_get d (o_topic r)) as [c|] eqn:E.
  - rewrite E, dict_get_set.
    destruct (str_eqb (o_topic r) t) eqn:Et; [|reflexivity].
    apply str_eqb_eq in Et. subst t. rewrite E. f_equal.
    destruct (o_important r =? 0); apply counts_eq; simpl; lia.
  - rewrite dict_get_set, str_eqb_refl, !dict_get_set.
    destruct (str_eqb (o_topic r) t) eqn:Et; [|reflexivity].
    apply str_eqb_eq in Et. subst t. rewrite E. f_equal.
    destruct (o_important r =? 0); apply counts_eq; simpl; lia.
Qed.

Lemma count_result_keys (d : dict counts) (r : outcome) :
  NoDup (map fst d) -> NoDup (map fst (count_result d r)).
Proof.
  intro H. unfold count_result. cbv zeta.
  destruct (dict_get d (o_topic r)) as [c|] eqn:E.
  - rewrite E. now apply dict_set_keys_nodup.
  - rewrite dict_get_set, str_eqb_refl. now apply dict_set_keys_nodup, dict_set_keys_nodup.
Qed.

Lemma counting_from (rs : list outcome) (t : str) :
  forall d,
    let n := Z.of_nat (List.length (filter (fun r => str_eqb (o_topic r) t) rs)) in
    let m := Z.of_nat (List.length
               (filter (fun r => str_eqb (o_topic r) t && negb (o_important r =? 0)) rs)) in
    dict_get (fold_left count_result rs d) t =
    match dict_get d t with
    | Some c => Some {| total := total c + n; c_important := c_important c + m |}
    | None => if n =? 0 then None else Some {| total := n; c_important := m |}
    end.
Proof.
  induction rs as [|r rs IH]; intro d; cbv zeta.
  - cbn [fold_left filter List.length Z.of_nat Z.eqb].
    destruct (dict_get d t) as [c|]; [|reflexivity].
    f_equal. apply counts_eq; simpl; lia.
  - cbn [fold_left filter]. specialize (IH (count_result d r)). cbv zeta in IH.
    rewrite IH, count_result_get. unfold dict_get_default. clear IH.
    destruct (str_eqb (o_topic r) t) eqn:Et; cbn [andb]; [|reflexivity].
    cbv zeta. destruct (o_important r =? 0); cbn [negb List.length].
    all: set (n := List.length (filter (fun r0 => str_eqb (o_topic r0) t) rs)).
    all: set (m := List.length
                (filter (fun r0 => str_eqb (o_topic r0) t && negb (o_important r0 =? 0)) rs)).
    all: assert (Hn : (Z.of_nat (S n) =? 0) = false) by (apply Z.eqb_neq; lia).
    all: rewrite Hn.
    all: destruct (dict_get d t) as [c|]; f_equal; apply counts_eq;
      cbn [total c_important]; lia.
Qed.

Lemma run_stats_keys (all_results : list outcome) :
  NoDup (map fst (run_stats all_results)).
Proof.
  unfold run_stats.
  assert (H : forall d, NoDup (map fst d) ->
                        NoDup (map fst (fold_left count_result all_results d))).
  { induction all_results as [|r rs IH]; intros d Hd; cbn [fold_left]; [exact Hd|].
    apply IH. now apply count_result_keys. }
  apply H. constructor.
Qed.

(** X15: the statistics of a run hold, for every topic that has a result,
    the number of its results and the number of those marked important;
    a topic without a result has no entry; no topic has two entries. *)
Theorem run_stats_counts (all_results : list outcome) (t : str) :
  let n := List.length (filter (fun r => str_eqb (o_topic r) t) all_results) in
  let m := List.length
             (filter (fun r => str_eqb (o_topic r) t && negb (o_important r =? 0))
                     all_results) in
  dict_get (run_stats all_results) t =
    (if (n =? 0)%nat then None
     else Some {| total := Z.of_nat n; c_important := Z.of_nat m |})
  /\ (m <= n)%nat
  /\ NoDup (map fst (run_stats all_results)).
Proof.
  cbv zeta. split; [|split].
  - unfold run_stats. pose proof (counting_from all_results t []) as H. cbv zeta in H.
    rewrite H. cbn [dict_get].
    destruct (List.length (filter (fun r => str_eqb (o_topic r) t) all_results)) as [|n];
      [reflexivity|].
    cbn [Nat.eqb]. now replace (Z.of_nat (S n) =? 0) with false by (symmetry; apply Z.eqb_neq; lia).
  - induction all_results as [|r rs IH]; cbn [filter List.length]; [lia|].
    destruct (str_eqb (o_topic r) t); cbn [andb]; [|exact IH].
    destruct (negb (o_important r =? 0)); cbn [List.length]; lia.
  - apply run_stats_keys.
Qed.

(** Rows written one after the other into a dictionary, read at a key. *)
Lemma rows_into_dict {V W : Type} (val : V -> W) (l : dict V) (t : str) :
  NoDup (map fst l) ->
  forall d,
    dict_get (fold_left (fun s tc => dict_set s (fst tc) (val (snd tc))) l d) t =
    match dict_get l t with
    | Some c => Some (val c)
    | None => dict_get d t
    end.
Proof.
  induction l as [|[k c] l IH]; intros Hl d; cbn [fold_left dict_get fst snd]; [reflexivity|].
  cbn [map fst] in Hl. inversion Hl as [|? ? Hn Hd]; subst.
  rewrite (IH Hd), dict_get_set.
  destruct (str_eqb k t) eqn:E; [|reflexivity].
  apply str_eqb_eq in E. subst t. now rewrite (dict_get_absent l k Hn).
Qed.

Lemma rows_of_run (newsletter_id other : Z) (stats : dict counts) :
  filter (fun r => s_newsletter_id r =? other)
         (map (fun tc => {| s_newsletter_id := newsletter_id; s_topic := fst tc;
                            s_total_news := total (snd tc);
                            s_important_news := c_important (snd tc) |}) stats)
  = if newsletter_id =? other
    then map (fun tc => {| s_newsletter_id := newsletter_id; s_topic := fst tc;
                           s_total_news := total (snd tc);
                           s_important_news := c_important (snd tc) |}) stats
    else [].
Proof.
  induction stats as [|tc stats IH]; cbn [map filter s_newsletter_id].
  - now destruct (newsletter_id =? other).
  - rewrite IH. now destruct (newsletter_id =? other).
Qed.

Lemma fold_rows_of_run {S : Type} (f : S -> stats_row -> S) (g : str * counts -> stats_row)
  (stats : dict counts) :
  forall d, fold_left f (map g stats) d = fold_left (fun s tc => f s (g tc)) stats d.
Proof. induction stats as [|tc stats IH]; intro d; cbn [map fold_left]; [reflexivity | apply IH]. Qed.

Lemma stats_read_back (newsletter_id : Z) (stats : dict counts) (db : database) (t : str) :
  NoDup (map fst stats) ->
  dict_get (get_newsletter_stats newsletter_id
              (update_newsletter_stats newsletter_id stats db)) t
  = match dict_get stats t with
    | Some c => Some c
    | None => dict_get (get_newsletter_stats newsletter_id db) t
    end.
Proof.
  intro Hk. unfold get_newsletter_stats.
  rewrite update_newsletter_stats_appends, filter_app, fold_left_app, rows_of_run, Z.eqb_refl.
  rewrite fold_rows_of_run. cbn [s_topic s_total_news s_important_news].
  rewrite (rows_into_dict (fun c => {| total := total c; c_important := c_important c |})
             stats t Hk).
  destruct (dict_get stats t) as [c|]; [|reflexivity].
  f_equal. now apply counts_eq.
Qed.

(** X16: get_newsletter_stats after update_newsletter_stats gives, for the
    run that was written, the counts just written for every topic of the
    statistics and what it gave before for the other topics, although the
    older rows are still in the table; the statistics of another run are
    not changed. *)
Theorem newsletter_stats_round_trip (newsletter_id other : Z) (stats : dict counts)
  (db : database) (t : str) :
  NoDup (map fst stats) ->
  dict_get (get_newsletter_stats newsletter_id
              (update_newsletter_stats newsletter_id stats db)) t
  = match dict_get stats t with
    | Some c => Some c
    | None => dict_get (get_newsletter_stats newsletter_id db) t
    end
  /\ (other <> newsletter_id ->
      get_newsletter_stats other (update_newsletter_stats newsletter_id stats db)
      = get_newsletter_stats other db).
Proof.
  intro Hk. split; [now apply stats_read_back|].
  intro Hne. unfold get_newsletter_stats.
  rewrite update_newsletter_stats_appends, filter_app, rows_of_run.
  replace (newsletter_id =? other) with false by (symmetry; apply Z.eqb_neq; congruence).
  now rewrite app_nil_r.
Qed.

(** X17: what collect_and_save_news returns is what get_newsletter_stats
    then reads for the run: for every topic with a result, the number of its
    results and of the important ones. *)
Theorem finish_run_stats_stored (E : Sqlite) (cfg : Config) (newsletter_id : Z)
  (all_results : list outcome) (db : database) (t : str) :
  let n := List.length (filter (fun r => str_eqb (o_topic r) t) all_results) in
  let m := List.length
             (filter (fun r => str_eqb (o_topic r) t && negb (o_important r =? 0))
                     all_results) in
  let out := finish_run E cfg newsletter_id all_results db in
  dict_get (get_newsletter_stats newsletter_id (snd out)) t
  = (if (n =? 0)%nat then dict_get (get_newsletter_stats newsletter_id db) t
     else Some {| total := Z.of_nat n; c_important := Z.of_nat m |})
  /\ dict_get (get_newsletter_stats newsletter_id (snd out)) t
     = match dict_get (fst out) t with
       | Some c => Some c
       | None => dict_get (get_newsletter_stats newsletter_id db) t
       end.
Proof.
  cbv zeta. unfold finish_run. cbn [fst snd].
  rewrite (stats_read_back newsletter_id (run_stats all_results)
             (prune_topics E cfg (run_stats all_results) db) t (run_stats_keys all_results)).
  assert (Hsame : get_newsletter_stats newsletter_id
                    (prune_topics E cfg (run_stats all_results) db)
                  = get_newsletter_stats newsletter_id db) by reflexivity.
  rewrite Hsame. split; [|reflexivity].
  unfold run_stats. pose proof (counting_from all_results t []) as H. cbv zeta in H.
  rewrite H. cbn [dict_get].
  destruct (List.length (filter (fun r => str_eqb (o_topic r) t) all_results)) as [|n];
    [reflexivity|].
  cbn [Nat.eqb].
  now replace (Z.of_nat (S n) =? 0) with false by (symmetry; apply Z.eqb_neq; lia).
Qed.

(** ** The newsletter of the day *)





(** ** The statistics of the last hours *)

Lemma keys_into_dict {V : Type} (f : str -> V) (ks : list str) (t : str) :
  forall d,
    dict_get (fold_left (fun s k => dict_set s k (f k)) ks d) t =
    if str_in t ks then Some (f t) else dict_get d t.
Proof.
  unfold str_in.
  induction ks as [|k ks IH]; intro d; cbn [fold_left existsb]; [reflexivity|].
  rewrite IH, dict_get_set.
  destruct (existsb (str_eqb t) ks); [now rewrite orb_true_r|]. rewrite orb_false_r.
  destruct (str_eqb k t) eqn:E.
  - apply str_eqb_eq in E. subst k. now rewrite str_eqb_refl.
  - replace (str_eqb t k) with false; [reflexivity|].
    symmetry. apply str_eqb_neq. apply str_eqb_neq in E. congruence.
Qed.

Lemma count_le {A : Type} (p q : A -> bool) (l : list A) :
  (forall x, p x = true -> q x = true) ->
  (List.length (filter p l) <= List.length (filter q l))%nat.
Proof.
  intro H. induction l as [|x l IH]; cbn [filter]; [lia|].
  destruct (p x) eqn:Ep.
  - rewrite (H x Ep). cbn [List.length]. lia.
  - destruct (q x); cbn [List.length]; lia.
Qed.

Lemma count_all {A : Type} (p : A -> bool) (l : list A) :
  (List.length (filter p l) <= List.length l)%nat.
Proof.
  induction l as [|x l IH]; cbn [filter]; [lia|].
  destruct (p x); cbn [List.length]; lia.
Qed.

Lemma count_none {A : Type} (p : A -> bool) (l : list A) :
  (forall x, p x = false) -> List.length (filter p l) = O.
Proof.
  intro H. induction l as [|x l IH]; cbn [filter]; [reflexivity|]. now rewrite (H x).
Qed.

(** X19: get_topic_stats_last_hours has one entry for every topic of TOPICS,
    also for a topic without news, and none for another topic; of a topic
    the important articles are no more than all its articles, these no more
    than the rows of the table; a longer window lowers neither count as long
    as its start is an instant SQLite has a date for; for a negative number
    of hours, and for a window that starts before SQLite's first date, both
    counts of every topic are 0. *)
Theorem topic_stats_last_hours_counts (cfg : Config) (day0 hours hours' : Z)
  (db : database) (now : Z) (t : str) :
  0 <= hours <= hours' ->
  day0 <= now - hours' * 3600 ->
  (In t (map fst (TOPICS cfg)) ->
   exists c c',
     dict_get (get_topic_stats_last_hours cfg day0 hours db now) t = Some c
     /\ dict_get (get_topic_stats_last_hours cfg day0 hours' db now) t = Some c'
     /\ 0 <= c_important c <= total c
     /\ total c <= Z.of_nat (List.length (news db))
     /\ total c <= total c'
     /\ c_important c <= c_important c')
  /\ (~ In t (map fst (TOPICS cfg)) ->
      dict_get (get_topic_stats_last_hours cfg day0 hours db now) t = None)
  /\ (forall h, h < 0 \/ now - h * 3600 < day0 ->
        In t (map fst (TOPICS cfg)) ->
        dict_get (get_topic_stats_last_hours cfg day0 h db now) t
        = Some {| total := 0; c_important := 0 |}).
Proof.
  intros Hh Hday. unfold get_topic_stats_last_hours. cbv zeta.
  assert (Hread : forall h,
            dict_get
              (fold_left
                 (fun stats topic =>
                    dict_set stats topic
                      {| total := Z.of_nat (List.length
                           (filter (fun r => str_eqb (n_topic r) topic
                                             && in_last_hours day0 h now (n_published r))
                                   (news db)));
                         c_important := Z.of_nat (List.length
                           (filter (fun r => str_eqb (n_topic r) topic && (n_important r =? 1)
                                             && in_last_hours day0 h now (n_published r))
                                   (news db))) |})
                 (map fst (TOPICS cfg)) []) t
            = if str_in t (map fst (TOPICS cfg))
              then Some {| total := Z.of_nat (List.length
                             (filter (fun r => str_eqb (n_topic r) t
                                               && in_last_hours day0 h now (n_published r))
                                     (news db)));
                           c_important := Z.of_nat (List.length
                             (filter (fun r => str_eqb (n_topic r) t && (n_important r =? 1)
                                               && in_last_hours day0 h now (n_published r))
                                     (news db))) |}
              else None).
  { intro h.
    exact (keys_into_dict
             (fun topic =>
                {| total := Z.of_nat (List.length
                     (filter (fun r => str_eqb (n_topic r) topic
                                       && in_last_hours day0 h now (n_published r)) (news db)));
                   c_important := Z.of_nat (List.length
                     (filter (fun r => str_eqb (n_topic r) topic && (n_important r =? 1)
                                       && in_last_hours day0 h now (n_published r))
                             (news db))) |})
             (map fst (TOPICS cfg)) t []). }
  rewrite !Hread.
  assert (Hin : str_in t (map fst (TOPICS cfg)) = true <-> In t (map fst (TOPICS cfg))).
  { unfold str_in. rewrite existsb_exists. split.
    - intros [x [Hx Hex]]. apply str_eqb_eq in Hex. now subst.
    - intro H. exists t. split; [exact H | apply str_eqb_refl]. }
  assert (Hw : forall p, in_last_hours day0 hours now p = true ->
                         in_last_hours day0 hours' now p = true).
  { unfold in_last_hours. intros p H.
    destruct ((hours <? 0) || (now - hours * 3600 <? day0)); [discriminate|].
    apply Z.leb_le in H.
    replace (hours' <? 0) with false by (symmetry; apply Z.ltb_ge; lia).
    replace (now - hours' * 3600 <? day0) with false by (symmetry; apply Z.ltb_ge; lia).
    cbn [orb]. apply Z.leb_le. lia. }
  split; [|split].
  - intro H. rewrite (proj2 Hin H). eexists. eexists.
    split; [reflexivity|]. split; [reflexivity|]. cbn [total c_important].
    split; [split; [lia|]|split; [|split]].
    + apply inj_le, count_le. intros x Hx.
      apply andb_true_iff in Hx as [Hx Hx2]. apply andb_true_iff in Hx as [Hx Hx1].
      now rewrite Hx, Hx2.
    + apply inj_le, count_all.
    + apply inj_le, count_le. intros x Hx.
      apply andb_true_iff in Hx as [Hx Hx2]. now rewrite Hx, (Hw _ Hx2).
    + apply inj_le, count_le. intros x Hx.
      apply andb_true_iff in Hx as [Hx Hx2]. now rewrite Hx, (Hw _ Hx2).
  - intro H. destruct (str_in t (map fst (TOPICS cfg))) eqn:E; [|reflexivity].
    exfalso. apply H. now apply Hin.
  - intros h Hnull H. rewrite Hread, (proj2 Hin H).
    assert (Hno : forall p, in_last_hours day0 h now p = false).
    { intro p. unfold in_last_hours.
      replace ((h <? 0) || (now - h * 3600 <? day0)) with true; [reflexivity|].
      symmetry. apply orb_true_iff.
      destruct Hnull as [Hn|Hn]; [left | right]; now apply Z.ltb_lt. }
    rewrite !count_none; [reflexivity | |]; intro x; rewrite Hno; apply andb_false_r.
Qed.

(** ** Retention, run again *)

Lemma filter_all {A : Type} (p : A -> bool) (l : list A) :
  (forall x, In x l -> p x = true) -> filter p l = l.
Proof.
  induction l as [|x l IH]; intro H; cbn [filter]; [reflexivity|].
  rewrite (H x (or_introl eq_refl)). f_equal. apply IH. intros y Hy. apply H. now right.
Qed.

Section RetentionAgain.

Variable E : Sqlite.
Variable cfg : Config.

Hypothesis HE : SqliteLaws E.

Lemma prune_topic_settled (rows : list news_row) (topic : str) :
  MAX_NEWS_PER_TOPIC cfg < 0
  \/ (List.length (filter (of_topic topic) rows) <= Z.to_nat (MAX_NEWS_PER_TOPIC cfg))%nat ->
  prune_topic E cfg rows topic = rows.
Proof.
  intro Hcap. unfold prune_topic. apply filter_all. intros r Hr.
  destruct (of_topic topic r) eqn:Ht; [|reflexivity]. cbn [andb]. rewrite negb_involutive.
  apply existsb_exists. exists (n_id r). split; [|apply Z.eqb_refl].
  unfold kept_ids. apply in_map.
  assert (Hin : In r (order_by_published_desc E (filter (of_topic topic) rows))).
  { apply (Permutation_in r (Permutation_sym (order_perm E HE _))).
    apply filter_In. now split. }
  unfold sql_limit. destruct (MAX_NEWS_PER_TOPIC cfg <? 0) eqn:El; [exact Hin|].
  rewrite firstn_all2; [exact Hin|].
  rewrite (Permutation_length (order_perm E HE _)).
  destruct Hcap as [Hcap|Hcap]; [apply Z.ltb_ge in El; lia | exact Hcap].
Qed.

(** X20: the DELETE of the retention step, run a second time for the same
    topic, deletes nothing; with a negative MAX_NEWS_PER_TOPIC it never
    deletes anything, LIMIT then being no limit. *)
Theorem prune_topic_again (rows : list news_row) (topic : str) :
  NoDup (map n_id rows) ->
  prune_topic E cfg (prune_topic E cfg rows topic) topic = prune_topic E cfg rows topic
  /\ (MAX_NEWS_PER_TOPIC cfg < 0 -> prune_topic E cfg rows topic = rows).
Proof.
  intro Hids. split.
  - apply prune_topic_settled.
    destruct (Z.ltb_spec (MAX_NEWS_PER_TOPIC cfg) 0) as [Hneg|Hpos]; [now left | right].
    pose proof (prune_topic_single E cfg HE rows topic Hids Hpos) as H. cbv zeta in H.
    exact (proj1 H).
  - intro Hneg. apply prune_topic_settled. now left.
Qed.

End RetentionAgain.

(** ** Which topic detect_topic returns *)

Lemma insert_desc_sorted (x : str * Z) (l : list (str * Z)) :
  StronglySorted (fun a b => snd b <= snd a) l ->
  StronglySorted (fun a b => snd b <= snd a) (insert_desc x l).
Proof.
  induction l as [|z l IH]; intro H; cbn [insert_desc].
  - constructor; constructor.
  - inversion H as [|? ? Hl Hz]; subst.
    destruct (snd z <=? snd x) eqn:E.
    + apply Z.leb_le in E. constructor; [exact H|].
      constructor; [exact E|]. rewrite Forall_forall in Hz |- *.
      intros y Hy. specialize (Hz y Hy). cbn beta in *. lia.
    + apply Z.leb_gt in E. constructor; [now apply IH|].
      rewrite Forall_forall in Hz |- *. intros y Hy.
      apply insert_desc_in in Hy as [->|Hy]; [lia | now apply Hz].
Qed.

Lemma sort_desc_sorted (l : list (str * Z)) :
  StronglySorted (fun a b => snd b <= snd a) (sort_desc l).
Proof.
  induction l as [|x l IH]; cbn [sort_desc fold_right]; [constructor|].
  now apply insert_desc_sorted.
Qed.

Lemma llm_stage_with_picks (cfg : Config) (validate : str -> str -> str -> result bool)
  (title content tid : str) (cands : list (str * Z)) :
  llm_stage_with cfg validate title content cands = Ok (Some tid) ->
  exists s, In (tid, s) cands.
Proof.
  induction cands as [|[t s] rest IH]; cbn [llm_stage_with]; [discriminate|].
  destruct (dict_item (TOPICS cfg) t) as [td|e]; cbn [bind]; [|discriminate].
  destruct (validate title (firstn 1200 content) (topic_name_of td)) as [[|]|e].
  - intro H. injection H as <-. exists s. now left.
  - intro H. destruct (IH H) as [s' Hs']. exists s'. now right.
  - intro H. destruct (IH H) as [s' Hs']. exists s'. now right.
Qed.

Section Choice.

Variable U : Unicode.
Variable L : Library.
Variable cfg : Config.

(** X21: the topic detect_topic returns scored 2 or more and is one of the
    two best: at most one topic scored strictly more; when some topic
    reaches HIGH_CONFIDENCE_THRESHOLD, the topic returned has the highest
    score of all. *)
Theorem detect_topic_among_best (title content tid : str) (scores : dict Z) :
  scoring U cfg title content = Ok scores ->
  detect_topic U L cfg title content = Ok (Some tid) ->
  exists s,
    In (tid, s) scores
    /\ 2 <= s
    /\ (forall a b, In a scores -> In b scores -> s < snd a -> s < snd b -> a = b)
    /\ ((exists a, In a scores /\ HIGH_CONFIDENCE_THRESHOLD cfg <= snd a) ->
        forall a, In a scores -> snd a <= s).
Proof.
  intros Hsc Hd. unfold detect_topic in Hd. cbv zeta in Hd.
  destruct (STRICT_BELARUS_ONLY cfg && is_wrong_region U cfg _); [discriminate|].
  rewrite Hsc in Hd. cbn [bind] in Hd.
  pose proof (sort_desc_sorted (filter (fun ts => 2 <=? snd ts) scores)) as Hsorted.
  assert (Hcand : forall x, In x (sort_desc (filter (fun ts => 2 <=? snd ts) scores))
                            <-> In x scores /\ 2 <= snd x).
  { intro x. rewrite sort_desc_in, filter_In, Z.leb_le. tauto. }
  destruct (filter (fun ts => 2 <=? snd ts) scores) as [|c cs]; [discriminate|].
  destruct (sort_desc (c :: cs)) as [|[best top] sorted]; [discriminate|].
  inversion Hsorted as [|? ? Hrest Htop]; subst. rewrite Forall_forall in Htop.
  cbn [snd] in Htop.
  assert (Hbest : In (best, top) scores /\ 2 <= top).
  { apply (proj1 (Hcand (best, top))). now left. }
  assert (Hmax : forall a, In a scores -> snd a <= top).
  { intros a Ha. destruct (Z.le_gt_cases 2 (snd a)) as [H2|H2]; [|lia].
    destruct (proj2 (Hcand a) (conj Ha H2)) as [<-|Hin]; [simpl; lia | now apply Htop]. }
  assert (Hfirst : exists s, In (best, s) scores /\ 2 <= s
            /\ (forall a b, In a scores -> In b scores -> s < snd a -> s < snd b -> a = b)
            /\ ((exists a, In a scores /\ HIGH_CONFIDENCE_THRESHOLD cfg <= snd a) ->
                forall a, In a scores -> snd a <= s)).
  { exists top. split; [apply Hbest|]. split; [apply Hbest|]. split.
    - intros a b Ha _ Hlt _. specialize (Hmax a Ha). lia.
    - intros _. exact Hmax. }
  destruct (HIGH_CONFIDENCE_THRESHOLD cfg <=? top) eqn:Eh.
  { injection Hd as <-. exact Hfirst. }
  apply Z.leb_gt in Eh.
  destruct (llm_stage U L cfg title content (firstn 2 ((best, top) :: sorted)))
    as [[picked|]|e] eqn:El; cbn [bind] in Hd; [| |discriminate].
  - injection Hd as <-. apply llm_stage_with_picks in El as [s Hs].
    cbn [firstn In] in Hs. destruct Hs as [Hs|Hs].
    { injection Hs as <- <-. exact Hfirst. }
    destruct sorted as [|y sorted]; [destruct Hs|]. cbn [firstn In] in Hs.
    destruct Hs as [->|[]].
    inversion Hrest as [|? ? _ Hy]; subst. rewrite Forall_forall in Hy. cbn [snd] in Hy.
    assert (Hys : In (picked, s) scores /\ 2 <= s).
    { apply (proj1 (Hcand (picked, s))). right. now left. }
    assert (Hone : forall a, In a scores -> s < snd a -> a = (best, top)).
    { intros a Ha Hlt. assert (H2 : 2 <= snd a) by lia.
      destruct (proj2 (Hcand a) (conj Ha H2)) as [<-|[<-|Hin]];
        [reflexivity | simpl in Hlt; lia | specialize (Hy a Hin); lia]. }
    exists s. split; [apply Hys|]. split; [apply Hys|]. split.
    + intros a b Ha Hb Hla Hlb. now rewrite (Hone a Ha Hla), (Hone b Hb Hlb).
    + intros [a [Ha Hhigh]]. specialize (Hmax a Ha). lia.
  - destruct (dict_item (TOPICS cfg) best); cbn [bind] in Hd; [|discriminate].
    injection Hd as <-. exact Hfirst.
Qed.

End Choice.

(** ** Entries that are turned away, feed addresses, tokens *)

Section Screening.

Variable U : Unicode.
Variable L : Library.
Variable cfg : Config.

(** X22: an entry without title or link, one the blacklist catches, one
    without a date and one older than MAX_NEWS_AGE_HOURS are not stored:
    process_news_entry returns None and leaves the store; a date in
    published_parsed that is too old is not made up for by updated_parsed. *)
Theorem screened_entries_not_stored (e : entry) (src : str) (clk : clock) (db : database) :
  strip U (e_title e) = []
  \/ split_first 63%N (e_link e) = []
  \/ is_blacklisted U L cfg (split_first 63%N (e_link e)) (strip U (e_title e)) = true
  \/ (e_published_parsed e = None /\ e_updated_parsed e = None)
  \/ (exists t, (e_published_parsed e = Some t
                 \/ (e_published_parsed e = None /\ e_updated_parsed e = Some t))
                /\ t < t_age clk - MAX_NEWS_AGE_HOURS cfg * 3600) ->
  process_news_entry U L cfg e src clk db = (None, db).
Proof.
  intro H.
  assert (Hp : prepare U L cfg e (t_age clk) = None).
  { destruct (prepare U L cfg e (t_age clk)) as [p|] eqn:Hp; [|reflexivity]. exfalso.
    destruct (prepare_fields U L cfg _ _ _ Hp) as [Ht [Htn [Hl [Hln [Hb [Hage Hdate]]]]]].
    rewrite Ht in Htn. rewrite Hl in Hln. rewrite Ht, Hl in Hb.
    destruct H as [H|[H|[H|[[H1 H2]|[t [Hd Hold]]]]]].
    - now apply Htn.
    - now apply Hln.
    - rewrite H in Hb. discriminate.
    - destruct Hdate as [Hd|[_ Hd]]; congruence.
    - assert (t = p_published p); [|lia].
      destruct Hd as [Hd|[Hd1 Hd2]], Hdate as [Hd'|[Hd1' Hd2']]; congruence. }
  unfold process_news_entry. cbn [step]. now rewrite Hp.
Qed.

End Screening.

Lemma replace_blank (s : str) :
  replace [SPACE] [43%N] s = map (fun c => if N.eqb c SPACE then 43%N else c) s.
Proof.
  unfold replace. induction s as [|c s IH]; [reflexivity|].
  cbn [replace_from startswith List.length Nat.pred map]. rewrite IH.
  rewrite andb_true_r, N.eqb_sym. now destruct (N.eqb c SPACE).
Qed.

(** X23: the address build_google_rss gives holds no blank; the query is in
    it character for character, each blank turned into a plus sign and
    nothing else escaped, between the two fixed parts. *)
Theorem build_google_rss_no_blank (query : str) :
  ~ In SPACE (build_google_rss query)
  /\ build_google_rss query =
     u "https://news.google.com/rss/search?q="
     ++ map (fun c => if N.eqb c SPACE then 43%N else c) query
     ++ u "&hl=ru&gl=BY&ceid=BY:ru"
  /\ List.length (build_google_rss query) = (60 + List.length query)%nat.
Proof.
  unfold build_google_rss. cbv zeta. rewrite replace_blank.
  split; [|split; [reflexivity|]].
  - intro H. apply in_app_or in H as [H|H].
    + revert H. vm_compute. intuition discriminate.
    + apply in_app_or in H as [H|H].
      * apply in_map_iff in H as [c [Hc _]].
        destruct (N.eqb c SPACE) eqn:E; [discriminate|].
        apply N.eqb_neq in E. congruence.
      * revert H. vm_compute. intuition discriminate.
  - rewrite !length_app, length_map.
    assert (H1 : List.length (u "https://news.google.com/rss/search?q=") = 37%nat)
      by reflexivity.
    assert (H2 : List.length (u "&hl=ru&gl=BY&ceid=BY:ru") = 23%nat) by reflexivity.
    rewrite H1, H2. unfold char. lia.
Qed.

Section Tokens.

Variable U : Unicode.

Lemma word_runs_words (s : str) :
  forall acc w,
    forallb (is_word U) acc = true ->
    In w (word_runs U acc s) ->
    w <> [] /\ forallb (is_word U) w = true /\ forall c, In c w -> In c acc \/ In c s.
Proof.
  assert (Hrev : forall acc, acc <> [] -> forallb (is_word U) acc = true ->
                 rev acc <> [] /\ forallb (is_word U) (rev acc) = true
                 /\ forall c, In c (rev acc) -> In c acc).
  { intros acc Hne Hacc. split; [|split].
    - intro H. apply Hne. now rewrite <- (rev_involutive acc), H.
    - apply forallb_forall. intros c Hc. apply in_rev in Hc.
      now apply (proj1 (forallb_forall _ _) Hacc).
    - intros c Hc. now apply in_rev in Hc. }
  induction s as [|c s IH]; intros acc w Hacc Hw; cbn [word_runs] in Hw.
  - destruct acc as [|a acc]; [destruct Hw|]. destruct Hw as [<-|[]].
    destruct (Hrev (a :: acc) ltac:(discriminate) Hacc) as [H1 [H2 H3]].
    split; [exact H1|]. split; [exact H2|]. intros x Hx. left. now apply H3.
  - destruct (is_word U c) eqn:Ec.
    + destruct (IH (c :: acc) w) as [H1 [H2 H3]]; [cbn [forallb]; now rewrite Ec | exact Hw |].
      split; [exact H1|]. split; [exact H2|]. intros x Hx.
      destruct (H3 x Hx) as [[<-|H]|H]; [right; now left | now left | right; now right].
    + assert (Hrest : In w (word_runs U [] s) ->
                      w <> [] /\ forallb (is_word U) w = true
                      /\ forall x, In x w -> In x acc \/ In x (c :: s)).
      { intro H. destruct (IH [] w eq_refl H) as [H1 [H2 H3]].
        split; [exact H1|]. split; [exact H2|]. intros x Hx.
        destruct (H3 x Hx) as [[]|H']. right. now right. }
      destruct acc as [|a acc]; [now apply Hrest|].
      destruct Hw as [<-|Hw]; [|now apply Hrest].
      destruct (Hrev (a :: acc) ltac:(discriminate) Hacc) as [H1 [H2 H3]].
      split; [exact H1|]. split; [exact H2|]. intros x Hx. left. now apply H3.
Qed.

Hypothesis HU : UnicodeLaws U.

(** X24: a token of tokenize is not empty, is made of word characters of the
    text in lower case, and is in the result once; tokenize does not heed
    the case of the text. *)
Theorem tokenize_tokens (text w : str) :
  In w (tokenize U text) ->
  w <> []
  /\ forallb (is_word U) w = true
  /\ (forall c, In c w -> In c (str_lower U text))
  /\ NoDup (tokenize U text)
  /\ tokenize U (str_lower U text) = tokenize U text.
Proof.
  unfold tokenize. intro H. apply nodup_In in H.
  destruct (word_runs_words (str_lower U text) [] w eq_refl H) as [H1 [H2 H3]].
  split; [exact H1|]. split; [exact H2|]. split.
  - intros c Hc. destruct (H3 c Hc) as [[]|Hin]. exact Hin.
  - split; [apply NoDup_nodup|]. now rewrite (lower_idem U HU).
Qed.

End Tokens.

(** ** The further properties at concrete inputs *)

(** X1 at a title with capitals, digits and punctuation. *)
Lemma normalize_title_idempotent_witness :
  let t := u "  Hello, World 123!!  foo_bar  " in
  normalize_title Sample.tables (normalize_title Sample.tables t)
  = normalize_title Sample.tables t
  /\ normalize_title Sample.tables (str_lower Sample.tables t)
     = normalize_title Sample.tables t.
Proof.
  exact (normalize_title_idempotent Sample.tables tables_laws
           (u "  Hello, World 123!!  foo_bar  ")).
Defined.

(** X2 at two spellings of one title on two spellings of one host. *)
Lemma fingerprint_ignores_case_witness :
  fingerprint Sample.tables Sample.library_down (u "Tax Cut") (u "https://News.example/a")
  = fingerprint Sample.tables Sample.library_down (u "TAX cut") (u "https://news.EXAMPLE/b")
  /\ fingerprint Sample.tables Sample.library_down
       (normalize_title Sample.tables (u "Tax Cut")) (u "https://News.example/a")
     = fingerprint Sample.tables Sample.library_down (u "Tax Cut") (u "https://News.example/a").
Proof.
  exact (fingerprint_ignores_case Sample.tables Sample.library_down tables_laws
           (u "Tax Cut") (u "TAX cut") (u "https://News.example/a")
           (u "https://news.EXAMPLE/b") eq_refl eq_refl).
Defined.

(** X8 at a store of one article and an entry that is stored. *)
Lemma process_news_entry_keeps_unique_witness :
  let db := Sample.store [Sample.sample_row 1 (u "Budget vote") (u "https://a.example/1")
                            (u "economy") 190000] in
  store_ok db
  /\ store_ok (snd (process_news_entry Sample.tables Sample.library_down Sample.config
                      (w_entry Sample.first_worker) (u "rss") Sample.sample_clock db)).
Proof.
  intro db.
  assert (Hdb : store_ok db).
  { split; (constructor; [intros [] | constructor]). }
  split; [exact Hdb|].
  exact (process_news_entry_keeps_unique Sample.tables Sample.library_down Sample.config
           (w_entry Sample.first_worker) (u "rss") Sample.sample_clock db Hdb).
Defined.

(** X9 at two entries of one story: the second comes after the first is
    stored. *)
Lemma same_fingerprint_never_stored_twice_witness :
  let db' := snd (process_news_entry Sample.tables Sample.library_down Sample.config
                    (w_entry Sample.first_worker) (u "rss") Sample.sample_clock
                    Sample.empty_db) in
  fingerprint_exists
    (entry_fingerprint Sample.tables Sample.library_down (w_entry Sample.first_worker))
    db' = true
  /\ process_news_entry Sample.tables Sample.library_down Sample.config
       (w_entry Sample.second_worker) (u "google") (w_clock Sample.second_worker) db'
     = (None, db').
Proof.
  intro db'.
  pose (H := same_fingerprint_never_stored_twice Sample.tables Sample.library_down
               Sample.config
               (w_entry Sample.first_worker) (w_entry Sample.second_worker)
               (u "rss") (u "google") Sample.sample_clock (w_clock Sample.second_worker)
               Sample.empty_db
               {| o_id := 1; o_topic := u "economy"; o_important := 0 |}
               eq_refl eq_refl).
  exact (conj (proj1 H) (proj2 H db' (proj1 H))).
Defined.

(** X10 at an entry that is stored in an empty store. *)
Lemma stored_row_invariants_witness :
  let e := w_entry Sample.first_worker in
  let rd := process_news_entry Sample.tables Sample.library_down Sample.config
              e (u "rss") Sample.sample_clock Sample.empty_db in
  exists r,
    news (snd rd) = news Sample.empty_db ++ [r]
    /\ n_title r = firstn 500 (strip Sample.tables (e_title e)) /\ n_title r <> []
    /\ n_link r = split_first 63%N (e_link e) /\ n_link r <> [] /\ ~ In 63%N (n_link r)
    /\ n_summary r <> []
    /\ (List.length (n_summary r) <= 1000)%nat
    /\ (List.length (n_full_text r) <= 4000)%nat
    /\ n_normalized_title r
       = Some (firstn 200 (normalize_title Sample.tables (strip Sample.tables (e_title e))))
    /\ n_topic r <> []
    /\ (config_ok Sample.config -> In (n_topic r) (map fst (TOPICS Sample.config)))
    /\ (n_important r = 0 \/ n_important r = 1)
    /\ n_source r = u "rss"
    /\ t_age Sample.sample_clock - MAX_NEWS_AGE_HOURS Sample.config * 3600 <= n_published r.
Proof.
  exact (stored_row_invariants Sample.tables Sample.library_down Sample.config
           (w_entry Sample.first_worker) (u "rss") Sample.sample_clock Sample.empty_db
           {| o_id := 1; o_topic := u "economy"; o_important := 0 |} eq_refl).
Defined.

(** X11 at an entry of a Google feed. *)
Lemma google_entries_keep_title_witness :
  let rd := process_news_entry Sample.tables Sample.library_down Sample.config
              (w_entry Sample.second_worker) (u "google") Sample.sample_clock
              Sample.empty_db in
  fst rd = Some {| o_id := 1; o_topic := u "economy"; o_important := 0 |}
  /\ exists r,
       news (snd rd) = news Sample.empty_db ++ [r]
       /\ n_summary r = firstn 1000 (strip Sample.tables (e_title (w_entry Sample.second_worker)))
       /\ n_important r = 0.
Proof.
  split; [reflexivity|].
  exact (proj2 (google_entries_keep_title Sample.tables Sample.library_down Sample.config
                  (w_entry Sample.second_worker) Sample.sample_clock Sample.empty_db
                  {| o_id := 1; o_topic := u "economy"; o_important := 0 |} eq_refl)).
Defined.

(** X13 at a title that is in the store under the topic economy. *)
Lemma duplicate_in_topic_is_duplicate_witness :
  let db := Sample.store [Sample.sample_row 1 (u "Tax decree signed") (u "https://a.example/x")
                            (u "economy") 190000] in
  check_for_duplicates Sample.tables Sample.library_down Sample.config
    (u "Tax decree signed") (Some (u "economy")) (u "https://b.example/y") db 200000 = true
  /\ check_for_duplicates Sample.tables Sample.library_down Sample.config
       (u "Tax decree signed") None (u "https://b.example/y") db 200000 = true.
Proof.
  intro db. split; [reflexivity|].
  exact (duplicate_in_topic_is_duplicate Sample.tables Sample.library_down Sample.config
           (u "Tax decree signed") (Some (u "economy")) (u "https://b.example/y") db 200000
           eq_refl).
Defined.

(** X14 at one page under two query strings, the titles being different. *)
Lemma link_prefix_is_duplicate_witness :
  let r := Sample.sample_row 1 (u "Budget vote") (u "https://a.example/1?utm=feed")
             (u "economy") 190000 in
  clean_link (u "https://a.example/1?ref=tg#top") = u "https://a.example/1"
  /\ utf8_length (clean_link (u "https://a.example/1?ref=tg#top") ++ u "%") = 20
  /\ like_raises (u "https://a.example/1?ref=tg#top") (Sample.store [r]) = false
  /\ check_for_duplicates Sample.tables Sample.library_down Sample.config
       (u "Elections called") (Some (u "politics")) (u "https://a.example/1?ref=tg#top")
       (Sample.store [r]) 200000 = true.
Proof.
  intro r. split; [reflexivity|]. split; [reflexivity|].
  assert (Hfit : utf8_length (clean_link (u "https://a.example/1?ref=tg#top") ++ u "%")
                 <= LIKE_PATTERN_LIMIT) by (vm_compute; discriminate).
  exact (link_prefix_is_duplicate Sample.tables Sample.library_down Sample.config
           (u "Elections called") (Some (u "politics")) (u "https://a.example/1?ref=tg#top")
           (Sample.store [r]) 200000 r Hfit (or_introl eq_refl) eq_refl eq_refl).
Defined.

(** X16 at a run whose statistics are written a second time. *)
Lemma newsletter_stats_round_trip_witness :
  let db := update_newsletter_stats 1 [(u "economy", {| total := 5; c_important := 0 |})]
              Sample.empty_db in
  let stats := [(u "economy", {| total := 2; c_important := 1 |});
                (u "politics", {| total := 1; c_important := 0 |})] in
  dict_get (get_newsletter_stats 1 (update_newsletter_stats 1 stats db)) (u "economy")
  = Some {| total := 2; c_important := 1 |}
  /\ List.length (stats_rows_of 1 (u "economy") (update_newsletter_stats 1 stats db)) = 2%nat.
Proof.
  intros db stats. split; [|reflexivity].
  assert (Hk : NoDup (map fst stats)).
  { constructor; [intros [H|[]]; discriminate H|]. constructor; [intros []|constructor]. }
  exact (proj1 (newsletter_stats_round_trip 1 2 stats db (u "economy") Hk)).
Defined.

(** X19 at a store of four articles, for windows of 12 and 24 hours, the
    clock being Unix time; a window of 60000000 hours starts before Julian
    day 0 and counts nothing. *)
Lemma topic_stats_last_hours_counts_witness :
  let db := Sample.store Sample.four_rows in
  let day0 := -210866760000 in
  dict_get (get_topic_stats_last_hours Sample.config day0 12 db 43215) (u "economy")
  = Some {| total := 2; c_important := 0 |}
  /\ dict_get (get_topic_stats_last_hours Sample.config day0 24 db 43215) (u "economy")
     = Some {| total := 3; c_important := 0 |}
  /\ dict_get (get_topic_stats_last_hours Sample.config day0 60000000 db 43215) (u "economy")
     = Some {| total := 0; c_important := 0 |}
  /\ exists c c',
       dict_get (get_topic_stats_last_hours Sample.config day0 12 db 43215) (u "economy")
       = Some c
       /\ dict_get (get_topic_stats_last_hours Sample.config day0 24 db 43215) (u "economy")
          = Some c'
       /\ 0 <= c_important c <= total c
       /\ total c <= Z.of_nat (List.length (news db))
       /\ total c <= total c'
       /\ c_important c <= c_important c'.
Proof.
  intros db day0.
  split; [reflexivity|]. split; [reflexivity|]. split; [reflexivity|].
  assert (Hh : 0 <= 12 <= 24) by lia.
  assert (Hday : day0 <= 43215 - 24 * 3600) by (unfold day0; lia).
  exact (proj1 (topic_stats_last_hours_counts Sample.config day0 12 24 db 43215
                  (u "economy") Hh Hday)
           (or_introl eq_refl)).
Defined.

(** X20 at a store with three articles on the economy and a cap of 2. *)
Lemma prune_topic_again_witness :
  let once := prune_topic Sample.engine Sample.config Sample.four_rows (u "economy") in
  map n_id once = [2; 3; 4]
  /\ prune_topic Sample.engine Sample.config once (u "economy") = once.
Proof.
  intro once. split; [reflexivity|].
  assert (Hids : NoDup (map n_id Sample.four_rows)).
  { repeat (constructor; [cbn; intuition discriminate|]). constructor. }
  exact (proj1 (prune_topic_again Sample.engine Sample.config engine_laws
                  Sample.four_rows (u "economy") Hids)).
Defined.

(** X21 at a title with one keyword of each topic. *)
Lemma detect_topic_among_best_witness :
  let scores := [(u "economy", 2); (u "politics", 2)] in
  scoring Sample.tables Sample.config (u "Tax decree signed") (u "Tax decree signed")
  = Ok scores
  /\ exists s,
       In (u "economy", s) scores
       /\ 2 <= s
       /\ (forall a b, In a scores -> In b scores -> s < snd a -> s < snd b -> a = b)
       /\ ((exists a, In a scores /\ HIGH_CONFIDENCE_THRESHOLD Sample.config <= snd a) ->
           forall a, In a scores -> snd a <= s).
Proof.
  intro scores. split; [reflexivity|].
  exact (detect_topic_among_best Sample.tables Sample.library_down Sample.config
           (u "Tax decree signed") (u "Tax decree signed") (u "economy") scores
           eq_refl eq_refl).
Defined.

(** X22 at an entry whose title holds a word of the blacklist. *)
Lemma screened_entries_not_stored_witness :
  let e := Sample.sample_entry (u "Casino bonus") (u "https://news.example/x") in
  is_blacklisted Sample.tables Sample.library_down Sample.config
    (split_first 63%N (e_link e)) (strip Sample.tables (e_title e)) = true
  /\ process_news_entry Sample.tables Sample.library_down Sample.config e (u "rss")
       Sample.sample_clock Sample.empty_db = (None, Sample.empty_db).
Proof.
  intro e. split; [reflexivity|].
  exact (screened_entries_not_stored Sample.tables Sample.library_down Sample.config
           e (u "rss") Sample.sample_clock Sample.empty_db
           (or_intror (or_intror (or_introl eq_refl)))).
Defined.

(** X24 at a text with one word in two spellings. *)
Lemma tokenize_tokens_witness :
  let text := u "Tax cut, TAX rise" in
  tokenize Sample.tables text = [u "cut"; u "tax"; u "rise"]
  /\ u "tax" <> []
  /\ forallb (is_word Sample.tables) (u "tax") = true
  /\ (forall c, In c (u "tax") -> In c (str_lower Sample.tables text))
  /\ NoDup (tokenize Sample.tables text)
  /\ tokenize Sample.tables (str_lower Sample.tables text) = tokenize Sample.tables text.
Proof.
  intro text. split; [reflexivity|].
  exact (tokenize_tokens Sample.tables tables_laws text (u "tax")
           (or_intror (or_introl eq_refl))).
Defined.
